(** * AvatarChat: the avatar preparation pipeline and its session store

    A shallow embedding of the pipeline code of [app.py] (content-addressed
    upload deduplication, the completeness check, the auto-repair routine and
    the three request handlers that drive a session), of
    [ImageProcessingService.generate_cartoon_variations] and of
    [ChatService._validate_personality_data], followed by the properties
    established about them.

    Conventions.  A Python [dict] with a fixed set of possible keys is a
    record whose optional keys are [option] fields; a [dict] with arbitrary
    string keys is a [gmap string _].  A call that may raise returns a
    [result]; every [try]/[except Exception] of the source is a [match] on
    it.  External collaborators (the vendor calls, the clock, the uuid
    generator, the storage snapshot) are fields of an environment record. *)

From Stdlib Require Import ZArith Lia Strings.Ascii Strings.Byte Floats.SpecFloat.
From stdpp Require Import gmap strings list fin_maps pretty.
From Equations Require Import Equations.

(** Beyond the pipeline, the development embeds the session methods of
    [ChatService] (history, trimming, personality, streamed replies), the
    text splitter of the voice service, the configuration loader, the
    readiness and cleanup handlers of [app.py], and the vendor tasks of the
    image service together with [ChatService.select_expression_video].  The
    polling loop of the image service is defined by well-founded recursion on
    the time left to wait. *)

(** ** Python values used by the pipeline *)

(** Outcome of a call that may raise. *)
Inductive result (A : Type) : Type :=
| Ret (a : A)
| Raise (msg : string).
Arguments Ret {A} a.
Arguments Raise {A} msg.

(** A decoded JSON document, as [json.loads] returns it. *)
#[warnings="-register-all"]
Inductive json : Type :=
| JNull
| JBool (b : bool)
| JInt (n : Z)
| JFloat (x : spec_float)
| JStr (s : string)
| JList (l : list json)
| JDict (m : gmap string json).

(** Binary64 arithmetic as Python's [float] performs it, on the Standard
    Library's executable IEEE-754 specification. *)
Module PyFloat.

Definition prec : Z := 53.
Definition emax : Z := 1024.

(** [float(z)] for an integer. *)
Definition of_int (z : Z) : spec_float := binary_normalize prec emax z 0 false.

(** [a / b] on two integers (true division); [None] is ZeroDivisionError.
    For operands below 2^53 the quotient of the converted operands is the
    correctly rounded quotient Python returns. *)
Definition truediv (a b : Z) : option spec_float :=
  if (b =? 0)%Z then None else Some (SFdiv prec emax (of_int a) (of_int b)).

Definition mul (x y : spec_float) : spec_float := SFmul prec emax x y.

(** [int(x)]: truncation toward zero; [None] when Python raises
    (infinities and NaN). *)
Definition to_int (x : spec_float) : option Z :=
  match x with
  | S754_zero _ => Some 0%Z
  | S754_finite s m e =>
      let v := if (0 <=? e)%Z then (Z.pos m * 2 ^ e)%Z
               else (Z.pos m / 2 ^ (- e))%Z in
      Some (if s then (- v)%Z else v)
  | S754_infinity _ => None
  | S754_nan => None
  end.

End PyFloat.

(** The part of [pathlib] the upload handler uses, for relative POSIX
    paths.  A string is a sequence of bytes; [lower] folds the ASCII capital
    letters, which is what [str.lower] does to any text that ends up equal
    to one of the accepted extensions. *)
Module PyPath.

(** [s.split(c)]. *)
Fixpoint split_on (c : Ascii.ascii) (s : string) : list string :=
  match s with
  | EmptyString => [EmptyString]
  | String a s' =>
      if Ascii.eqb a c then EmptyString :: split_on c s'
      else match split_on c s' with
           | [] => [String a EmptyString]
           | x :: xs => String a x :: xs
           end
  end.

(** The components of a path: empty components and [.] are dropped. *)
Definition parts (p : string) : list string :=
  filter (λ x, x ≠ "" ∧ x ≠ ".") (split_on "/"%char p).

(** [Path(p).name]: the final component, or the empty string. *)
Definition name (p : string) : string := List.last (parts p) "".

(** [s.rpartition(c)] without the separator: the text before and after the
    last occurrence of [c], if there is one. *)
Fixpoint rpartition (c : Ascii.ascii) (s : string) : option (string * string) :=
  match s with
  | EmptyString => None
  | String a s' =>
      match rpartition c s' with
      | Some (before, after) => Some (String a before, after)
      | None => if Ascii.eqb a c then Some (EmptyString, s') else None
      end
  end.

(** [Path(p).suffix]: with [i = name.rfind('.')], the text [name[i:]] when
    [0 < i < len(name) - 1], else the empty string. *)
Definition suffix (p : string) : string :=
  match rpartition "."%char (name p) with
  | Some (before, after) =>
      if bool_decide (before = "" ∨ after = "") then "" else String "."%char after
  | None => ""
  end.

(** [Path(p).stem]: [name[:i]] under the same condition, else the name. *)
Definition stem (p : string) : string :=
  match rpartition "."%char (name p) with
  | Some (before, after) =>
      if bool_decide (before = "" ∨ after = "") then name p else before
  | None => name p
  end.

Definition lower_ascii (a : Ascii.ascii) : Ascii.ascii :=
  let n := Ascii.nat_of_ascii a in
  if bool_decide (65 ≤ n ∧ n ≤ 90)%nat then Ascii.ascii_of_nat (n + 32) else a.

Fixpoint lower (s : string) : string :=
  match s with
  | EmptyString => EmptyString
  | String a s' => String (lower_ascii a) (lower s')
  end.

(** [c in s]. *)
Fixpoint contains (c : Ascii.ascii) (s : string) : bool :=
  match s with
  | EmptyString => false
  | String a s' => Ascii.eqb a c || contains c s'
  end.

End PyPath.

(** The text of a uuid as [str(uuid.uuid4())] prints it is not empty and is
    made of lower-case hexadecimal digits and dashes. *)
Definition uuid_char (a : Ascii.ascii) : bool :=
  PyPath.contains a "0123456789abcdef-".

Fixpoint uuid_chars (u : string) : bool :=
  match u with
  | EmptyString => true
  | String a u' => uuid_char a && uuid_chars u'
  end.

Definition uuid_text (u : string) : bool :=
  match u with
  | EmptyString => false
  | String _ _ => uuid_chars u
  end.

(** ** Completeness check ([app.py], [check_preparation_completeness]) *)

(** A value of the [missing_files] dictionary: the two list-valued groups
    store the list of their absent paths, the personality group stores its
    single path as a plain string. *)
Inductive missing_entry : Type :=
| MissingPaths (paths : list string)
| MissingPath (path : string).

Definition required_variations (image_uuid : string) : list string :=
  [ "generated/avatars/" +:+ image_uuid +:+ "_variation_1.png";
    "generated/avatars/" +:+ image_uuid +:+ "_variation_2.png";
    "generated/avatars/" +:+ image_uuid +:+ "_variation_3.png";
    "generated/avatars/" +:+ image_uuid +:+ "_variation_4.png" ].

Definition required_expressions (image_uuid : string) : list string :=
  [ "generated/expressions/" +:+ image_uuid +:+ "_happy.mp4";
    "generated/expressions/" +:+ image_uuid +:+ "_sad.mp4";
    "generated/expressions/" +:+ image_uuid +:+ "_surprised.mp4" ].

Definition required_personality (image_uuid : string) : string :=
  "generated/personality/" +:+ image_uuid +:+ "_personality.json".

(** The paths of a list that are absent from the storage snapshot [fs]
    (the set of paths for which [Path(p).exists()] holds), in list order. *)
Definition absent_paths (fs : gset string) (paths : list string) : list string :=
  filter (λ p, p ∉ fs) paths.

(** [int((completed_categories / total_categories) * 100)]. *)
Definition completion_percentage (completed_categories total_categories : Z) : option Z :=
  q ← PyFloat.truediv completed_categories total_categories;
  PyFloat.to_int (PyFloat.mul q (PyFloat.of_int 100)).

(** The check proper.  [str(Path(p))] is [p] itself on the relative POSIX
    paths built here, since an image uuid holds no separator. *)
Definition check_preparation_completeness
    (fs : gset string) (image_uuid original_image_path : string)
    : option (gmap string missing_entry * Z) :=
  let missing_files : gmap string missing_entry := ∅ in
  let missing_variations := absent_paths fs (required_variations image_uuid) in
  let missing_files :=
    match missing_variations with
    | [] => missing_files
    | _ :: _ => <["variations" := MissingPaths missing_variations]> missing_files
    end in
  let missing_expressions := absent_paths fs (required_expressions image_uuid) in
  let missing_files :=
    match missing_expressions with
    | [] => missing_files
    | _ :: _ => <["expressions" := MissingPaths missing_expressions]> missing_files
    end in
  let personality_path := required_personality image_uuid in
  let missing_files :=
    if bool_decide (personality_path ∈ fs) then missing_files
    else <["personality" := MissingPath personality_path]> missing_files in
  let total_categories := 3%Z in
  let completed_categories := (total_categories - Z.of_nat (size missing_files))%Z in
  pct ← completion_percentage completed_categories total_categories;
  Some (missing_files, pct).

(** ** The collaborators and the state of [app.py] *)

(** What [chat_service.generate_personality] hands back: a dictionary that
    may hold an [error] text and may hold [personality_data], or some value
    that is not a dictionary. *)
Inductive personality_result : Type :=
| PersonalityDict (error : option string) (personality_data : option json)
| PersonalityOther.

(** The calls issued to the stage generators, in the order they are made. *)
Inductive call : Type :=
| CallSegment (image_path : string)
| CallVariations (image_path image_uuid : string)
| CallExpressions (avatar_path image_uuid : string)
| CallPersonality (avatar_path image_uuid : string).

(** Everything one request reads from outside the session store and the
    uploads directory: the clock, the two [uuid.uuid4()] draws of an upload,
    the paths that exist under [generated/], the decoded content of a stored
    personality file, the four stage generators, and the emotions configured
    under [config['prompts']['expressions']]. *)
Record env : Type := {
  now : Z;
  uuid4_session : string;
  uuid4_image : string;
  storage : gset string;
  load_json : string → result json;
  segment_image : string → result string;
  generate_cartoon_variations : string → string → result (list string);
  generate_expressions : string → string → result (gmap string string);
  generate_personality : string → string → result personality_result;
  expression_emotions : list string;
}.

(** A session record: the keys every creation path sets are plain fields,
    the keys set later or only on some paths are optional. *)
Record session : Type := {
  s_session_id : string;
  s_image_uuid : string;
  s_original_image_path : string;
  s_segmented_image : string;
  s_variations : option (list string);
  s_expressions : option (gmap string string);
  s_personality_file : option string;
  s_personality : option json;
  s_status : string;
  s_created_at : Z;
  s_step : string;
  s_md5 : string;
  s_auto_completed : option bool;
  s_variations_count : option nat;
  s_selected_avatar : option string;
  s_selected_index : option Z;
  s_completed_at : option Z;
}.

Abbreviation bytes := (list Byte.byte).

(** The process state the handlers act on: the global [user_sessions], the
    files of the [uploads] directory (name and content, in the order
    [glob('*')] enumerates them: a file keeps its place while it exists and a
    new file comes last), and the generator calls made so far. *)
Record world : Type := {
  user_sessions : gmap string session;
  uploads : list (string * bytes);
  trace : list call;
}.

(** The [completed_files] dictionary of the repair routine. *)
Record completed_files : Type := {
  cf_segmented_image : option string;
  cf_variations : option (list string);
  cf_expressions : option (gmap string string);
  cf_personality : option json;
}.

(** What a handler answers: an error with its HTTP status and code, or the
    data of the success response. *)
Inductive response : Type :=
| Error (http : Z) (code : string)
| UploadNew (session_id original_image segmented_image : string)
| UploadReadyForChat (session_id : string) (completion_percentage : Z)
| UploadPreparationCompleted (session_id : string) (completed : completed_files)
| VariationsGenerated (session_id : string) (variations : list string)
| AvatarSelected (session_id : string) (selected_index : Z)
    (selected_avatar : string) (personality : json)
    (expressions : gmap string string).

(** The position of a status on the main line of the state machine. *)
Definition status_rank (status : string) : option nat :=
  if bool_decide (status = "uploaded") then Some 0%nat
  else if bool_decide (status = "generating_variations") then Some 1%nat
  else if bool_decide (status = "variations_ready") then Some 2%nat
  else if bool_decide (status = "processing_selection") then Some 3%nat
  else if bool_decide (status = "ready") then Some 4%nat
  else None.

(** The literal default personality of [app.py]. *)
Definition default_personality : json :=
  JDict {[ "personality" :=
             JList [JStr "友善热情"; JStr "乐于助人"; JStr "充满好奇心"; JStr "积极乐观"];
           "habits" := JList [JStr "喜欢学习新知识"; JStr "经常为朋友着想"];
           "voice_tone" := JStr "温和" ]}.

(** *** The uploads directory *)

Definition dir_names (dir : list (string * bytes)) : list string := fst <$> dir.

Definition dir_read (file_name : string) (dir : list (string * bytes))
    : option bytes :=
  snd <$> head (filter (λ f, f.1 = file_name) dir).

(** [file.save(path)]: an existing file is overwritten where it is, a new
    one is added. *)
Definition dir_save (file_name : string) (content : bytes)
    (dir : list (string * bytes)) : list (string * bytes) :=
  if bool_decide (file_name ∈ dir_names dir) then
    (λ f, if bool_decide (f.1 = file_name) then (file_name, content) else f) <$> dir
  else dir ++ [(file_name, content)].

(** [path.unlink()]; [None] when the file is not there. *)
Definition dir_unlink (file_name : string) (dir : list (string * bytes))
    : option (list (string * bytes)) :=
  if bool_decide (file_name ∈ dir_names dir) then
    Some (filter (λ f, f.1 ≠ file_name) dir)
  else None.

(** [path.rename(target)]: the target is replaced if it exists; [None] when
    the source is not there. *)
Definition dir_rename (file_name target : string) (dir : list (string * bytes))
    : option (list (string * bytes)) :=
  if bool_decide (file_name ∈ dir_names dir) then
    Some ((λ f, if bool_decide (f.1 = file_name) then (target, f.2) else f)
            <$> filter (λ f, f.1 = file_name ∨ f.1 ≠ target) dir)
  else None.

(** ** Content fingerprint and the search for an earlier upload *)

(** [calculate_file_md5]: the digest of the file's content, [None] when the
    file cannot be read. *)
Definition calculate_file_md5 (md5 : bytes → string)
    (dir : list (string * bytes)) (file_name : string) : option string :=
  md5 <$> dir_read file_name dir.

(** [find_existing_image_by_md5]: the path of the first enumerated file with
    the given digest that is not the staged file itself. *)
Definition find_existing_image_by_md5 (md5 : bytes → string)
    (dir : list (string * bytes)) (md5_hash : string) (original_filename : string)
    : option string :=
  (λ f, "uploads/" +:+ f.1) <$>
    head (filter (λ f, md5 f.2 = md5_hash ∧ f.1 ≠ original_filename) dir).

(** ** Personality validation ([chat_service.py]) *)

Module ChatService.

(** [str(v)]: a string is returned as it is; the text Python prints for any
    other value is given by [repr]. *)
Definition py_str (repr : json → string) (v : json) : string :=
  match v with
  | JStr s => s
  | _ => repr v
  end.

Definition _validate_personality_data (repr : json → string) (data : json)
    : gmap string json :=
  let validated : gmap string json :=
    {[ "personality" := JList [];
       "habits" := JList [];
       "voice_tone" := JStr "friendly" ]} in
  match data with
  | JDict d =>
      let validated :=
        match d !! "personality" with
        | Some (JList l) =>
            <["personality" := JList ((λ trait, JStr (py_str repr trait)) <$> take 5 l)]>
              validated
        | _ => validated
        end in
      let validated :=
        match d !! "habits" with
        | Some (JList l) =>
            <["habits" := JList ((λ habit, JStr (py_str repr habit)) <$> take 3 l)]>
              validated
        | _ => validated
        end in
      let validated :=
        match d !! "voice_tone" with
        | Some (JStr tone) => <["voice_tone" := JStr tone]> validated
        | _ => validated
        end in
      validated
  | _ => validated
  end.

(** A profile in the shape the validation promises: exactly the three
    keys, the two lists made of strings only. *)
Definition well_formed_profile (profile : gmap string json) : Prop :=
  dom profile = {[ "personality"; "habits"; "voice_tone" ]} ∧
  (∃ traits : list string,
     profile !! "personality" = Some (JList (JStr <$> traits)) ∧
     (length traits ≤ 5)%nat) ∧
  (∃ habits : list string,
     profile !! "habits" = Some (JList (JStr <$> habits)) ∧
     (length habits ≤ 3)%nat) ∧
  (∃ tone : string, profile !! "voice_tone" = Some (JStr tone)).

End ChatService.

(** ** Cartoon variations ([image_service.py]) *)

Module ImageService.

(** What the service reads from its configuration and from the outside:
    the configured cartoon prompts, the vendor call that edits one image
    ([_call_wanx_image_edit_async], which may raise), and whether writing a
    placeholder image of a given file name succeeds. *)
Record service : Type := {
  cartoon_generation : list string;
  _call_wanx_image_edit_async :
    string → string → string → string → result string;
  placeholder_saved : string → bool;
}.

(** [_create_placeholder_image]: the path of the image written under
    [generated/avatars], or the empty string when writing it fails. *)
Definition _create_placeholder_image (sv : service) (image_uuid name : string)
    : string :=
  let filename := image_uuid +:+ "_" +:+ name +:+ ".png" in
  if placeholder_saved sv filename then "generated/avatars/" +:+ filename
  else "".

(** One turn of the loop over [enumerate(cartoon_prompts[:4])]. *)
Definition generate_one_variation (sv : service) (image_path image_uuid : string)
    (i : nat) (prompt : string) : string :=
  match _call_wanx_image_edit_async sv image_path prompt image_uuid
          ("variation_" +:+ pretty (i + 1)%nat) with
  | Ret result_path => result_path
  | Raise _ =>
      _create_placeholder_image sv image_uuid
        ("variation_" +:+ pretty (i + 1)%nat +:+ "_placeholder")
  end.

Definition generate_cartoon_variations (sv : service)
    (image_path image_uuid : string) : result (list string) :=
  let cartoon_prompts := cartoon_generation sv in
  if bool_decide (length cartoon_prompts < 4)%nat then
    Raise "需要至少4个卡通化提示词"
  else
    let generated_paths :=
      imap (generate_one_variation sv image_path image_uuid)
           (take 4 cartoon_prompts) in
    Ret generated_paths.

End ImageService.

(** ** Auto-repair ([app.py], [complete_missing_preparation]) *)

(** ['key' in missing_files]. *)
Definition has_key {A : Type} (key : string) (d : gmap string A) : bool :=
  bool_decide (is_Some (d !! key)).

(** The reading of a personality result, written out twice in [app.py]:
    a dictionary with an [error] gives the default, else a dictionary with
    [personality_data] gives that data, anything else gives the default. *)
Definition personality_of_result (r : personality_result) : json :=
  match r with
  | PersonalityDict (Some _) _ => default_personality
  | PersonalityDict None (Some personality_data) => personality_data
  | PersonalityDict None None => default_personality
  | PersonalityOther => default_personality
  end.

(** [completed_files.get('variations', [None])[0] or
    completed_files.get('segmented_image', original_image_path)]: indexing
    the empty list raises IndexError. *)
Definition repair_avatar_image (completed : completed_files)
    (original_image_path : string) : result string :=
  let fallback := default original_image_path (cf_segmented_image completed) in
  match cf_variations completed with
  | None => Ret fallback
  | Some [] => Raise "IndexError: list index out of range"
  | Some (first :: _) => Ret (if bool_decide (first = "") then fallback else first)
  end.

Definition complete_missing_preparation (e : env)
    (image_uuid original_image_path : string)
    (missing_files : gmap string missing_entry)
    : result completed_files * list call :=
  let completed :=
    {| cf_segmented_image := None; cf_variations := None;
       cf_expressions := None; cf_personality := None |} in
  let calls : list call := [] in
  (* segmented image *)
  let '(completed, calls) :=
    if has_key "segmented_image" missing_files then
      let segmented :=
        match segment_image e original_image_path with
        | Ret segmented_path => segmented_path
        | Raise _ => original_image_path
        end in
      ({| cf_segmented_image := Some segmented;
          cf_variations := cf_variations completed;
          cf_expressions := cf_expressions completed;
          cf_personality := cf_personality completed |},
       calls ++ [CallSegment original_image_path])
    else (completed, calls) in
  (* variations *)
  let '(completed, calls) :=
    if has_key "variations" missing_files then
      let segmented_image :=
        default original_image_path (cf_segmented_image completed) in
      let variations :=
        match generate_cartoon_variations e segmented_image image_uuid with
        | Ret variations => variations
        | Raise _ => []
        end in
      ({| cf_segmented_image := cf_segmented_image completed;
          cf_variations := Some variations;
          cf_expressions := cf_expressions completed;
          cf_personality := cf_personality completed |},
       calls ++ [CallVariations segmented_image image_uuid])
    else (completed, calls) in
  (* expressions: only with a non-empty variations entry *)
  let '(completed, calls) :=
    match has_key "expressions" missing_files, cf_variations completed with
    | true, Some (selected_variation :: _) =>
        let expressions :=
          match generate_expressions e selected_variation image_uuid with
          | Ret expressions => expressions
          | Raise _ => ∅
          end in
        ({| cf_segmented_image := cf_segmented_image completed;
            cf_variations := cf_variations completed;
            cf_expressions := Some expressions;
            cf_personality := cf_personality completed |},
         calls ++ [CallExpressions selected_variation image_uuid])
    | _, _ => (completed, calls)
    end in
  (* personality *)
  let '(completed, calls) :=
    if has_key "personality" missing_files then
      match repair_avatar_image completed original_image_path with
      | Ret avatar_image =>
          let personality :=
            match generate_personality e avatar_image image_uuid with
            | Ret personality_result => personality_of_result personality_result
            | Raise _ => default_personality
            end in
          ({| cf_segmented_image := cf_segmented_image completed;
              cf_variations := cf_variations completed;
              cf_expressions := cf_expressions completed;
              cf_personality := Some personality |},
           calls ++ [CallPersonality avatar_image image_uuid])
      | Raise _ =>
          ({| cf_segmented_image := cf_segmented_image completed;
              cf_variations := cf_variations completed;
              cf_expressions := cf_expressions completed;
              cf_personality := Some default_personality |},
           calls)
      end
    else (completed, calls) in
  (Ret completed, calls).

(** ** The request handlers of [app.py] *)

Definition with_sessions (w : world) (sessions : gmap string session) : world :=
  {| user_sessions := sessions; uploads := uploads w; trace := trace w |}.

Definition with_uploads (w : world) (dir : list (string * bytes)) : world :=
  {| user_sessions := user_sessions w; uploads := dir; trace := trace w |}.

Definition with_calls (w : world) (calls : list call) : world :=
  {| user_sessions := user_sessions w; uploads := uploads w;
     trace := trace w ++ calls |}.

Definition allowed_extensions : list string := [".jpg"; ".jpeg"; ".png"; ".webp"].

(** The new-image flow of [upload_image]: the staged file is renamed after
    the image uuid, segmentation is attempted (the original stands in when
    it fails), and the session is stored as [uploaded]. *)
Definition upload_new_image (e : env) (w : world)
    (session_id image_uuid file_ext temp_filename file_md5 : string)
    : world * response :=
  let final_filename := image_uuid +:+ file_ext in
  match dir_rename temp_filename final_filename (uploads w) with
  | None => (w, Error 500 "UPLOAD_ERROR")
  | Some dir =>
      let w := with_uploads w dir in
      let upload_path := "uploads/" +:+ final_filename in
      let segmented_path :=
        match segment_image e upload_path with
        | Ret segmented_path => segmented_path
        | Raise _ => upload_path
        end in
      let w := with_calls w [CallSegment upload_path] in
      let new_session :=
        {| s_session_id := session_id;
           s_image_uuid := image_uuid;
           s_original_image_path := upload_path;
           s_segmented_image := segmented_path;
           s_variations := None;
           s_expressions := None;
           s_personality_file := None;
           s_personality := None;
           s_status := "uploaded";
           s_created_at := now e;
           s_step := "image_uploaded";
           s_md5 := file_md5;
           s_auto_completed := None;
           s_variations_count := None;
           s_selected_avatar := None;
           s_selected_index := None;
           s_completed_at := None |} in
      (with_sessions w (<[session_id := new_session]> (user_sessions w)),
       UploadNew session_id upload_path segmented_path)
  end.

(** The flow of [upload_image] when an earlier upload has the same digest:
    the staged file is removed, the earlier image's uuid is the stem of its
    file name, and the session is built from what the completeness check
    finds, after a repair when something is missing. *)
Definition upload_existing_image (e : env) (w : world)
    (session_id image_uuid file_ext temp_filename file_md5 existing_image_path : string)
    : world * response :=
  match dir_unlink temp_filename (uploads w) with
  | None => (w, Error 500 "UPLOAD_ERROR")
  | Some dir =>
      let w := with_uploads w dir in
      let existing_image_uuid := PyPath.stem existing_image_path in
      match check_preparation_completeness (storage e) existing_image_uuid
              existing_image_path with
      | None => (w, Error 500 "UPLOAD_ERROR")
      | Some (missing_files, completion_percentage) =>
          if bool_decide (size missing_files = 0%nat) then
            let personality_file_path := required_personality existing_image_uuid in
            let personality_data :=
              if bool_decide (personality_file_path ∈ storage e) then
                match load_json e personality_file_path with
                | Ret personality_data => personality_data
                | Raise _ => default_personality
                end
              else default_personality in
            let new_session :=
              {| s_session_id := session_id;
                 s_image_uuid := existing_image_uuid;
                 s_original_image_path := existing_image_path;
                 s_segmented_image := "temp/segmented_" +:+ existing_image_uuid +:+ ".jpg";
                 s_variations := Some (required_variations existing_image_uuid);
                 s_expressions :=
                   Some {[ "happy" := "generated/expressions/" +:+ existing_image_uuid +:+ "_happy.mp4";
                           "sad" := "generated/expressions/" +:+ existing_image_uuid +:+ "_sad.mp4";
                           "surprised" := "generated/expressions/" +:+ existing_image_uuid +:+ "_surprised.mp4" ]};
                 s_personality_file := Some personality_file_path;
                 s_personality := Some personality_data;
                 s_status := "ready_for_chat";
                 s_created_at := now e;
                 s_step := "preparation_complete";
                 s_md5 := file_md5;
                 s_auto_completed := None;
                 s_variations_count := None;
                 s_selected_avatar := None;
                 s_selected_index := None;
                 s_completed_at := None |} in
            (with_sessions w (<[session_id := new_session]> (user_sessions w)),
             UploadReadyForChat session_id completion_percentage)
          else
            match complete_missing_preparation e existing_image_uuid
                    existing_image_path missing_files with
            | (Ret completed, calls) =>
                let w := with_calls w calls in
                let new_session :=
                  {| s_session_id := session_id;
                     s_image_uuid := existing_image_uuid;
                     s_original_image_path := existing_image_path;
                     s_segmented_image :=
                       default existing_image_path (cf_segmented_image completed);
                     s_variations := Some (default [] (cf_variations completed));
                     s_expressions := Some (default ∅ (cf_expressions completed));
                     s_personality_file := None;
                     s_personality := Some (default JNull (cf_personality completed));
                     s_status := "preparation_completed";
                     s_created_at := now e;
                     s_step := "preparation_complete";
                     s_md5 := file_md5;
                     s_auto_completed := Some true;
                     s_variations_count := None;
                     s_selected_avatar := None;
                     s_selected_index := None;
                     s_completed_at := None |} in
                (with_sessions w (<[session_id := new_session]> (user_sessions w)),
                 UploadPreparationCompleted session_id completed)
            | (Raise _, calls) =>
                (* the handler logs and falls through to the new-image flow *)
                upload_new_image e (with_calls w calls)
                  session_id image_uuid file_ext temp_filename file_md5
            end
      end
  end.

(** [upload_image]; the request carries at most one [image] part, a file
    name (possibly absent) with the file's bytes.  Disk writes under
    [uploads] are taken to succeed. *)
Definition upload_image (md5 : bytes → string) (e : env)
    (image : option (option string * bytes)) (w : world) : world * response :=
  match image with
  | None => (w, Error 400 "NO_FILE")
  | Some (file_filename, content) =>
      if bool_decide (file_filename = Some "") then (w, Error 400 "NO_FILENAME")
      else
        let filename := default "" file_filename in
        let file_ext := PyPath.lower (PyPath.suffix filename) in
        if bool_decide (file_ext ∉ allowed_extensions) then
          (w, Error 400 "INVALID_FORMAT")
        else
          let session_id := uuid4_session e in
          let image_uuid := uuid4_image e in
          let original_filename :=
            if bool_decide (filename = "") then "upload.jpg" else filename in
          let file_ext := PyPath.lower (PyPath.suffix original_filename) in
          let temp_filename := "temp_" +:+ image_uuid +:+ file_ext in
          let w := with_uploads w (dir_save temp_filename content (uploads w)) in
          match calculate_file_md5 md5 (uploads w) temp_filename with
          | None => (w, Error 500 "FILE_PROCESSING_ERROR")
          | Some file_md5 =>
              if bool_decide (file_md5 = "") then
                (w, Error 500 "FILE_PROCESSING_ERROR")
              else
                match find_existing_image_by_md5 md5 (uploads w) file_md5
                        temp_filename with
                | Some existing_image_path =>
                    upload_existing_image e w session_id image_uuid file_ext
                      temp_filename file_md5 existing_image_path
                | None =>
                    upload_new_image e w session_id image_uuid file_ext
                      temp_filename file_md5
                end
          end
  end.

(** [generate_avatar_variations]; the request body is absent or empty
    ([None]), or a dictionary that may hold a [session_id]. *)
Definition generate_avatar_variations (e : env)
    (data : option (option string)) (w : world) : world * response :=
  match data with
  | None => (w, Error 400 "NO_DATA")
  | Some None => (w, Error 400 "NO_SESSION_ID")
  | Some (Some session_id) =>
      if bool_decide (session_id = "") then (w, Error 400 "NO_SESSION_ID")
      else
        match user_sessions w !! session_id with
        | None => (w, Error 400 "INVALID_SESSION")
        | Some session =>
            let segmented_image := s_segmented_image session in
            let image_uuid := s_image_uuid session in
            (* status and step are set before the generator runs *)
            let session :=
              {| s_session_id := s_session_id session;
                 s_image_uuid := s_image_uuid session;
                 s_original_image_path := s_original_image_path session;
                 s_segmented_image := s_segmented_image session;
                 s_variations := s_variations session;
                 s_expressions := s_expressions session;
                 s_personality_file := s_personality_file session;
                 s_personality := s_personality session;
                 s_status := "generating_variations";
                 s_created_at := s_created_at session;
                 s_step := "generating_variations";
                 s_md5 := s_md5 session;
                 s_auto_completed := s_auto_completed session;
                 s_variations_count := s_variations_count session;
                 s_selected_avatar := s_selected_avatar session;
                 s_selected_index := s_selected_index session;
                 s_completed_at := s_completed_at session |} in
            let w := with_sessions w (<[session_id := session]> (user_sessions w)) in
            let w := with_calls w [CallVariations segmented_image image_uuid] in
            match generate_cartoon_variations e segmented_image image_uuid with
            | Raise _ => (w, Error 500 "GENERATION_ERROR")
            | Ret variations =>
                let session :=
                  {| s_session_id := s_session_id session;
                     s_image_uuid := s_image_uuid session;
                     s_original_image_path := s_original_image_path session;
                     s_segmented_image := s_segmented_image session;
                     s_variations := Some variations;
                     s_expressions := s_expressions session;
                     s_personality_file := s_personality_file session;
                     s_personality := s_personality session;
                     s_status := "variations_ready";
                     s_created_at := s_created_at session;
                     s_step := "variations_generated";
                     s_md5 := s_md5 session;
                     s_auto_completed := s_auto_completed session;
                     s_variations_count := Some (length variations);
                     s_selected_avatar := s_selected_avatar session;
                     s_selected_index := s_selected_index session;
                     s_completed_at := s_completed_at session |} in
                (with_sessions w (<[session_id := session]> (user_sessions w)),
                 VariationsGenerated session_id variations)
            end
        end
  end.

(** The mapping [select_avatar] falls back on when the expressions
    generator raises: one placeholder name per configured emotion. *)
Definition placeholder_expressions (e : env) (image_uuid : string)
    : gmap string string :=
  list_to_map
    ((λ emotion, (emotion, image_uuid +:+ "_" +:+ emotion +:+ "_placeholder.mp4"))
       <$> expression_emotions e).

(** [select_avatar]; the request body is absent or empty ([None]), or a
    dictionary that may hold a [session_id] and an integer [selected_index].
    [chat_service.update_personality] only writes the chat service's own
    field and is not part of this state. *)
Definition select_avatar (e : env)
    (data : option (option string * option Z)) (w : world) : world * response :=
  match data with
  | None => (w, Error 400 "NO_DATA")
  | Some (None, _) => (w, Error 400 "NO_SESSION_ID")
  | Some (Some session_id, selected_index) =>
      if bool_decide (session_id = "") then (w, Error 400 "NO_SESSION_ID")
      else
        match selected_index with
        | None => (w, Error 400 "NO_SELECTION")
        | Some selected_index =>
            match user_sessions w !! session_id with
            | None => (w, Error 400 "INVALID_SESSION")
            | Some session =>
                let variations := default [] (s_variations session) in
                let image_uuid := s_image_uuid session in
                if bool_decide (selected_index >= Z.of_nat (length variations)
                                ∨ selected_index < 0)%Z then
                  (w, Error 400 "INVALID_INDEX")
                else
                  match variations !! Z.to_nat selected_index with
                  | None => (w, Error 500 "SELECTION_ERROR")
                  | Some selected_avatar =>
                      let session :=
                        {| s_session_id := s_session_id session;
                           s_image_uuid := s_image_uuid session;
                           s_original_image_path := s_original_image_path session;
                           s_segmented_image := s_segmented_image session;
                           s_variations := s_variations session;
                           s_expressions := s_expressions session;
                           s_personality_file := s_personality_file session;
                           s_personality := s_personality session;
                           s_status := "processing_selection";
                           s_created_at := s_created_at session;
                           s_step := "generating_expressions";
                           s_md5 := s_md5 session;
                           s_auto_completed := s_auto_completed session;
                           s_variations_count := s_variations_count session;
                           s_selected_avatar := Some selected_avatar;
                           s_selected_index := Some selected_index;
                           s_completed_at := s_completed_at session |} in
                      let w := with_sessions w (<[session_id := session]> (user_sessions w)) in
                      let expressions :=
                        match generate_expressions e selected_avatar image_uuid with
                        | Ret expressions => expressions
                        | Raise _ => placeholder_expressions e image_uuid
                        end in
                      let personality :=
                        match generate_personality e selected_avatar image_uuid with
                        | Ret personality_result => personality_of_result personality_result
                        | Raise _ => default_personality
                        end in
                      let w :=
                        with_calls w [CallExpressions selected_avatar image_uuid;
                                      CallPersonality selected_avatar image_uuid] in
                      let session :=
                        {| s_session_id := s_session_id session;
                           s_image_uuid := s_image_uuid session;
                           s_original_image_path := s_original_image_path session;
                           s_segmented_image := s_segmented_image session;
                           s_variations := s_variations session;
                           s_expressions := Some expressions;
                           s_personality_file := s_personality_file session;
                           s_personality := Some personality;
                           s_status := "ready";
                           s_created_at := s_created_at session;
                           s_step := "preparation_complete";
                           s_md5 := s_md5 session;
                           s_auto_completed := s_auto_completed session;
                           s_variations_count := s_variations_count session;
                           s_selected_avatar := s_selected_avatar session;
                           s_selected_index := s_selected_index session;
                           s_completed_at := Some (now e) |} in
                      (with_sessions w (<[session_id := session]> (user_sessions w)),
                       AvatarSelected session_id selected_index selected_avatar
                         personality expressions)
                  end
            end
        end
  end.

(** ** Sample inputs for the examples *)

Module Samples.

(** An image service whose vendor call fails and whose disk refuses the
    placeholder images. *)
Definition failing_service : ImageService.service :=
  {| ImageService.cartoon_generation := ["anime"; "pixar"; "sketch"; "chibi"];
     ImageService._call_wanx_image_edit_async := λ _ _ _ _, Raise "task failed";
     ImageService.placeholder_saved := λ _, false |}.

(** An environment in which every collaborator delivers. *)
Definition working_env : env :=
  {| now := 1762000000;
     uuid4_session := "5d1f0c9e-0000-4000-8000-000000000001";
     uuid4_image := "b7a4e2d0-0000-4000-8000-000000000002";
     storage := ∅;
     load_json := λ _, Raise "no such file";
     segment_image := λ image_path, Ret ("temp/processing/segmented_" +:+ PyPath.name image_path);
     generate_cartoon_variations := λ _ image_uuid, Ret (required_variations image_uuid);
     generate_expressions := λ _ image_uuid,
       Ret {[ "happy" := "generated/expressions/" +:+ image_uuid +:+ "_happy.mp4" ]};
     generate_personality := λ _ _,
       Ret (PersonalityDict None (Some (JDict {[ "voice_tone" := JStr "lively" ]})));
     expression_emotions := ["happy"; "sad"; "surprised"] |}.

(** The environment of a later request: other uuids, a later clock. *)
Definition later_env : env :=
  {| now := 1762000600;
     uuid4_session := "5d1f0c9e-0000-4000-8000-000000000003";
     uuid4_image := "b7a4e2d0-0000-4000-8000-000000000004";
     storage := storage working_env;
     load_json := load_json working_env;
     segment_image := segment_image working_env;
     generate_cartoon_variations := generate_cartoon_variations working_env;
     generate_expressions := generate_expressions working_env;
     generate_personality := generate_personality working_env;
     expression_emotions := expression_emotions working_env |}.

(** The digests of the three contents the examples use: the empty file,
    the one byte [a], and anything else. *)
Definition sample_md5 (content : bytes) : string :=
  match content with
  | [] => "d41d8cd98f00b204e9800998ecf8427e"
  | [x61%byte] => "0cc175b9c0f1b6a831c399e269772661"
  | _ => "900150983cd24fb0d6963f7d28e17f72"
  end.

(** A session that has reached [ready] with its four variations. *)
Definition ready_session : session :=
  {| s_session_id := "5d1f0c9e-0000-4000-8000-000000000001";
     s_image_uuid := "a";
     s_original_image_path := "uploads/a.jpg";
     s_segmented_image := "temp/processing/segmented_a.jpg";
     s_variations := Some (required_variations "a");
     s_expressions := Some ∅;
     s_personality_file := None;
     s_personality := Some default_personality;
     s_status := "ready";
     s_created_at := 1761990000;
     s_step := "preparation_complete";
     s_md5 := "0cc175b9c0f1b6a831c399e269772661";
     s_auto_completed := None;
     s_variations_count := Some 4%nat;
     s_selected_avatar := Some "generated/avatars/a_variation_1.png";
     s_selected_index := Some 0%Z;
     s_completed_at := Some 1761990600%Z |}.

Definition ready_world : world :=
  {| user_sessions := {[ "5d1f0c9e-0000-4000-8000-000000000001" := ready_session ]};
     uploads := [("a.jpg", [x61%byte])];
     trace := [] |}.

End Samples.

(** Further samples: a store on which image [a] is complete. *)
Module MoreSamples.

(** A store that holds every file of image [a]. *)
Definition complete_storage : gset string :=
  list_to_set (required_variations "a" ++ required_expressions "a"
                 ++ [required_personality "a"]).

(** The working environment over that store. *)
Definition complete_env : env :=
  {| now := now Samples.working_env;
     uuid4_session := "5d1f0c9e-0000-4000-8000-000000000005";
     uuid4_image := "b7a4e2d0-0000-4000-8000-000000000006";
     storage := complete_storage;
     load_json := load_json Samples.working_env;
     segment_image := segment_image Samples.working_env;
     generate_cartoon_variations := generate_cartoon_variations Samples.working_env;
     generate_expressions := generate_expressions Samples.working_env;
     generate_personality := generate_personality Samples.working_env;
     expression_emotions := expression_emotions Samples.working_env |}.

End MoreSamples.

(** ** Truth value of a decoded document *)

(** [bool(v)]: [None], [False], zero, and the empty string, list and
    dictionary are false. *)
Definition py_truthy (v : json) : bool :=
  match v with
  | JNull => false
  | JBool b => b
  | JInt n => negb (n =? 0)%Z
  | JFloat (S754_zero _) => false
  | JFloat _ => true
  | JStr s => negb (bool_decide (s = ""))
  | JList l => negb (bool_decide (l = []))
  | JDict m => negb (bool_decide (size m = 0%nat))
  end.

(** [l[start:]] for any integer [start]. *)
Definition py_slice_from {A : Type} (start : Z) (l : list A) : list A :=
  if (start <? 0)%Z then drop (Z.to_nat (Z.of_nat (length l) + start)) l
  else drop (Z.to_nat start) l.

(** ** Chat sessions ([chat_service.py]) *)

Module ChatHistory.

Record message : Type := { role : string; content : string }.

Record chat_session : Type := {
  chat_history : list message;
  created_at : spec_float;
  last_activity : spec_float;
}.

(** The two fields of the service object the session methods use. *)
Record service : Type := {
  user_sessions : gmap string chat_session;
  personality_data : json;
}.

(** What the model's answer holds: a text, or some other value. *)
Inductive reply_content : Type :=
| ReplyText (text : string)
| ReplyOther (value : json).

(** What the session methods read from outside: the text
    [_setup_system_prompt] builds for a personality (it raises when
    [str.format] rejects the configured template), the uuid drawn for an
    unnamed session, the readings of [time.time()] (numbered by the place
    that takes them: the two of a new session, the one after a reply, the
    one of [get_session_info]), whether a message is blank once stripped,
    Python's text for a value that is not a string, the model call (raising,
    or answering with or without a choice), the opening of a streamed call,
    and the two regular-expression helpers applied to a reply. *)
Record env : Type := {
  _setup_system_prompt : json → result string;
  uuid4 : string;
  time_now : nat → spec_float;
  is_blank : string → bool;
  repr : json → string;
  generation_call : list message → result (option reply_content);
  stream_call : list message → result unit;
  _extract_emotion : string → string;
  _clean_reply_text : string → string;
}.

Definition with_session (sv : service) (session_id : string)
    (session : chat_session) : service :=
  {| user_sessions := <[session_id := session]> (user_sessions sv);
     personality_data := personality_data sv |}.

Definition set_history (session : chat_session) (history : list message)
    : chat_session :=
  {| chat_history := history;
     created_at := created_at session;
     last_activity := last_activity session |}.

(** [get_or_create_session]; [None] and the empty text are the falsy ids. *)
Definition get_or_create_session (e : env) (session_id : option string)
    (sv : service) : result string * service :=
  let given := default "" session_id in
  if negb (bool_decide (given = ""))
     && bool_decide (is_Some (user_sessions sv !! given)) then (Ret given, sv)
  else
    let new_session_id := if bool_decide (given = "") then uuid4 e else given in
    match _setup_system_prompt e (personality_data sv) with
    | Raise msg => (Raise msg, sv)
    | Ret system_prompt =>
        (Ret new_session_id,
         with_session sv new_session_id
           {| chat_history := [{| role := "system"; content := system_prompt |}];
              created_at := time_now e 0;
              last_activity := time_now e 1 |})
    end.

(** [_trim_chat_history].  Every caller passes the default limit of 20.
    (With a limit of 1 the slice [chat_history[-0:]] is the whole history,
    so that the system message is kept twice, as one object.) *)
Definition _trim_chat_history (session_id : string) (max_messages : Z)
    (sv : service) : service :=
  match user_sessions sv !! session_id with
  | None => sv
  | Some session =>
      let history := chat_history session in
      if (max_messages <? Z.of_nat (length history))%Z then
        let system_message :=
          match history with
          | first :: _ =>
              if bool_decide (role first = "system") then Some first else None
          | [] => None
          end in
        let recent_messages := py_slice_from (- (max_messages - 1)) history in
        match system_message with
        | Some system_message =>
            with_session sv session_id
              (set_history session (system_message :: recent_messages))
        | None => with_session sv session_id (set_history session recent_messages)
        end
      else sv
  end.

(** [get_chat_history]. *)
Definition get_chat_history (session_id : option string) (include_system : bool)
    (sv : service) : list message :=
  match session_id with
  | None => []
  | Some session_id =>
      if bool_decide (session_id = "") then []
      else
        match user_sessions sv !! session_id with
        | None => []
        | Some session =>
            if include_system then chat_history session
            else filter (λ msg, role msg ≠ "system") (chat_history session)
        end
  end.

(** [clear_chat_history].  In the branch that empties a history without a
    leading system message, the call to [get_or_create_session] that follows
    finds the session stored and returns at once. *)
Definition clear_chat_history (e : env) (session_id : option string)
    (sv : service) : service :=
  match session_id with
  | None =>
      {| user_sessions := ∅; personality_data := personality_data sv |}
  | Some session_id =>
      if bool_decide (session_id = "") then sv
      else
        match user_sessions sv !! session_id with
        | None => sv
        | Some session =>
            match chat_history session with
            | first :: _ =>
                if bool_decide (role first = "system") then
                  with_session sv session_id (set_history session [first])
                else
                  (get_or_create_session e (Some session_id)
                     (with_session sv session_id (set_history session []))).2
            | [] =>
                (get_or_create_session e (Some session_id)
                   (with_session sv session_id (set_history session []))).2
            end
        end
  end.

(** [update_personality_for_session]; every exception is logged and
    swallowed, what was stored before it stays. *)
Definition update_personality_for_session (e : env) (session_id : string)
    (new_personality : json) (sv : service) : service :=
  let '(target, sv) :=
    match user_sessions sv !! session_id with
    | Some _ => (Ret session_id, sv)
    | None => get_or_create_session e (Some session_id) sv
    end in
  match target with
  | Raise _ => sv
  | Ret session_id =>
      match _setup_system_prompt e new_personality with
      | Raise _ => sv
      | Ret new_system_prompt =>
          match user_sessions sv !! session_id with
          | None => sv
          | Some session =>
              match chat_history session with
              | first :: rest =>
                  if bool_decide (role first = "system") then
                    with_session sv session_id
                      (set_history session
                         ({| role := role first; content := new_system_prompt |} :: rest))
                  else
                    with_session sv session_id
                      (set_history session
                         ({| role := "system"; content := new_system_prompt |}
                            :: chat_history session))
              | [] =>
                  with_session sv session_id
                    (set_history session
                       [{| role := "system"; content := new_system_prompt |}])
              end
          end
      end
  end.

(** [get_session_info]: the creation time, the last activity, the number
    of messages less one, and whether the last activity is less than an hour
    before the clock's reading. *)
Definition get_session_info (e : env) (session_id : string) (sv : service)
    : option (string * spec_float * spec_float * Z * bool) :=
  match user_sessions sv !! session_id with
  | None => None
  | Some session =>
      Some (session_id, created_at session, last_activity session,
            (Z.of_nat (length (chat_history session)) - 1)%Z,
            SFltb (SFsub PyFloat.prec PyFloat.emax (time_now e 3)
                     (last_activity session))
                  (PyFloat.of_int 3600))
  end.

(** The [message_count] entry of [get_session_info]. *)
Definition message_count (e : env) (session_id : string) (sv : service)
    : option Z :=
  (λ info, info.1.2) <$> get_session_info e session_id sv.

(** [update_personality]: the validated profile becomes the service's
    personality. *)
Definition update_personality (e : env) (new_personality_data : json)
    (sv : service) : service :=
  {| user_sessions := user_sessions sv;
     personality_data :=
       JDict (ChatService._validate_personality_data (repr e) new_personality_data) |}.

(** What [process_message] answers, without the drawn [message_id] and the
    [timestamp]: the request to repeat a blank message, a reply with its
    emotion, the announcement of a streamed reply, or the apology that
    carries the exception's text. *)
Inductive chat_reply : Type :=
| NotHeard (session_id : option string)
| Replied (reply emotion session_id full_reply : string)
| Streaming (session_id : string)
| Failed (session_id : option string) (error : string).

Definition apology : string := "抱歉，我遇到了一些问题，请稍后再试。".

(** The stored session with one more message at the end of its history. *)
Definition append_message (session : chat_session) (msg : message)
    : chat_session :=
  set_history session (chat_history session ++ [msg]).

(** The assistant's message is stored, the activity time is read, and the
    history is trimmed to the default twenty messages. *)
Definition record_reply (e : env) (session_id : string) (session : chat_session)
    (ai_reply : string) (sv : service) : service :=
  _trim_chat_history session_id 20
    (with_session sv session_id
       {| chat_history :=
            chat_history session ++ [{| role := "assistant"; content := ai_reply |}];
          created_at := created_at session;
          last_activity := time_now e 2 |}).

(** [_process_normal_response]. *)
Definition _process_normal_response (e : env) (messages : list message)
    (session_id : string) (sv : service) : result chat_reply * service :=
  match generation_call e messages with
  | Raise msg => (Raise msg, sv)
  | Ret response =>
      let ai_reply :=
        match response with
        | Some (ReplyText text) => text
        | Some (ReplyOther value) =>
            if py_truthy value then repr e value else apology
        | None => apology
        end in
      match user_sessions sv !! session_id with
      | None => (Raise "KeyError", sv)
      | Some session =>
          (Ret (Replied (_clean_reply_text e ai_reply) (_extract_emotion e ai_reply)
                  session_id ai_reply),
           record_reply e session_id session ai_reply sv)
      end
  end.

(** [_process_stream_response]: when the streamed call cannot be opened the
    normal call is made instead. *)
Definition _process_stream_response (e : env) (messages : list message)
    (session_id : string) (sv : service) : result chat_reply * service :=
  match stream_call e messages with
  | Raise _ => _process_normal_response e messages session_id sv
  | Ret _ => (Ret (Streaming session_id), sv)
  end.

(** The generator a streamed reply hands out, run to its end over the
    responses the stream delivers ([None] for a response without a choice
    or without content): the pieces it yields and, when they make a
    non-empty text, the stored reply. *)
Definition stream_generator (e : env) (session_id : string)
    (responses : list (option string)) (sv : service)
    : list string * result service :=
  let yielded := filter (λ piece, piece ≠ "") (omap id responses) in
  let full_content := foldr String.append "" yielded in
  if bool_decide (full_content = "") then (yielded, Ret sv)
  else
    match user_sessions sv !! session_id with
    | None => (yielded, Raise "KeyError")
    | Some session =>
        (yielded, Ret (record_reply e session_id session full_content sv))
    end.

(** [process_message]. *)
Definition process_message (e : env) (message : string)
    (session_id : option string) (enable_stream : bool) (sv : service)
    : chat_reply * service :=
  if is_blank e message then (NotHeard session_id, sv)
  else
    match get_or_create_session e session_id sv with
    | (Raise msg, sv) => (Failed session_id msg, sv)
    | (Ret session_id, sv) =>
        match user_sessions sv !! session_id with
        | None => (Failed (Some session_id) "KeyError", sv)
        | Some session_data =>
            let user_message := {| role := "user"; content := message |} in
            let sv :=
              with_session sv session_id (append_message session_data user_message) in
            let messages := chat_history session_data ++ [user_message] in
            match
              (if enable_stream
               then _process_stream_response e messages session_id sv
               else _process_normal_response e messages session_id sv)
            with
            | (Raise msg, sv) => (Failed (Some session_id) msg, sv)
            | (Ret reply, sv) => (reply, sv)
            end
        end
    end.

(** One call on the service, with the environment it runs in. *)
Inductive operation : Type :=
| GetOrCreateSession (e : env) (session_id : option string)
| ProcessMessage (e : env) (message : string) (session_id : option string)
    (enable_stream : bool)
| FinishStream (e : env) (session_id : string) (responses : list (option string))
| UpdatePersonalityForSession (e : env) (session_id : string) (personality : json)
| UpdatePersonality (e : env) (personality : json)
| ClearChatHistory (e : env) (session_id : option string).

Definition perform (sv : service) (op : operation) : service :=
  match op with
  | GetOrCreateSession e session_id => (get_or_create_session e session_id sv).2
  | ProcessMessage e message session_id enable_stream =>
      (process_message e message session_id enable_stream sv).2
  | FinishStream e session_id responses =>
      match (stream_generator e session_id responses sv).2 with
      | Ret sv' => sv'
      | Raise _ => sv
      end
  | UpdatePersonalityForSession e session_id personality =>
      update_personality_for_session e session_id personality sv
  | UpdatePersonality e personality => update_personality e personality sv
  | ClearChatHistory e session_id => clear_chat_history e session_id sv
  end.

(** The service as [__init__] leaves it. *)
Definition initial (personality_data : json) : service :=
  {| user_sessions := ∅;
     personality_data :=
       if py_truthy personality_data then personality_data else JDict ∅ |}.

(** A history that opens with the system message and holds no other. *)
Definition system_first (history : list message) : Prop :=
  match history with
  | first :: rest =>
      role first = "system" ∧ Forall (λ msg, role msg ≠ "system") rest
  | [] => False
  end.

(** Every stored session has such a history. *)
Definition sessions_system_first (sv : service) : Prop :=
  map_Forall (λ _ session, system_first (chat_history session)) (user_sessions sv).

End ChatHistory.

(** Sample conversations, used to instantiate the statements about the
    chat sessions. *)
Module ChatSamples.

(** A model that always answers with the same tagged text. *)
Definition talking_env : ChatHistory.env :=
  {| ChatHistory._setup_system_prompt := λ _, Ret "You are a friendly avatar.";
     ChatHistory.uuid4 := "0a1b2c3d-0000-4000-8000-00000000000a";
     ChatHistory.time_now := λ n, PyFloat.of_int (1700000000 + Z.of_nat n);
     ChatHistory.is_blank := λ text, bool_decide (text = "");
     ChatHistory.repr := λ _, "None";
     ChatHistory.generation_call :=
       λ _, Ret (Some (ChatHistory.ReplyText "Hello! [EMOTION: happy]"));
     ChatHistory.stream_call := λ _, Ret tt;
     ChatHistory._extract_emotion := λ _, "happy";
     ChatHistory._clean_reply_text := λ _, "Hello!" |}.

(** The same, with a model call that raises. *)
Definition silent_env : ChatHistory.env :=
  {| ChatHistory._setup_system_prompt := ChatHistory._setup_system_prompt talking_env;
     ChatHistory.uuid4 := ChatHistory.uuid4 talking_env;
     ChatHistory.time_now := ChatHistory.time_now talking_env;
     ChatHistory.is_blank := ChatHistory.is_blank talking_env;
     ChatHistory.repr := ChatHistory.repr talking_env;
     ChatHistory.generation_call := λ _, Raise "connection reset";
     ChatHistory.stream_call := λ _, Raise "connection reset";
     ChatHistory._extract_emotion := ChatHistory._extract_emotion talking_env;
     ChatHistory._clean_reply_text := ChatHistory._clean_reply_text talking_env |}.

Definition greeted_session : ChatHistory.chat_session :=
  {| ChatHistory.chat_history :=
       [ {| ChatHistory.role := "system";
            ChatHistory.content := "You are a friendly avatar." |};
         {| ChatHistory.role := "user"; ChatHistory.content := "hi" |};
         {| ChatHistory.role := "assistant";
            ChatHistory.content := "Hello! [EMOTION: happy]" |} ];
     ChatHistory.created_at := PyFloat.of_int 1700000000;
     ChatHistory.last_activity := PyFloat.of_int 1700000002 |}.

Definition greeted_service : ChatHistory.service :=
  {| ChatHistory.user_sessions := {[ "s1" := greeted_session ]};
     ChatHistory.personality_data := JNull |}.

End ChatSamples.

(** ** Splitting a text for synthesis ([voice_service.py]) *)

Module VoiceService.

(** A text is the sequence of its code points.  [c.isspace()] holds of the
    characters [str.strip] removes. *)
Definition isspace (c : N) : bool :=
  ((9 <=? c) && (c <=? 13) || (28 <=? c) && (c <=? 32) || (c =? 133) || (c =? 160)
   || (c =? 5760) || (8192 <=? c) && (c <=? 8202) || (c =? 8232) || (c =? 8233)
   || (c =? 8239) || (c =? 8287) || (c =? 12288))%N.

Fixpoint lstrip (text : list N) : list N :=
  match text with
  | c :: rest => if isspace c then lstrip rest else text
  | [] => []
  end.

(** [text.strip()]. *)
Definition strip (text : list N) : list N :=
  reverse (lstrip (reverse (lstrip text))).

(** [text.replace(old, new)] for a single character [old]. *)
Definition replace (old : N) (new : list N) (text : list N) : list N :=
  c ← text; if (c =? old)%N then new else [c].

(** [text.split(sep)] for a single character [sep]. *)
Fixpoint split (sep : N) (text : list N) : list (list N) :=
  match text with
  | [] => [[]]
  | c :: rest =>
      if (c =? sep)%N then [] :: split sep rest
      else match split sep rest with
           | [] => [[c]]
           | piece :: pieces => (c :: piece) :: pieces
           end
  end.

Definition newline : N := 10.
(** The ideographic full stop and the full-width exclamation and question
    marks. *)
Definition full_stop : N := 12290.
Definition exclamation_mark : N := 65281.
Definition question_mark : N := 65311.

(** [range(0, stop, step)] for a positive [step]. *)
Definition range_by (stop step : nat) : list nat :=
  (λ j, j * step)%nat <$> seq 0 ((stop + step - 1) / step).

(** One turn of the loop over the sentences, on the pair of the chunks
    saved so far and the current chunk.  [range] raises on a step of zero
    and is empty on a negative one. *)
Definition split_step (max_chunk_size : Z)
    (state : result (list (list N) * list N)) (sentence : list N)
    : result (list (list N) * list N) :=
  match state with
  | Raise msg => Raise msg
  | Ret (chunks, current_chunk) =>
      let sentence := strip sentence in
      if bool_decide (sentence = []) then Ret (chunks, current_chunk)
      else if (Z.of_nat (length current_chunk) + Z.of_nat (length sentence)
               <=? max_chunk_size)%Z
      then Ret (chunks, current_chunk ++ sentence)
      else
        let chunks :=
          if bool_decide (current_chunk = []) then chunks
          else chunks ++ [current_chunk] in
        if (max_chunk_size <? Z.of_nat (length sentence))%Z then
          if (max_chunk_size =? 0)%Z then Raise "range() arg 3 must not be zero"
          else if (max_chunk_size <? 0)%Z then Ret (chunks, [])
          else
            Ret (chunks ++
                   ((λ i, take (Z.to_nat max_chunk_size) (drop i sentence))
                      <$> range_by (length sentence) (Z.to_nat max_chunk_size)),
                 [])
        else Ret (chunks, sentence)
  end.

Definition _split_text_for_synthesis (text : list N) (max_chunk_size : Z)
    : result (list (list N)) :=
  if (Z.of_nat (length text) <=? max_chunk_size)%Z then Ret [text]
  else
    let sentences :=
      split newline
        (replace question_mark [question_mark; newline]
           (replace exclamation_mark [exclamation_mark; newline]
              (replace full_stop [full_stop; newline] text))) in
    match foldl (split_step max_chunk_size) (Ret ([], [])) sentences with
    | Raise msg => Raise msg
    | Ret (chunks, current_chunk) =>
        Ret (if bool_decide (current_chunk = []) then chunks
             else chunks ++ [current_chunk])
    end.

End VoiceService.

(** A sample text: two sentences, a blank line, and a question. *)
Module VoiceSamples.

Definition sample_text : list N :=
  [97; 98; 12290; 32; 99; 100; 101; 102; 103; 65281; 10; 10; 104; 32; 105;
   65311; 106]%N.

End VoiceSamples.

(** ** The configuration loader ([config/config_loader.py]) *)

(** Sequencing of calls that may raise. *)
Global Instance result_bind : MBind result :=
  λ A B f r, match r with Ret a => f a | Raise msg => Raise msg end.

(** [key in container] for a text [key]: a key of a dictionary, an element
    of a list, a part of a string; any other value raises a [TypeError],
    whose text [type_error] gives. *)
Definition py_in (type_error : string → json → string) (key : string)
    (container : json) : result bool :=
  match container with
  | JDict m => Ret (bool_decide (is_Some (m !! key)))
  | JList l =>
      Ret (existsb (λ v, match v with
                         | JStr s => bool_decide (s = key)
                         | _ => false
                         end) l)
  | JStr s => Ret (bool_decide (is_Some (String.index 0 key s)))
  | _ => Raise (type_error "in" container)
  end.

(** [container[key]] for a text [key]: only a dictionary has one, and a
    missing key raises a [KeyError] whose text is the quoted key. *)
Definition py_getitem (type_error : string → json → string) (container : json)
    (key : string) : result json :=
  match container with
  | JDict m =>
      match m !! key with
      | Some v => Ret v
      | None => Raise ("'" +:+ key +:+ "'")
      end
  | _ => Raise (type_error "getitem" container)
  end.

(** A [for] loop whose body may raise. *)
Fixpoint for_each {A : Type} (body : A → result unit) (l : list A) : result unit :=
  match l with
  | [] => Ret ()
  | x :: rest => _ ← body x; for_each body rest
  end.

Module ConfigLoader.

Definition _validate_keys_config (type_error : string → json → string)
    (config : json) : result unit :=
  _ ← for_each
        (λ section,
           present ← py_in type_error section config;
           if (present : bool) then Ret ()
           else Raise ("Missing required section in keys config: " +:+ section))
        ["alibaba_cloud"; "dashscope"];
  alibaba_config ← py_getitem type_error config "alibaba_cloud";
  _ ← for_each
        (λ key,
           present ← py_in type_error key alibaba_config;
           if negb present
           then Raise ("Missing or empty Alibaba Cloud key: " +:+ key)
           else
             value ← py_getitem type_error alibaba_config key;
             if py_truthy value then Ret ()
             else Raise ("Missing or empty Alibaba Cloud key: " +:+ key))
        ["access_key_id"; "access_key_secret"; "region"];
  dashscope_config ← py_getitem type_error config "dashscope";
  present ← py_in type_error "api_key" dashscope_config;
  if negb present then Raise "Missing or empty DashScope API key"
  else
    value ← py_getitem type_error dashscope_config "api_key";
    if py_truthy value then Ret ()
    else Raise "Missing or empty DashScope API key".

Definition _validate_prompts_config (type_error : string → json → string)
    (config : json) : result unit :=
  _ ← for_each
        (λ section,
           present ← py_in type_error section config;
           if (present : bool) then Ret ()
           else Raise ("Missing required section in prompts config: " +:+ section))
        ["cartoon_generation"; "expressions"; "personality_generation";
         "chat_system"];
  cartoon_generation ← py_getitem type_error config "cartoon_generation";
  _ ← match cartoon_generation with
      | JList prompts =>
          if bool_decide (length prompts < 4)%nat
          then Raise "cartoon_generation must be a list with at least 4 prompts"
          else Ret ()
      | _ => Raise "cartoon_generation must be a list with at least 4 prompts"
      end;
  expressions ← py_getitem type_error config "expressions";
  _ ← for_each
        (λ expression,
           present ← py_in type_error expression expressions;
           if negb present
           then Raise ("Missing or empty expression prompt: " +:+ expression)
           else
             value ← py_getitem type_error expressions expression;
             if py_truthy value then Ret ()
             else Raise ("Missing or empty expression prompt: " +:+ expression))
        ["happy"; "sad"; "surprised"];
  personality_generation ← py_getitem type_error config "personality_generation";
  if negb (py_truthy personality_generation)
  then Raise "personality_generation prompt cannot be empty"
  else
    chat_system ← py_getitem type_error config "chat_system";
    if negb (py_truthy chat_system)
    then Raise "chat_system prompt cannot be empty"
    else Ret ().

(** What reading a configuration file comes to: no such file, a file that
    [json.load] rejects, a file that cannot be opened or read, or the
    decoded document. *)
Inductive read_outcome : Type :=
| FileMissing
| JSONDecodeError (msg : string)
| ReadError (msg : string)
| Decoded (config : json).

(** The two caches of the loader. *)
Record loader : Type := {
  _keys_config : option json;
  _prompts_config : option json;
}.

(** The loader as [__init__] leaves it. *)
Definition initial : loader :=
  {| _keys_config := None; _prompts_config := None |}.

(** [load_keys], given the text of the file's path and what reading the
    file comes to. *)
Definition load_keys (type_error : string → json → string) (keys_file : string)
    (read : read_outcome) (ld : loader) : result json * loader :=
  match _keys_config ld with
  | Some keys_config => (Ret keys_config, ld)
  | None =>
      match read with
      | FileMissing => (Raise ("API keys file not found: " +:+ keys_file), ld)
      | JSONDecodeError msg => (Raise ("Invalid JSON in keys file: " +:+ msg), ld)
      | ReadError msg => (Raise ("Error loading keys file: " +:+ msg), ld)
      | Decoded keys_config =>
          match _validate_keys_config type_error keys_config with
          | Raise msg => (Raise ("Error loading keys file: " +:+ msg), ld)
          | Ret _ =>
              (Ret keys_config,
               {| _keys_config := Some keys_config;
                  _prompts_config := _prompts_config ld |})
          end
      end
  end.

(** [load_prompts]. *)
Definition load_prompts (type_error : string → json → string)
    (prompts_file : string) (read : read_outcome) (ld : loader)
    : result json * loader :=
  match _prompts_config ld with
  | Some prompts_config => (Ret prompts_config, ld)
  | None =>
      match read with
      | FileMissing => (Raise ("Prompts file not found: " +:+ prompts_file), ld)
      | JSONDecodeError msg => (Raise ("Invalid JSON in prompts file: " +:+ msg), ld)
      | ReadError msg => (Raise ("Error loading prompts file: " +:+ msg), ld)
      | Decoded prompts_config =>
          match _validate_prompts_config type_error prompts_config with
          | Raise msg => (Raise ("Error loading prompts file: " +:+ msg), ld)
          | Ret _ =>
              (Ret prompts_config,
               {| _keys_config := _keys_config ld;
                  _prompts_config := Some prompts_config |})
          end
      end
  end.

(** A getter: the loaded configuration, then the entries named. *)
Definition get (type_error : string → json → string)
    (loaded : result json * loader) (path : list string) : result json * loader :=
  (config ← loaded.1;
   foldl (λ value key, container ← value; py_getitem type_error container key)
         (Ret config) path,
   loaded.2).

Definition get_alibaba_config type_error keys_file read ld :=
  get type_error (load_keys type_error keys_file read ld) ["alibaba_cloud"].

Definition get_dashscope_key type_error keys_file read ld :=
  get type_error (load_keys type_error keys_file read ld) ["dashscope"; "api_key"].

Definition get_cartoon_prompts type_error prompts_file read ld :=
  get type_error (load_prompts type_error prompts_file read ld) ["cartoon_generation"].

Definition get_expression_prompts type_error prompts_file read ld :=
  get type_error (load_prompts type_error prompts_file read ld) ["expressions"].

Definition get_personality_prompt type_error prompts_file read ld :=
  get type_error (load_prompts type_error prompts_file read ld)
    ["personality_generation"].

Definition get_chat_system_prompt type_error prompts_file read ld :=
  get type_error (load_prompts type_error prompts_file read ld) ["chat_system"].

(** A prompts document in the shape the validation asks for. *)
Definition valid_prompts (config : json) : Prop :=
  ∃ (m expressions : gmap string json) (prompts : list json)
    (personality_generation chat_system : json),
    config = JDict m ∧
    m !! "cartoon_generation" = Some (JList prompts) ∧ (4 ≤ length prompts)%nat ∧
    m !! "expressions" = Some (JDict expressions) ∧
    (∀ expression, expression ∈ ["happy"; "sad"; "surprised"] →
       ∃ prompt, expressions !! expression = Some prompt ∧ py_truthy prompt = true) ∧
    m !! "personality_generation" = Some personality_generation ∧
    py_truthy personality_generation = true ∧
    m !! "chat_system" = Some chat_system ∧
    py_truthy chat_system = true.

End ConfigLoader.

(** Sample configuration documents. *)
Module ConfigSamples.

Definition type_error (operation : string) (value : json) : string :=
  "unsupported operand for " +:+ operation.

Definition sample_prompts : json :=
  JDict {[ "cartoon_generation" :=
             JList [JStr "anime"; JStr "pixar"; JStr "sketch"; JStr "chibi"];
           "expressions" :=
             JDict {[ "happy" := JStr "smiles";
                      "sad" := JStr "looks down";
                      "surprised" := JStr "raises the eyebrows" ]};
           "personality_generation" := JStr "Describe the character.";
           "chat_system" := JStr "You are {personality}." ]}.

Definition sample_keys : json :=
  JDict {[ "alibaba_cloud" :=
             JDict {[ "access_key_id" := JStr "id";
                      "access_key_secret" := JStr "secret";
                      "region" := JStr "cn-shanghai" ]};
           "dashscope" := JDict {[ "api_key" := JStr "sk-sample" ]} ]}.

End ConfigSamples.

(** ** Readiness of a session and its cleanup ([app.py]) *)

(** The answer of [get_preparation_status_general] for a session it could
    examine.  The [message] and [redirect_to] entries follow [is_ready]. *)
Record readiness : Type := {
  r_is_ready : bool;
  r_session_id : string;
  r_status : string;
  r_step : string;
  r_completion_percentage : Z;
  r_files_ready : bool;
  r_personality_ready : bool;
  r_image_uuid : string;
  r_missing_files : list string;
}.

(** What the handler answers, always with HTTP status 200: that there is
    nothing to examine, the readiness of a session, or that the check
    itself failed. *)
Inductive status_response : Type :=
| NotReady (message : string)
| Readiness (r : readiness)
| StatusCheckFailed (error_message : string).

Definition redirect_to (response : status_response) : string :=
  match response with
  | Readiness r => if r_is_ready r then "/chat" else "/"
  | _ => "/"
  end.

(** [max(keys, key=lambda k: user_sessions[k].get('created_at', 0))], with
    [keys] the keys of the dictionary in the order it enumerates them: the
    first key among those with the greatest creation time. *)
Fixpoint max_created_at (sessions : gmap string session)
    (best : string * Z) (keys : list string) : result string :=
  match keys with
  | [] => Ret best.1
  | k :: rest =>
      match sessions !! k with
      | None => Raise ("'" +:+ k +:+ "'")
      | Some s =>
          if (best.2 <? s_created_at s)%Z
          then max_created_at sessions (k, s_created_at s) rest
          else max_created_at sessions best rest
      end
  end.

Definition latest_session (sessions : gmap string session) (keys : list string)
    : result string :=
  match keys with
  | [] => Raise "max() arg is an empty sequence"
  | k :: rest =>
      match sessions !! k with
      | None => Raise ("'" +:+ k +:+ "'")
      | Some s => max_created_at sessions (k, s_created_at s) rest
      end
  end.

(** The examination of the stored personality: whether the session stays
    ready, which is also the [personality_ready] entry. *)
Definition personality_ready (type_error : string → json → string)
    (session : session) : result bool :=
  let personality := default (JDict ∅) (s_personality session) in
  if negb (py_truthy personality) then Ret false
  else
    has_error ← py_in type_error "error" personality;
    if (has_error : bool) then Ret false
    else
      match personality with
      | JDict m =>
          Ret (forallb (λ field, bool_decide (is_Some (m !! field)))
                 ["personality"; "habits"; "voice_tone"])
      | _ => Ret false
      end.

(** The part of the handler that examines the session found.  The keys of
    the missing groups are listed in the order the check inserts them. *)
Definition examine_session (type_error : string → json → string) (e : env)
    (session_id : string) (session : session) : status_response :=
  let image_uuid := s_image_uuid session in
  let original_image_path := s_original_image_path session in
  if bool_decide (image_uuid = "") || bool_decide (original_image_path = "")
  then NotReady "会话数据不完整"
  else
    let '(is_ready, completion_percentage, files_ready, missing_files) :=
      match check_preparation_completeness (storage e) image_uuid
              original_image_path with
      | Some (missing_files, completion_percentage) =>
          (bool_decide (size missing_files = 0%nat), completion_percentage,
           bool_decide (size missing_files = 0%nat),
           filter (λ group, is_Some (missing_files !! group))
             ["variations"; "expressions"; "personality"])
      | None => (false, 0%Z, false, ["check_failed"])
      end in
    match (if is_ready then personality_ready type_error session else Ret false) with
    | Raise msg => StatusCheckFailed msg
    | Ret personality_valid =>
        Readiness
          {| r_is_ready := is_ready && personality_valid;
             r_session_id := session_id;
             r_status := s_status session;
             r_step := s_step session;
             r_completion_percentage := completion_percentage;
             r_files_ready := files_ready;
             r_personality_ready := personality_valid;
             r_image_uuid := image_uuid;
             r_missing_files := missing_files |}
    end.

(** [get_preparation_status_general]; [session_id] is the query argument,
    [keys] the keys of [user_sessions] in the order the dictionary
    enumerates them. *)
Definition get_preparation_status_general (type_error : string → json → string)
    (e : env) (keys : list string) (session_id : option string) (w : world)
    : status_response :=
  let chosen : result (option string) :=
    if bool_decide (default "" session_id = "") then
      if bool_decide (size (user_sessions w) = 0%nat) then Ret None
      else latest ← latest_session (user_sessions w) keys; Ret (Some latest)
    else Ret session_id in
  match chosen with
  | Raise msg => StatusCheckFailed msg
  | Ret None => NotReady "没有活跃的会话"
  | Ret (Some session_id) =>
      match user_sessions w !! session_id with
      | None => NotReady "会话不存在"
      | Some session => examine_session type_error e session_id session
      end
  end.

(** What [cleanup_session] answers. *)
Inductive cleanup_response : Type :=
| SessionNotFound
| SessionCleaned (session_id : string).

(** [cleanup_session]; what the voice service removes is outside the
    state modelled here, and its failure is only logged. *)
Definition cleanup_session (session_id : string) (w : world)
    : world * cleanup_response :=
  match user_sessions w !! session_id with
  | None => (w, SessionNotFound)
  | Some _ =>
      (with_sessions w (delete session_id (user_sessions w)),
       SessionCleaned session_id)
  end.

(** ** The vendor tasks behind the generators ([image_service.py]) *)

Module ImageGeneration.

(** What submitting the editing task comes to: an exception, a response
    whose status is not OK (with the text of the exception then raised), or
    an accepted task. *)
Inductive submitted : Type :=
| SubmitRaises (msg : string)
| SubmitRejected (msg : string)
| SubmitAccepted.

(** What one status query comes to: an exception, a response whose status
    is not OK, or the task status with the url of the first result, if the
    response holds one. *)
Inductive fetched : Type :=
| FetchRaises (msg : string)
| FetchRejected (msg : string)
| FetchStatus (task_status : string) (result_url : option string).

(** What a download comes to: an exception, or an HTTP status with the
    content. *)
Inductive downloaded : Type :=
| DownloadRaises (msg : string)
| Downloaded (status_code : Z) (content : list Byte.byte).

(** The outside of one editing task: the submission of an image with its
    prompt, the successive status queries, the download of a url, and the
    writing of a file ([None] when it succeeds, else the exception's
    text). *)
Record vendor : Type := {
  submit : string → string → submitted;
  fetch : nat → fetched;
  download : string → downloaded;
  save : string → option string;
}.

(** The polling loop: [waited_time] grows by the check interval of 10 while
    it is below the maximal wait of 300.  The loop hands back the waited
    time and the result url of the last response, with the number of
    queries made. *)
Equations poll (fetch : nat → fetched) (waited_time : Z) (fetches : nat)
    : result (Z * option string) * nat
    by wf (Z.to_nat (300 - waited_time)) lt :=
  poll fetch waited_time fetches with decide (waited_time < 300)%Z := {
    | right _ => (Ret (waited_time, None), fetches)
    | left _ with fetch fetches := {
      | FetchRaises msg => (Raise msg, S fetches)
      | FetchRejected msg => (Raise msg, S fetches)
      | FetchStatus task_status result_url
          with decide (task_status = "SUCCEEDED") := {
        | left _ => (Ret (waited_time, result_url), S fetches)
        | right _ with decide (task_status = "FAILED") := {
          | left _ => (Raise "任务执行失败", S fetches)
          | right _ with decide (task_status ∈ ["PENDING"; "RUNNING"]) := {
            | left _ => poll fetch (waited_time + 10) (S fetches)
            | right _ =>
                (Raise ("未知任务状态: " +:+ task_status), S fetches) } } } } }.
Next Obligation. lia. Qed.

(** A status query that makes the loop wait and ask again. *)
Definition pending (response : fetched) : Prop :=
  ∃ task_status result_url,
    response = FetchStatus task_status result_url ∧
    task_status ∈ ["PENDING"; "RUNNING"].

(** The download of a result and its two copies, shared by the image and
    the video tasks: the path of the copy under [generated/].  The text of
    [directory / filename] is the two joined by a separator, the file name
    being built from a uuid and holding none. *)
Definition fetch_result (download : string → downloaded)
    (save : string → option string) (failure : string)
    (url directory static_directory filename : string) : result string :=
  match download url with
  | DownloadRaises msg => Raise msg
  | Downloaded status_code _ =>
      if bool_decide (status_code ≠ 200%Z)
      then Raise (failure +:+ pretty status_code)
      else
        let file_path := directory +:+ "/" +:+ filename in
        match save file_path with
        | Some msg => Raise msg
        | None =>
            match save (static_directory +:+ "/" +:+ filename) with
            | Some msg => Raise msg
            | None => Ret file_path
            end
        end
  end.

(** [_call_wanx_image_edit_async], with the number of status queries it
    made. *)
Definition _call_wanx_image_edit_async (v : vendor)
    (image_path prompt image_uuid variation_name : string) : result string * nat :=
  match submit v image_path prompt with
  | SubmitRaises msg => (Raise msg, 0%nat)
  | SubmitRejected msg => (Raise msg, 0%nat)
  | SubmitAccepted =>
      match poll (fetch v) 0 0 with
      | (Raise msg, fetches) => (Raise msg, fetches)
      | (Ret (waited_time, result_url), fetches) =>
          if bool_decide (300 ≤ waited_time)%Z then (Raise "任务超时", fetches)
          else
            match result_url with
            | None => (Raise "API返回空结果", fetches)
            | Some image_url =>
                (fetch_result (download v) (save v) "下载生成图像失败: " image_url
                   "generated/avatars" "static/avatars"
                   (image_uuid +:+ "_" +:+ variation_name +:+ ".png"),
                 fetches)
            end
      end
  end.

(** The image service whose editing task for a variation is run against
    the vendor [vendors] gives for its name. *)
Definition service_of (prompts : list string) (vendors : string → vendor)
    (placeholder_saved : string → bool) : ImageService.service :=
  {| ImageService.cartoon_generation := prompts;
     ImageService._call_wanx_image_edit_async :=
       λ image_path prompt image_uuid variation_name,
         (_call_wanx_image_edit_async (vendors variation_name) image_path prompt
            image_uuid variation_name).1;
     ImageService.placeholder_saved := placeholder_saved |}.

(** What the video synthesis call comes to: an exception, a response
    whose status is not OK, a response without a video url, or the url. *)
Inductive synthesized : Type :=
| SynthesisRaises (msg : string)
| SynthesisRejected (msg : string)
| SynthesisEmpty
| SynthesisVideo (video_url : string).

Record video_vendor : Type := {
  synthesize : string → string → synthesized;
  download_video : string → downloaded;
  save_video : string → option string;
}.

(** [_call_image_to_video]. *)
Definition _call_image_to_video (v : video_vendor)
    (image_path prompt image_uuid emotion : string) : result string :=
  match synthesize v image_path prompt with
  | SynthesisRaises msg => Raise msg
  | SynthesisRejected msg => Raise msg
  | SynthesisEmpty => Raise "API返回空视频URL"
  | SynthesisVideo video_url =>
      fetch_result (download_video v) (save_video v) "下载生成视频失败: " video_url
        "generated/expressions" "static/expressions"
        (image_uuid +:+ "_" +:+ emotion +:+ ".mp4")
  end.

(** [_create_placeholder_video]: a path only, no file is written. *)
Definition _create_placeholder_video (image_uuid emotion : string) : string :=
  "generated/expressions" +:+ "/" +:+ (image_uuid +:+ "_" +:+ emotion +:+ "_placeholder.mp4").

(** [generate_expressions] over the configured prompts: one entry per
    emotion, the generated video or else the placeholder. *)
Definition generate_expressions (expression_prompts : gmap string string)
    (vendors : string → video_vendor) (avatar_path image_uuid : string)
    : gmap string string :=
  map_imap
    (λ emotion prompt,
       Some match _call_image_to_video (vendors emotion) avatar_path prompt
                    image_uuid emotion with
            | Ret video_path => video_path
            | Raise _ => _create_placeholder_video image_uuid emotion
            end)
    expression_prompts.

(** [ChatService.select_expression_video], over the paths that exist. *)
Definition select_expression_video (available_emotions : list string)
    (fs : gset string) (emotion image_uuid : string) : option string :=
  let emotion :=
    if bool_decide (emotion ∈ available_emotions) then emotion else "happy" in
  let video_filename := image_uuid +:+ "_" +:+ emotion +:+ ".mp4" in
  let video_path := "generated/expressions" +:+ "/" +:+ video_filename in
  if bool_decide (video_path ∈ fs) then Some video_path
  else
    let static_video_path := "static/expressions" +:+ "/" +:+ video_filename in
    if bool_decide (static_video_path ∈ fs) then Some static_video_path
    else
      let generic_video_path :=
        "static/expressions" +:+ "/" +:+ ("default_" +:+ emotion +:+ ".mp4") in
      if bool_decide (generic_video_path ∈ fs) then Some generic_video_path
      else None.

End ImageGeneration.

(** Sample vendors: an editing task that succeeds at the third query, and
    a video task that succeeds. *)
Module ImageSamples.

Definition quick_vendor : ImageGeneration.vendor :=
  {| ImageGeneration.submit := λ _ _, ImageGeneration.SubmitAccepted;
     ImageGeneration.fetch :=
       λ n, if bool_decide (n < 2)%nat
            then ImageGeneration.FetchStatus "RUNNING" None
            else ImageGeneration.FetchStatus "SUCCEEDED"
                   (Some "https://vendor.example/result.png");
     ImageGeneration.download := λ _, ImageGeneration.Downloaded 200 [];
     ImageGeneration.save := λ _, None |}.

Definition smiling_vendor : ImageGeneration.video_vendor :=
  {| ImageGeneration.synthesize :=
       λ _ _, ImageGeneration.SynthesisVideo "https://vendor.example/happy.mp4";
     ImageGeneration.download_video := λ _, ImageGeneration.Downloaded 200 [];
     ImageGeneration.save_video := λ _, None |}.

End ImageSamples.

(** A repair in which the first editing task is refused and no
    placeholder can be written, while the three other tasks succeed. *)
Module RepairSamples.

Definition refusing_vendor : ImageGeneration.vendor :=
  {| ImageGeneration.submit :=
       λ _ _, ImageGeneration.SubmitRejected "异步调用失败 - 状态码: 429";
     ImageGeneration.fetch := ImageGeneration.fetch ImageSamples.quick_vendor;
     ImageGeneration.download := ImageGeneration.download ImageSamples.quick_vendor;
     ImageGeneration.save := ImageGeneration.save ImageSamples.quick_vendor |}.

Definition vendors (variation_name : string) : ImageGeneration.vendor :=
  if bool_decide (variation_name = "variation_1") then refusing_vendor
  else ImageSamples.quick_vendor.



End RepairSamples.

(** * Properties *)

(** ** The completeness check *)

Section Completeness.

Context (fs : gset string) (image_uuid original_image_path : string).

Lemma completion_percentage_values :
  completion_percentage 3 3 = Some 100%Z ∧
  completion_percentage 2 3 = Some 66%Z ∧
  completion_percentage 1 3 = Some 33%Z ∧
  completion_percentage 0 3 = Some 0%Z.
Proof. repeat split; vm_compute; reflexivity. Qed.

Lemma absent_paths_nil (paths : list string) :
  absent_paths fs paths = [] ↔ ∀ p, p ∈ paths → p ∈ fs.
Proof.
  unfold absent_paths. induction paths as [|q paths IH]; simpl.
  - split; [intros _ p Hp; inversion Hp | reflexivity].
  - rewrite filter_cons. destruct (decide (q ∉ fs)) as [Hq|Hq].
    + split; [discriminate|]. intros H. exfalso. apply Hq, H. left.
    + apply dec_stable in Hq. rewrite IH. split.
      * intros H p Hp. apply elem_of_cons in Hp as [->|Hp]; auto.
      * intros H p Hp. apply H. by right.
Qed.

Lemma absent_paths_cons_iff (paths : list string) :
  absent_paths fs paths ≠ [] ↔ ∃ p, p ∈ paths ∧ p ∉ fs.
Proof.
  split.
  - intros Hne. destruct (absent_paths fs paths) as [|p l] eqn:E; [done|].
    assert (Hp : p ∈ filter (λ p, p ∉ fs) paths).
    { unfold absent_paths in E. rewrite E. left. }
    apply list_elem_of_filter in Hp as [Hn Hp]. eauto.
  - intros (p & Hp & Hn) E. apply Hn. by apply (proj1 (absent_paths_nil paths) E).
Qed.

(** The percentage for each possible number of missing groups. *)
Lemma completion_percentage_of_size (n : nat) :
  (n ≤ 3)%nat →
  completion_percentage (3 - Z.of_nat n) 3 =
    Some (match n with
          | 0%nat => 100%Z
          | 1%nat => 66%Z
          | 2%nat => 33%Z
          | _ => 0%Z
          end).
Proof.
  intros Hn. destruct n as [|[|[|[|n]]]]; try lia; vm_compute; reflexivity.
Qed.

Local Ltac report_size :=
  rewrite ?map_size_insert_None
    by (rewrite ?lookup_insert_ne by done; apply lookup_empty);
  rewrite map_size_empty.

(** The check always returns, and its report is one of eight maps. *)
Lemma check_preparation_completeness_unfold :
  ∃ pct,
    check_preparation_completeness fs image_uuid original_image_path =
      Some
        ((if bool_decide (required_personality image_uuid ∈ fs) then id
          else <["personality" := MissingPath (required_personality image_uuid)]>)
         ((match absent_paths fs (required_expressions image_uuid) with
           | [] => id
           | l => <["expressions" := MissingPaths l]>
           end)
          ((match absent_paths fs (required_variations image_uuid) with
            | [] => id
            | l => <["variations" := MissingPaths l]>
            end) ∅)), pct).
Proof.
  unfold check_preparation_completeness. cbv zeta.
  destruct (absent_paths fs (required_variations image_uuid));
    destruct (absent_paths fs (required_expressions image_uuid));
    destruct (bool_decide (required_personality image_uuid ∈ fs));
    report_size; rewrite completion_percentage_of_size by lia;
    eexists; reflexivity.
Qed.

(** C1 (as amended).  The check always returns; its report holds at most
    three groups, and the completion percentage is 100, 66, 33 or 0 when
    0, 1, 2 or 3 groups are missing: the binary64 value of [(2/3)*100] is
    just below 66.67 and [int] truncates it. *)
Theorem completion_percentage_by_missing_groups :
  ∃ missing pct,
    check_preparation_completeness fs image_uuid original_image_path
      = Some (missing, pct) ∧
    (size missing ≤ 3)%nat ∧
    (size missing = 0%nat → pct = 100%Z) ∧
    (size missing = 1%nat → pct = 66%Z) ∧
    (size missing = 2%nat → pct = 33%Z) ∧
    (size missing = 3%nat → pct = 0%Z).
Proof.
  unfold check_preparation_completeness. cbv zeta.
  destruct (absent_paths fs (required_variations image_uuid));
    destruct (absent_paths fs (required_expressions image_uuid));
    destruct (bool_decide (required_personality image_uuid ∈ fs));
    report_size; rewrite completion_percentage_of_size by lia;
    (eexists _, _; split; [reflexivity|]);
    report_size; repeat split; intros; (lia || congruence).
Qed.

Lemma check_preparation_completeness_lookup missing pct :
  check_preparation_completeness fs image_uuid original_image_path
    = Some (missing, pct) →
  missing !! "variations" =
    match absent_paths fs (required_variations image_uuid) with
    | [] => None
    | l => Some (MissingPaths l)
    end ∧
  missing !! "expressions" =
    match absent_paths fs (required_expressions image_uuid) with
    | [] => None
    | l => Some (MissingPaths l)
    end ∧
  missing !! "personality" =
    (if bool_decide (required_personality image_uuid ∈ fs) then None
     else Some (MissingPath (required_personality image_uuid))) ∧
  ∀ k, k ≠ "variations" → k ≠ "expressions" → k ≠ "personality" →
       missing !! k = None.
Proof.
  destruct check_preparation_completeness_unfold as [pct' E].
  rewrite E. intros [= <- <-].
  destruct (absent_paths fs (required_variations image_uuid));
    destruct (absent_paths fs (required_expressions image_uuid));
    destruct (bool_decide (required_personality image_uuid ∈ fs));
    unfold id; (split; [by simplify_map_eq|]);
    (split; [by simplify_map_eq|]); (split; [by simplify_map_eq|]);
    intros k H1 H2 H3; rewrite ?lookup_insert_ne by done; apply lookup_empty.
Qed.

(** C6 (as amended).  The report has an entry for a group exactly when one
    of that group's required paths (four variation images, three expression
    clips, one personality file) is absent; it has no other key, so the
    segmented image is never reported; the variations and expressions
    entries are the lists of their absent paths in required order, and the
    personality entry is the personality path itself, a plain string. *)
Theorem missing_groups_characterised :
  ∃ missing pct,
    check_preparation_completeness fs image_uuid original_image_path
      = Some (missing, pct) ∧
    length (required_variations image_uuid) = 4%nat ∧
    length (required_expressions image_uuid) = 3%nat ∧
    (is_Some (missing !! "variations") ↔
       ∃ p, p ∈ required_variations image_uuid ∧ p ∉ fs) ∧
    (is_Some (missing !! "expressions") ↔
       ∃ p, p ∈ required_expressions image_uuid ∧ p ∉ fs) ∧
    (is_Some (missing !! "personality") ↔
       required_personality image_uuid ∉ fs) ∧
    (∀ k, is_Some (missing !! k) →
       k = "variations" ∨ k = "expressions" ∨ k = "personality") ∧
    missing !! "segmented_image" = None ∧
    (∀ e, missing !! "variations" = Some e →
       e = MissingPaths (absent_paths fs (required_variations image_uuid))) ∧
    (∀ e, missing !! "expressions" = Some e →
       e = MissingPaths (absent_paths fs (required_expressions image_uuid))) ∧
    (∀ e, missing !! "personality" = Some e →
       e = MissingPath (required_personality image_uuid)).
Proof.
  destruct check_preparation_completeness_unfold as [pct E].
  eexists _, pct. split; [exact E|].
  destruct (check_preparation_completeness_lookup _ _ E) as (Hv & He & Hp & Hk).
  pose proof (absent_paths_cons_iff (required_variations image_uuid)) as Cv.
  pose proof (absent_paths_cons_iff (required_expressions image_uuid)) as Ce.
  rewrite Hv, He, Hp. clear Hv He Hp E.
  split; [reflexivity|]. split; [reflexivity|].
  split.
  { rewrite <- Cv. destruct (absent_paths fs (required_variations image_uuid));
      split; intros H; try done; by destruct H. }
  split.
  { rewrite <- Ce. destruct (absent_paths fs (required_expressions image_uuid));
      split; intros H; try done; by destruct H. }
  split.
  { case_bool_decide as Hd; split; intros Hs; try done; by destruct Hs. }
  split.
  { intros k Hs.
    destruct (decide (k = "variations")) as [|N1]; [by left|].
    destruct (decide (k = "expressions")) as [|N2]; [by right; left|].
    destruct (decide (k = "personality")) as [|N3]; [by right; right|].
    rewrite Hk in Hs by done. by destruct Hs. }
  split; [by apply Hk|].
  split.
  { destruct (absent_paths fs (required_variations image_uuid)); congruence. }
  split.
  { destruct (absent_paths fs (required_expressions image_uuid)); congruence. }
  case_bool_decide; congruence.
Qed.

End Completeness.

(** C1 (as stated) fails: with the four variations and the three expression
    clips stored and only the personality file absent, exactly one group is
    missing and the percentage is 66, not 67. *)
Lemma completion_percentage_one_missing_is_66 :
  let fs : gset string :=
    list_to_set (required_variations "a" ++ required_expressions "a") in
  let report := check_preparation_completeness fs "a" "uploads/a.jpg" in
  (size ∘ fst) <$> report = Some 1%nat ∧
  snd <$> report = Some 66%Z ∧
  snd <$> report ≠ Some 67%Z.
Proof.
  split; [vm_compute; reflexivity|]. split; [vm_compute; reflexivity|].
  vm_compute. discriminate.
Qed.

(** C6 (as stated) fails on the personality group: on an empty store the
    personality entry is a single path string, not a list of paths. *)
Lemma personality_entry_is_not_a_list :
  let report := check_preparation_completeness ∅ "a" "uploads/a.jpg" in
  (λ r, r.1 !! "personality") <$> report
    = Some (Some (MissingPath "generated/personality/a_personality.json")) ∧
  ∀ paths, (λ r, r.1 !! "personality") <$> report ≠ Some (Some (MissingPaths paths)).
Proof.
  split; [vm_compute; reflexivity|].
  intros paths. vm_compute. discriminate.
Qed.

(** ** Personality validation *)

Section PersonalityValidation.

Import ChatService.

Context (repr : json → string).

Lemma well_formed_initial :
  well_formed_profile
    {[ "personality" := JList []; "habits" := JList [];
       "voice_tone" := JStr "friendly" ]}.
Proof.
  split; [|split; [|split]].
  - rewrite !dom_insert_L, dom_singleton_L. set_solver.
  - exists []. split; [reflexivity | simpl; lia].
  - exists []. split; [reflexivity | simpl; lia].
  - exists "friendly". reflexivity.
Qed.

Lemma well_formed_set_personality profile (l : list json) :
  well_formed_profile profile →
  well_formed_profile
    (<["personality" := JList ((λ trait, JStr (py_str repr trait)) <$> take 5 l)]>
       profile).
Proof.
  intros (Hd & _ & Hh & Ht). split; [|split; [|split]].
  - rewrite dom_insert_L, Hd. set_solver.
  - exists (py_str repr <$> take 5 l). rewrite lookup_insert_eq.
    split; [by rewrite <- list_fmap_compose|].
    rewrite length_fmap, length_take. lia.
  - by rewrite lookup_insert_ne.
  - by rewrite lookup_insert_ne.
Qed.

Lemma well_formed_set_habits profile (l : list json) :
  well_formed_profile profile →
  well_formed_profile
    (<["habits" := JList ((λ habit, JStr (py_str repr habit)) <$> take 3 l)]>
       profile).
Proof.
  intros (Hd & Hp & _ & Ht). split; [|split; [|split]].
  - rewrite dom_insert_L, Hd. set_solver.
  - by rewrite lookup_insert_ne.
  - exists (py_str repr <$> take 3 l). rewrite lookup_insert_eq.
    split; [by rewrite <- list_fmap_compose|].
    rewrite length_fmap, length_take. lia.
  - by rewrite lookup_insert_ne.
Qed.

Lemma well_formed_set_voice_tone profile (tone : string) :
  well_formed_profile profile →
  well_formed_profile (<["voice_tone" := JStr tone]> profile).
Proof.
  intros (Hd & Hp & Hh & _). split; [|split; [|split]].
  - rewrite dom_insert_L, Hd. set_solver.
  - by rewrite lookup_insert_ne.
  - by rewrite lookup_insert_ne.
  - exists tone. by rewrite lookup_insert_eq.
Qed.

(** C8.  Whatever the decoded input is (a dictionary with any content, or
    no dictionary at all), the validated profile has exactly the keys
    [personality], [habits] and [voice_tone]; the first is a list of at most
    five strings, the second a list of at most three strings, the third a
    string. *)
Theorem validated_personality_shape (data : json) :
  dom (_validate_personality_data repr data)
    = {[ "personality"; "habits"; "voice_tone" ]} ∧
  (∃ traits : list string,
     _validate_personality_data repr data !! "personality"
       = Some (JList (JStr <$> traits)) ∧
     (length traits ≤ 5)%nat) ∧
  (∃ habits : list string,
     _validate_personality_data repr data !! "habits"
       = Some (JList (JStr <$> habits)) ∧
     (length habits ≤ 3)%nat) ∧
  (∃ tone : string,
     _validate_personality_data repr data !! "voice_tone" = Some (JStr tone)).
Proof.
  change (well_formed_profile (_validate_personality_data repr data)).
  unfold _validate_personality_data.
  destruct data as [| | | | |l|d]; try apply well_formed_initial.
  cbv zeta.
  assert (H1 : well_formed_profile
    match d !! "personality" with
    | Some (JList l) =>
        <["personality" := JList ((λ trait, JStr (py_str repr trait)) <$> take 5 l)]>
          {[ "personality" := JList []; "habits" := JList [];
             "voice_tone" := JStr "friendly" ]}
    | _ => {[ "personality" := JList []; "habits" := JList [];
              "voice_tone" := JStr "friendly" ]}
    end).
  { destruct (d !! "personality") as [[]|];
      auto using well_formed_initial, well_formed_set_personality. }
  revert H1. generalize (match d !! "personality" with
    | Some (JList l) =>
        <["personality" := JList ((λ trait, JStr (py_str repr trait)) <$> take 5 l)]>
          ({[ "personality" := JList []; "habits" := JList [];
             "voice_tone" := JStr "friendly" ]} : gmap string json)
    | _ => {[ "personality" := JList []; "habits" := JList [];
              "voice_tone" := JStr "friendly" ]}
    end).
  intros v1 H1.
  destruct (d !! "habits") as [[]|]; destruct (d !! "voice_tone") as [[]|];
    auto using well_formed_set_habits, well_formed_set_voice_tone.
Qed.

End PersonalityValidation.

(** ** Cartoon variations *)

Section CartoonVariations.

Import ImageService.

Context (sv : service) (image_path image_uuid : string).

(** C7 (as amended).  With at least four prompts configured the generator
    returns, and returns exactly four entries; entry [i] is the path the
    vendor call produced for [variation_(i+1)], or, when that call raised,
    what the placeholder writer returned: the placeholder's path, or the
    empty string when the placeholder could not be written. *)
Theorem cartoon_variations_four_entries :
  (4 ≤ length (cartoon_generation sv))%nat →
  ∃ paths,
    generate_cartoon_variations sv image_path image_uuid = Ret paths ∧
    length paths = 4%nat ∧
    ∀ i, (i < 4)%nat →
      ∃ prompt entry,
        cartoon_generation sv !! i = Some prompt ∧
        paths !! i = Some entry ∧
        let attempt :=
          _call_wanx_image_edit_async sv image_path prompt image_uuid
            ("variation_" +:+ pretty (i + 1)%nat) in
        let placeholder :=
          image_uuid +:+ "_" +:+
            ("variation_" +:+ pretty (i + 1)%nat +:+ "_placeholder") +:+ ".png" in
        attempt = Ret entry ∨
        ((∃ msg, attempt = Raise msg) ∧ placeholder_saved sv placeholder = true ∧
         entry = "generated/avatars/" +:+ placeholder) ∨
        ((∃ msg, attempt = Raise msg) ∧ placeholder_saved sv placeholder = false ∧
         entry = "").
Proof.
  intros Hlen. unfold generate_cartoon_variations.
  rewrite bool_decide_eq_false_2 by lia.
  eexists. split; [reflexivity|]. split.
  { rewrite length_imap, length_take. lia. }
  intros i Hi.
  destruct (lookup_lt_is_Some_2 (cartoon_generation sv) i) as [prompt Hp]; [lia|].
  exists prompt. eexists. split; [exact Hp|].
  rewrite list_lookup_imap, lookup_take_lt, Hp by lia. simpl.
  split; [reflexivity|].
  unfold generate_one_variation, _create_placeholder_image.
  destruct (_call_wanx_image_edit_async sv image_path prompt image_uuid _)
    as [p|msg] eqn:E.
  - by left.
  - right. destruct (placeholder_saved sv _) eqn:S; [left | right]; eauto.
Qed.

End CartoonVariations.

(** C7 (as stated) fails when a vendor call fails and the placeholder
    cannot be written either: the list has four entries, each of them the
    empty string, which is neither a generated image nor a placeholder. *)
Lemma cartoon_variations_empty_entries :
  ImageService.generate_cartoon_variations Samples.failing_service
      "temp/processing/segmented_a.jpg" "a"
    = Ret [""; ""; ""; ""] ∧
  (∀ image_path prompt image_uuid name,
     ImageService._call_wanx_image_edit_async Samples.failing_service
       image_path prompt image_uuid name ≠ Ret "") ∧
  (∀ filename, "generated/avatars/" +:+ filename ≠ "").
Proof.
  split; [vm_compute; reflexivity|]. split.
  - intros. simpl. discriminate.
  - intros filename. simpl. discriminate.
Qed.

(** With four prompts configured the sample service meets the premise. *)
Lemma cartoon_variations_four_entries_witness :
  (4 ≤ length (ImageService.cartoon_generation Samples.failing_service))%nat ∧
  ∃ paths,
    ImageService.generate_cartoon_variations Samples.failing_service
      "temp/processing/segmented_a.jpg" "a" = Ret paths ∧
    length paths = 4%nat.
Proof.
  split; [simpl; lia|].
  destruct (cartoon_variations_four_entries Samples.failing_service
              "temp/processing/segmented_a.jpg" "a") as (paths & H & L & _).
  - simpl. lia.
  - exists paths. split; [exact H | exact L].
Defined.

(** ** Auto-repair *)

Section AutoRepair.

Context (e : env) (image_uuid original_image_path : string).
Context (missing_files : gmap string missing_entry).

Lemma has_key_true {A : Type} (key : string) (d : gmap string A) :
  has_key key d = true ↔ is_Some (d !! key).
Proof. unfold has_key. apply bool_decide_eq_true. Qed.

Lemma has_key_false {A : Type} (key : string) (d : gmap string A) :
  has_key key d = false ↔ d !! key = None.
Proof.
  unfold has_key. rewrite bool_decide_eq_false. split.
  - intros H. destruct (d !! key); [exfalso; eauto | done].
  - intros -> [x Hx]. discriminate.
Qed.

Lemma personality_of_result_cases (r : personality_result) :
  personality_of_result r = default_personality ∨
  r = PersonalityDict None (Some (personality_of_result r)).
Proof. destruct r as [[?|] [?|]|]; simpl; auto. Qed.

(** C2 (as amended).  The repair always returns a result, never an
    exception.  For the segmented image, the variations and the personality,
    each one that is in the missing set has an entry in the result: what
    the generator produced, or the fallback when it raised (the original
    image, the empty list, the default profile; the default profile also
    when the generator's answer is not a usable dictionary).  An expressions
    entry (what the generator produced, or the empty mapping when it raised)
    is present exactly when expressions are in the missing set and the
    result holds a non-empty variations list; otherwise the result has no
    expressions entry at all. *)
Theorem repair_entries :
  ∃ completed calls,
    complete_missing_preparation e image_uuid original_image_path missing_files
      = (Ret completed, calls) ∧
    (is_Some (missing_files !! "segmented_image") →
       ∃ p, cf_segmented_image completed = Some p ∧
            (segment_image e original_image_path = Ret p ∨
             (∃ msg, segment_image e original_image_path = Raise msg) ∧
             p = original_image_path)) ∧
    (is_Some (missing_files !! "variations") →
       ∃ l source, cf_variations completed = Some l ∧
            source = default original_image_path (cf_segmented_image completed) ∧
            (generate_cartoon_variations e source image_uuid = Ret l ∨
             (∃ msg, generate_cartoon_variations e source image_uuid = Raise msg) ∧
             l = [])) ∧
    (is_Some (missing_files !! "personality") →
       ∃ v, cf_personality completed = Some v ∧
            (v = default_personality ∨
             ∃ avatar_image,
               generate_personality e avatar_image image_uuid
                 = Ret (PersonalityDict None (Some v)))) ∧
    match missing_files !! "expressions", cf_variations completed with
    | Some _, Some (selected_variation :: _) =>
        ∃ m, cf_expressions completed = Some m ∧
             (generate_expressions e selected_variation image_uuid = Ret m ∨
              (∃ msg, generate_expressions e selected_variation image_uuid
                        = Raise msg) ∧ m = ∅)
    | _, _ => cf_expressions completed = None
    end.
Proof.
  unfold complete_missing_preparation.
  destruct (has_key "segmented_image" missing_files) eqn:Hs;
    destruct (has_key "variations" missing_files) eqn:Hv;
    destruct (has_key "expressions" missing_files) eqn:He;
    destruct (has_key "personality" missing_files) eqn:Hp.
  all: repeat match goal with
    | H : has_key _ _ = true |- _ => rewrite has_key_true in H
    | H : has_key _ _ = false |- _ => rewrite has_key_false in H
    end.
  all: repeat (cbn [cf_segmented_image cf_variations cf_expressions cf_personality default repair_avatar_image fst snd];
    match goal with
    | |- context [match ?x with _ => _ end] =>
        lazymatch x with
        | context [match _ with _ => _ end] => fail
        | _ => destruct x eqn:?
        end
    end).
  all: try (exfalso; match goal with H : is_Some None |- _ => destruct H; discriminate end).
  all: try congruence.
  all: try (eexists _, _; split; [reflexivity|]).
  all: cbn [cf_segmented_image cf_variations cf_expressions cf_personality default from_option id].
  all: repeat match goal with |- _ ∧ _ => split end.
  all: try (intros [? ?]; congruence).
  all: try reflexivity.
  all: try (intros _).
  all: try (eexists; split; [reflexivity|]; eauto; fail).
  all: try (eexists _, _; split; [reflexivity|]; split; [reflexivity|]; eauto; fail).
  all: try (eexists; split; [reflexivity|];
            match goal with |- context [personality_of_result ?r] =>
              destruct (personality_of_result_cases r) as [->|E];
                [left; reflexivity | right; eexists; rewrite <- E; eassumption]
            end).
Qed.

(** Which call the personality stage makes: none when the result holds an
    empty variations list, else one call with the first variation, or with
    the segmented or original image when there is no variation or its path
    is empty. *)
Lemma repair_personality_call :
  is_Some (missing_files !! "personality") →
  ∃ completed calls,
    complete_missing_preparation e image_uuid original_image_path missing_files
      = (Ret completed, calls) ∧
    let fallback := default original_image_path (cf_segmented_image completed) in
    match cf_variations completed with
    | Some [] => ∀ avatar_image, CallPersonality avatar_image image_uuid ∉ calls
    | Some (first :: _) =>
        CallPersonality (if bool_decide (first = "") then fallback else first)
          image_uuid ∈ calls
    | None => CallPersonality fallback image_uuid ∈ calls
    end.
Proof.
  intros Hp. apply has_key_true in Hp.
  unfold complete_missing_preparation. rewrite Hp.
  destruct (has_key "segmented_image" missing_files);
    destruct (has_key "variations" missing_files);
    destruct (has_key "expressions" missing_files).
  all: repeat (cbn [cf_segmented_image cf_variations cf_expressions cf_personality
                    default repair_avatar_image fst snd];
    match goal with
    | |- context [match ?x with _ => _ end] =>
        lazymatch x with
        | context [match _ with _ => _ end] => fail
        | _ => destruct x eqn:?
        end
    end).
  all: eexists _, _; (split; [reflexivity|]).
  all: cbn [cf_segmented_image cf_variations default from_option id].
  all: try (rewrite ?elem_of_app; right; left; fail).
  all: try (match goal with H : bool_decide _ = _ |- _ => rewrite H end;
            rewrite ?elem_of_app; right; left; fail).
  all: intros avatar_image Hin; simpl in Hin.
  all: repeat (apply elem_of_cons in Hin as [Hin|Hin]; [discriminate Hin|]).
  all: by apply elem_of_nil in Hin.
Qed.

End AutoRepair.

(** C2 (as stated) fails for the expressions group: with only the
    expressions missing (the variations are all stored), the repair makes no
    call and its result has no expressions entry, neither a generated
    mapping nor the empty one. *)
Lemma repair_skips_expressions_without_variations :
  complete_missing_preparation Samples.working_env "a" "uploads/a.jpg"
      {[ "expressions" := MissingPaths (required_expressions "a") ]}
    = (Ret {| cf_segmented_image := None; cf_variations := None;
              cf_expressions := None; cf_personality := None |}, []) ∧
  is_Some (({[ "expressions" := MissingPaths (required_expressions "a") ]}
              : gmap string missing_entry) !! "expressions").
Proof. split; [vm_compute; reflexivity | by eexists]. Qed.

(** ** The personality stage of the repair *)

Section RepairPersonality.

Context (e : env) (sv : ImageService.service).
Context (image_uuid original_image_path : string).
Context (missing_files : gmap string missing_entry).



End RepairPersonality.



(** ** Selecting an avatar *)

Section Selection.

Context (e : env) (w : world).

(** C3.  For a stored session and an integer index below zero or not below
    the number of its variations, the handler answers 400 INVALID_INDEX and
    the whole state, the session included, is what it was. *)
Theorem select_avatar_out_of_range (session_id : string) (session : session)
    (selected_index : Z) :
  session_id ≠ "" →
  user_sessions w !! session_id = Some session →
  (selected_index < 0 ∨
   Z.of_nat (length (default [] (s_variations session))) ≤ selected_index)%Z →
  select_avatar e (Some (Some session_id, Some selected_index)) w
    = (w, Error 400 "INVALID_INDEX") ∧
  user_sessions (select_avatar e (Some (Some session_id, Some selected_index)) w).1
    !! session_id = Some session.
Proof.
  intros Hid Hs Hrange.
  assert (E : select_avatar e (Some (Some session_id, Some selected_index)) w
              = (w, Error 400 "INVALID_INDEX")).
  { unfold select_avatar.
    rewrite (bool_decide_eq_false_2 (session_id = "")) by exact Hid.
    rewrite Hs. rewrite bool_decide_eq_true_2; [reflexivity|]. lia. }
  rewrite E. split; [reflexivity | exact Hs].
Qed.

End Selection.

(** The sample session has four variations: index 4 is refused. *)
Lemma select_avatar_out_of_range_witness :
  user_sessions Samples.ready_world !! "5d1f0c9e-0000-4000-8000-000000000001"
    = Some Samples.ready_session ∧
  (Z.of_nat (length (default [] (s_variations Samples.ready_session))) ≤ 4)%Z ∧
  select_avatar Samples.working_env
      (Some (Some "5d1f0c9e-0000-4000-8000-000000000001", Some 4%Z))
      Samples.ready_world
    = (Samples.ready_world, Error 400 "INVALID_INDEX").
Proof.
  split; [reflexivity|]. split; [simpl; lia|].
  apply (select_avatar_out_of_range Samples.working_env Samples.ready_world
           "5d1f0c9e-0000-4000-8000-000000000001" Samples.ready_session 4).
  - discriminate.
  - reflexivity.
  - right. simpl. lia.
Defined.

(** ** Upload validation *)

Section UploadValidation.

Context (md5 : bytes → string) (e : env) (w : world).

(** C10.  A request without an [image] part, with an empty file name, or
    with a file name whose lower-cased suffix is not one of the four
    accepted extensions is answered 400 with the matching code, and the
    state comes back unchanged: no session is stored and nothing is written
    under [uploads]. *)
Theorem rejected_upload_changes_nothing
    (image : option (option string * bytes)) :
  image = None ∨
  (∃ content, image = Some (Some "", content)) ∨
  (∃ filename content,
     image = Some (filename, content) ∧
     PyPath.lower (PyPath.suffix (default "" filename)) ∉ allowed_extensions) →
  ∃ code,
    upload_image md5 e image w = (w, Error 400 code) ∧
    (code = "NO_FILE" ∨ code = "NO_FILENAME" ∨ code = "INVALID_FORMAT") ∧
    user_sessions (upload_image md5 e image w).1 = user_sessions w ∧
    uploads (upload_image md5 e image w).1 = uploads w.
Proof.
  intros H.
  assert (E : ∃ code, upload_image md5 e image w = (w, Error 400 code) ∧
                (code = "NO_FILE" ∨ code = "NO_FILENAME" ∨ code = "INVALID_FORMAT")).
  { destruct H as [-> | [[content ->] | (filename & content & -> & Hext)]].
    - exists "NO_FILE". simpl. auto.
    - exists "NO_FILENAME". simpl. auto.
    - unfold upload_image. case_bool_decide as Hname.
      + exists "NO_FILENAME". auto.
      + exists "INVALID_FORMAT". rewrite bool_decide_eq_true_2 by exact Hext. auto. }
  destruct E as (code & E & Hcode). exists code. rewrite E. auto.
Qed.

(** The validation rejections are the only answers with status 400, and
    every one of them gives the state back as it was. *)
Lemma upload_image_400_unchanged (image : option (option string * bytes))
    (w' : world) (code : string) :
  upload_image md5 e image w = (w', Error 400 code) → w' = w.
Proof.
  unfold upload_image, upload_existing_image, upload_new_image.
  repeat (first
    [ progress simpl
    | case_bool_decide
    | match goal with
      | |- context [complete_missing_preparation ?a ?b ?c ?d] =>
          destruct (complete_missing_preparation a b c d) as [[?|?] ?]
      | |- context [match ?x with _ => _ end] => destruct x eqn:?
      end ]);
    intros [= <- ?]; reflexivity.
Qed.

End UploadValidation.

(** A [.gif] upload is refused and leaves the sample state as it was. *)
Lemma rejected_upload_changes_nothing_witness :
  (PyPath.lower (PyPath.suffix "photo.gif") ∉ allowed_extensions) ∧
  (∃ code,
     upload_image Samples.sample_md5 Samples.working_env
       (Some (Some "photo.gif", [])) Samples.ready_world
       = (Samples.ready_world, Error 400 code)).
Proof.
  split; [apply (bool_decide_unpack _); vm_compute; exact I|].
  destruct (rejected_upload_changes_nothing Samples.sample_md5
              Samples.working_env Samples.ready_world
              (Some (Some "photo.gif", [])))
    as (code & E & _).
  - right. right. exists (Some "photo.gif"), []. split; [reflexivity|].
    apply (bool_decide_unpack _). vm_compute. exact I.
  - exists code. exact E.
Defined.

(** ** The session state machine *)

Section StateMachine.

Context (md5 : bytes → string) (e : env) (w : world).
Context (sid : string) (s : session).
Hypothesis Hstored : user_sessions w !! sid = Some s.

Lemma status_rank_bound (status : string) (r : nat) :
  status_rank status = Some r → (r ≤ 4)%nat.
Proof.
  unfold status_rank. repeat case_bool_decide; intros [= <-]; lia.
Qed.

(** A selection request leaves a stored session as it was or ends with it
    at [ready]. *)
Lemma select_avatar_sessions (data : option (option string * option Z)) :
  ∃ s', user_sessions (select_avatar e data w).1 !! sid = Some s' ∧
        (s' = s ∨ s_status s' = "ready").
Proof.
  unfold select_avatar.
  destruct data as [[[session_id|] [selected_index|]]|]; simpl; eauto;
    case_bool_decide; simpl; eauto.
  destruct (user_sessions w !! session_id) as [session|] eqn:Hl; simpl; eauto.
  case_bool_decide; simpl; eauto.
  destruct (default [] (s_variations session) !! Z.to_nat selected_index);
    simpl; eauto.
  destruct (decide (session_id = sid)) as [->|Hne].
  - rewrite lookup_insert_eq. eauto.
  - rewrite !lookup_insert_ne by done. eauto.
Qed.

(** A variations request leaves a stored session as it was or ends with it
    at [generating_variations] or [variations_ready]. *)
Lemma generate_avatar_variations_sessions (data : option (option string)) :
  ∃ s', user_sessions (generate_avatar_variations e data w).1 !! sid = Some s' ∧
        (s' = s ∨ s_status s' = "generating_variations"
         ∨ s_status s' = "variations_ready").
Proof.
  unfold generate_avatar_variations.
  destruct data as [[session_id|]|]; simpl; eauto.
  case_bool_decide; simpl; eauto.
  destruct (user_sessions w !! session_id) as [session|] eqn:Hl; simpl; eauto.
  destruct (generate_cartoon_variations e _ _); simpl;
    (destruct (decide (session_id = sid)) as [->|Hne];
     [rewrite lookup_insert_eq | rewrite !lookup_insert_ne by done]); eauto.
Qed.

(** An upload stores at most one session, under the id it draws. *)
Lemma upload_image_sessions (image : option (option string * bytes)) :
  uuid4_session e ≠ sid →
  user_sessions (upload_image md5 e image w).1 !! sid = Some s.
Proof.
  intros Hfresh. unfold upload_image, upload_existing_image, upload_new_image.
  repeat (first
    [ progress simpl
    | case_bool_decide
    | match goal with
      | |- context [complete_missing_preparation ?a ?b ?c ?d] =>
          destruct (complete_missing_preparation a b c d) as [[?|?] ?]
      | |- context [match ?x with _ => _ end] => destruct x eqn:?
      end ]);
    rewrite ?lookup_insert_ne by done; exact Hstored.
Qed.

(** C4 (as amended).  Along uploaded, generating_variations,
    variations_ready, processing_selection, ready, at the end of each
    request: a selection request never leaves a stored session at an earlier
    status than it found it; a variations request does not either when it
    finds the session at [uploaded] or [generating_variations]; an upload
    that draws a fresh session id leaves every stored session untouched. *)
Theorem status_moves_forward (r : nat) :
  status_rank (s_status s) = Some r →
  (∀ data, ∃ s' r',
     user_sessions (select_avatar e data w).1 !! sid = Some s' ∧
     status_rank (s_status s') = Some r' ∧ (r ≤ r')%nat) ∧
  (∀ data, (r ≤ 1)%nat → ∃ s' r',
     user_sessions (generate_avatar_variations e data w).1 !! sid = Some s' ∧
     status_rank (s_status s') = Some r' ∧ (r ≤ r')%nat) ∧
  (∀ image, uuid4_session e ≠ sid →
     user_sessions (upload_image md5 e image w).1 !! sid = Some s).
Proof.
  intros Hr. split; [|split].
  - intros data. destruct (select_avatar_sessions data) as (s' & Hl & [->|Hst]).
    + exists s, r. auto.
    + exists s', 4%nat. rewrite Hst. split; [exact Hl|]. split; [reflexivity|].
      eapply status_rank_bound, Hr.
  - intros data Hle.
    destruct (generate_avatar_variations_sessions data)
      as (s' & Hl & [->|[Hst|Hst]]).
    + exists s, r. auto.
    + exists s', 1%nat. rewrite Hst. split; [exact Hl|]. split; [reflexivity|lia].
    + exists s', 2%nat. rewrite Hst. split; [exact Hl|]. split; [reflexivity|lia].
  - intros image. apply upload_image_sessions.
Qed.

End StateMachine.

(** C4 (as stated) fails: the variations handler sets the status without
    looking at it, so a variations request on a session that is [ready]
    ends with the session at [variations_ready], two steps back. *)
Lemma generate_variations_regresses_ready_session :
  let sid := "5d1f0c9e-0000-4000-8000-000000000001" in
  let w' := (generate_avatar_variations Samples.working_env (Some (Some sid))
               Samples.ready_world).1 in
  s_status <$> user_sessions Samples.ready_world !! sid = Some "ready" ∧
  s_status <$> user_sessions w' !! sid = Some "variations_ready" ∧
  status_rank "ready" = Some 4%nat ∧
  status_rank "variations_ready" = Some 2%nat.
Proof. repeat split; vm_compute; reflexivity. Qed.

(** The sample session is stored at [ready], rank 4: selecting its first
    variation again does not move it back. *)
Lemma status_moves_forward_witness :
  user_sessions Samples.ready_world !! "5d1f0c9e-0000-4000-8000-000000000001"
    = Some Samples.ready_session ∧
  status_rank (s_status Samples.ready_session) = Some 4%nat ∧
  ∃ s' r',
    user_sessions
      (select_avatar Samples.working_env
         (Some (Some "5d1f0c9e-0000-4000-8000-000000000001", Some 0%Z))
         Samples.ready_world).1
      !! "5d1f0c9e-0000-4000-8000-000000000001" = Some s' ∧
    status_rank (s_status s') = Some r' ∧ (4 ≤ r')%nat.
Proof.
  split; [reflexivity|]. split; [reflexivity|].
  destruct (status_moves_forward Samples.sample_md5
              Samples.working_env Samples.ready_world
              "5d1f0c9e-0000-4000-8000-000000000001" Samples.ready_session)
    with (r := 4%nat) as [Hselect _].
  - reflexivity.
  - reflexivity.
  - apply Hselect.
Defined.

(** ** Upload deduplication *)

Section PathFacts.

Lemma contains_app (c : Ascii.ascii) (s t : string) :
  PyPath.contains c (s +:+ t) = PyPath.contains c s || PyPath.contains c t.
Proof.
  induction s as [|a s IH]; simpl; [reflexivity|].
  rewrite IH. by rewrite orb_assoc.
Qed.

Lemma split_on_absent (c : Ascii.ascii) (s : string) :
  PyPath.contains c s = false → PyPath.split_on c s = [s].
Proof.
  induction s as [|a s IH]; simpl; [reflexivity|].
  intros H. apply orb_false_iff in H as [Ha Hs].
  rewrite Ha, (IH Hs). reflexivity.
Qed.

Lemma split_on_prefix (c : Ascii.ascii) (prefix rest : string) :
  PyPath.contains c prefix = false →
  PyPath.split_on c (prefix +:+ String c rest) = prefix :: PyPath.split_on c rest.
Proof.
  induction prefix as [|a prefix IH]; simpl.
  - intros _. rewrite Ascii.eqb_refl. reflexivity.
  - intros H. apply orb_false_iff in H as [Ha Hp].
    rewrite Ha, (IH Hp). reflexivity.
Qed.

Lemma rpartition_absent (c : Ascii.ascii) (s : string) :
  PyPath.contains c s = false → PyPath.rpartition c s = None.
Proof.
  induction s as [|a s IH]; simpl; [reflexivity|].
  intros H. apply orb_false_iff in H as [Ha Hs].
  rewrite (IH Hs), Ha. reflexivity.
Qed.

Lemma rpartition_last (c : Ascii.ascii) (before after : string) :
  PyPath.contains c after = false →
  PyPath.rpartition c (before +:+ String c after) = Some (before, after).
Proof.
  intros H. induction before as [|a before IH]; simpl.
  - rewrite (rpartition_absent _ _ H), Ascii.eqb_refl. reflexivity.
  - rewrite IH. reflexivity.
Qed.

Lemma uuid_chars_no_slash (u : string) :
  uuid_chars u = true → PyPath.contains "/" u = false.
Proof.
  induction u as [|a u IH]; simpl; [reflexivity|].
  intros H. apply andb_true_iff in H as [Ha Hu].
  rewrite (IH Hu), orb_false_r.
  destruct (Ascii.eqb_spec a "/") as [->|]; [discriminate Ha | reflexivity].
Qed.

Lemma uuid_text_facts (u : string) :
  uuid_text u = true → u ≠ "" ∧ PyPath.contains "/" u = false.
Proof.
  destruct u as [|a u]; [discriminate|]. intros H.
  split; [discriminate|]. by apply uuid_chars_no_slash.
Qed.

(** The stem of the canonical upload path of an image is its uuid. *)
Lemma stem_of_upload_path (u ext : string) :
  uuid_text u = true → ext ∈ allowed_extensions →
  PyPath.stem ("uploads/" +:+ (u +:+ ext)) = u.
Proof.
  intros Hu Hext. destruct (uuid_text_facts u Hu) as [Hne Hslash].
  assert (Hext' : ∃ after, ext = String "." after ∧ after ≠ "" ∧
                    PyPath.contains "." after = false ∧
                    PyPath.contains "/" ext = false).
  { unfold allowed_extensions in Hext.
    repeat (apply elem_of_cons in Hext as [->|Hext];
            [eexists; repeat split; try reflexivity; discriminate|]).
    inversion Hext. }
  destruct Hext' as (after & -> & Hafter & Hdot & Hsl).
  assert (Hname : PyPath.name ("uploads/" +:+ (u +:+ String "." after))
                  = u +:+ String "." after).
  { assert (Hn : u +:+ String "." after ≠ "" ∧ u +:+ String "." after ≠ ".").
    { destruct u as [|a u]; [done|]. split; [discriminate|].
      simpl. intros [= -> Happ]. destruct u; discriminate. }
    assert (Hs : PyPath.contains "/" (u +:+ String "." after) = false).
    { rewrite contains_app, Hslash, Hsl. reflexivity. }
    revert Hn Hs. generalize (u +:+ String "." after). intros n Hn Hs.
    unfold PyPath.name, PyPath.parts.
    change ("uploads/" +:+ n) with ("uploads" +:+ String "/" n).
    rewrite split_on_prefix by reflexivity.
    rewrite split_on_absent by exact Hs.
    rewrite !filter_cons, filter_nil.
    rewrite decide_True by (split; discriminate).
    rewrite decide_True by exact Hn. reflexivity. }
  unfold PyPath.stem. rewrite Hname, rpartition_last by exact Hdot.
  rewrite bool_decide_eq_false_2; [reflexivity|]. intros [?|?]; congruence.
Qed.

End PathFacts.

Section Directory.

Lemma dir_filter_ext (P Q : string * bytes → Prop)
    `{!∀ f, Decision (P f)} `{!∀ f, Decision (Q f)} (dir : list (string * bytes)) :
  (∀ f, f ∈ dir → P f ↔ Q f) → filter P dir = filter Q dir.
Proof.
  induction dir as [|f dir IH]; intros Hiff; [reflexivity|].
  rewrite !filter_cons.
  assert (Hf : P f ↔ Q f) by (apply Hiff; left).
  rewrite IH by (intros g Hg; apply Hiff; by right).
  destruct (decide (P f)), (decide (Q f)); tauto || reflexivity.
Qed.

Lemma dir_fresh_name (file_name : string) (dir : list (string * bytes)) :
  file_name ∉ dir_names dir → ∀ f, f ∈ dir → f.1 ≠ file_name.
Proof.
  intros Hfresh f Hf <-. apply Hfresh. unfold dir_names.
  apply list_elem_of_fmap. eauto.
Qed.

Lemma dir_filter_fresh (file_name : string) (dir : list (string * bytes)) :
  file_name ∉ dir_names dir → filter (λ f, f.1 = file_name) dir = [].
Proof.
  intros Hfresh. rewrite (dir_filter_ext _ (λ _, False)).
  - induction dir as [|f dir IH]; [reflexivity|].
    rewrite filter_cons, decide_False by tauto. apply IH.
    intros H. apply Hfresh. unfold dir_names in *. rewrite fmap_cons. by right.
  - intros f Hf. split; [|tauto]. exact (dir_fresh_name _ _ Hfresh f Hf).
Qed.

Lemma dir_save_fresh (file_name : string) (content : bytes)
    (dir : list (string * bytes)) :
  file_name ∉ dir_names dir →
  dir_save file_name content dir = dir ++ [(file_name, content)].
Proof. intros H. unfold dir_save. by rewrite bool_decide_eq_false_2. Qed.

Lemma dir_names_staged (file_name : string) (content : bytes)
    (dir : list (string * bytes)) :
  file_name ∈ dir_names (dir ++ [(file_name, content)]).
Proof. unfold dir_names. rewrite fmap_app. apply elem_of_app. right. left. Qed.

Lemma dir_read_staged (file_name : string) (content : bytes)
    (dir : list (string * bytes)) :
  file_name ∉ dir_names dir →
  dir_read file_name (dir ++ [(file_name, content)]) = Some content.
Proof.
  intros H. unfold dir_read.
  rewrite filter_app, (dir_filter_fresh _ _ H).
  rewrite filter_cons, decide_True by reflexivity. reflexivity.
Qed.

Lemma dir_unlink_staged (file_name : string) (content : bytes)
    (dir : list (string * bytes)) :
  file_name ∉ dir_names dir →
  dir_unlink file_name (dir ++ [(file_name, content)]) = Some dir.
Proof.
  intros H. unfold dir_unlink.
  rewrite bool_decide_eq_true_2 by apply dir_names_staged.
  rewrite filter_app, filter_cons, decide_False, filter_nil, app_nil_r
    by (simpl; tauto).
  f_equal. rewrite (dir_filter_ext _ (λ _, True)).
  - induction dir as [|f dir IH]; [reflexivity|].
    rewrite filter_cons, decide_True by tauto. f_equal. apply IH.
    intros Hin. apply H. unfold dir_names in *. rewrite fmap_cons. by right.
  - intros f Hf. split; [tauto|]. intros _. exact (dir_fresh_name _ _ H f Hf).
Qed.

Lemma dir_rename_staged (file_name target : string) (content : bytes)
    (dir : list (string * bytes)) :
  file_name ∉ dir_names dir → target ∉ dir_names dir →
  dir_rename file_name target (dir ++ [(file_name, content)])
    = Some (dir ++ [(target, content)]).
Proof.
  intros Hn Ht. unfold dir_rename.
  rewrite bool_decide_eq_true_2 by apply dir_names_staged.
  f_equal. rewrite filter_app, fmap_app. f_equal.
  - assert (Hd : ∀ f, f ∈ dir → f.1 ≠ file_name ∧ f.1 ≠ target).
    { intros f Hf. split; [exact (dir_fresh_name _ _ Hn f Hf)
                          | exact (dir_fresh_name _ _ Ht f Hf)]. }
    clear Hn Ht. induction dir as [|f dir IH]; [reflexivity|].
    destruct (Hd f) as [H1 H2]; [left|].
    rewrite filter_cons, decide_True by tauto.
    rewrite fmap_cons, bool_decide_eq_false_2 by exact H1.
    f_equal. apply IH. intros g Hg. apply Hd. by right.
  - rewrite filter_cons, decide_True, filter_nil by (simpl; tauto).
    simpl. rewrite bool_decide_eq_true_2 by reflexivity. reflexivity.
Qed.

(** While the staged file is the only new entry, the search sees the
    directory as it was before the request. *)
Lemma find_existing_staged (md5 : bytes → string)
    (md5_hash temp_filename : string) (content : bytes)
    (dir : list (string * bytes)) :
  temp_filename ∉ dir_names dir →
  find_existing_image_by_md5 md5 (dir ++ [(temp_filename, content)])
      md5_hash temp_filename
    = (λ f, "uploads/" +:+ f.1) <$> head (filter (λ f, md5 f.2 = md5_hash) dir).
Proof.
  intros H. unfold find_existing_image_by_md5.
  rewrite filter_app, filter_cons, decide_False, filter_nil, app_nil_r
    by (simpl; tauto).
  rewrite (dir_filter_ext _ (λ f, md5 f.2 = md5_hash)); [reflexivity|].
  intros f Hf. split; [tauto|]. intros Hm. split; [exact Hm|].
  exact (dir_fresh_name _ _ H f Hf).
Qed.

End Directory.

Section Deduplication.

Context (md5 : bytes → string).

(** The repair always returns; when the segmented image is not in the
    missing set it makes no segmentation call. *)
Lemma repair_without_segment (e : env) (image_uuid original_image_path : string)
    (missing_files : gmap string missing_entry) :
  missing_files !! "segmented_image" = None →
  ∃ completed calls,
    complete_missing_preparation e image_uuid original_image_path missing_files
      = (Ret completed, calls) ∧
    ∀ p, CallSegment p ∉ calls.
Proof.
  intros Hs. apply has_key_false in Hs.
  unfold complete_missing_preparation. rewrite Hs.
  repeat (cbn [cf_segmented_image cf_variations cf_expressions cf_personality
               default repair_avatar_image fst snd];
    match goal with
    | |- context [match ?x with _ => _ end] =>
        lazymatch x with
        | context [match _ with _ => _ end] => fail
        | _ => destruct x eqn:?
        end
    end).
  all: eexists _, _; split; [reflexivity|].
  all: intros p Hin; simpl in Hin.
  all: repeat (apply elem_of_cons in Hin as [Hin|Hin]; [discriminate Hin|]).
  all: by apply elem_of_nil in Hin.
Qed.

(** The outcome of the flow for a known image, once the staged file is the
    last entry of the directory. *)
Lemma upload_existing_image_result (e : env) (w : world)
    (session_id image_uuid file_ext temp_filename file_md5 existing_image_path : string)
    (content : bytes) (dir : list (string * bytes)) :
  uploads w = dir ++ [(temp_filename, content)] →
  temp_filename ∉ dir_names dir →
  ∃ s calls response,
    upload_existing_image e w session_id image_uuid file_ext temp_filename
        file_md5 existing_image_path
      = ({| user_sessions := <[session_id := s]> (user_sessions w);
            uploads := dir;
            trace := trace w ++ calls |}, response) ∧
    s_image_uuid s = PyPath.stem existing_image_path ∧
    ∀ p, CallSegment p ∉ calls.
Proof.
  intros Hup Hfresh. unfold upload_existing_image.
  rewrite Hup, (dir_unlink_staged _ _ _ Hfresh).
  destruct (check_preparation_completeness (storage e)
              (PyPath.stem existing_image_path) existing_image_path)
    as [[missing_files pct]|] eqn:E.
  2: { destruct (check_preparation_completeness_unfold (storage e)
                   (PyPath.stem existing_image_path) existing_image_path)
         as [pct E'].
       congruence. }
  destruct (check_preparation_completeness_lookup _ _ _ _ _ E) as (_ & _ & _ & Hk).
  clear E. case_bool_decide as Hsize.
  - eexists _, [], _. split.
    { unfold with_sessions, with_uploads. simpl. rewrite app_nil_r. reflexivity. }
    split; [reflexivity|].
    intros p Hin. by apply elem_of_nil in Hin.
  - edestruct (repair_without_segment e (PyPath.stem existing_image_path)
                 existing_image_path) as (completed & calls & R & Hcalls);
      [apply Hk; discriminate|].
    rewrite R. eexists _, calls, _. split; [reflexivity|].
    split; [reflexivity | exact Hcalls].
Qed.

(** The outcome of the flow for a new image, under the same condition and
    with the final file name still free. *)
Lemma upload_new_image_result (e : env) (w : world)
    (session_id image_uuid file_ext temp_filename file_md5 : string)
    (content : bytes) (dir : list (string * bytes)) :
  uploads w = dir ++ [(temp_filename, content)] →
  temp_filename ∉ dir_names dir →
  image_uuid +:+ file_ext ∉ dir_names dir →
  ∃ s response,
    upload_new_image e w session_id image_uuid file_ext temp_filename file_md5
      = ({| user_sessions := <[session_id := s]> (user_sessions w);
            uploads := dir ++ [(image_uuid +:+ file_ext, content)];
            trace := trace w ++ [CallSegment ("uploads/" +:+ (image_uuid +:+ file_ext))] |},
         response) ∧
    s_image_uuid s = image_uuid.
Proof.
  intros Hup Hfresh Hfinal. unfold upload_new_image.
  rewrite Hup, (dir_rename_staged _ _ _ _ Hfresh Hfinal).
  eexists _, _. split; reflexivity.
Qed.

(** An accepted upload stages the file, fingerprints it and branches on the
    first stored file with the same digest. *)
Lemma upload_image_accepted (e : env) (w : world) (filename : string)
    (content : bytes) :
  PyPath.lower (PyPath.suffix filename) ∈ allowed_extensions →
  md5 content ≠ "" →
  "temp_" +:+ uuid4_image e +:+ PyPath.lower (PyPath.suffix filename)
    ∉ dir_names (uploads w) →
  upload_image md5 e (Some (Some filename, content)) w =
    let file_ext := PyPath.lower (PyPath.suffix filename) in
    let temp_filename := "temp_" +:+ uuid4_image e +:+ file_ext in
    let staged := with_uploads w (uploads w ++ [(temp_filename, content)]) in
    match head (filter (λ f, md5 f.2 = md5 content) (uploads w)) with
    | Some f =>
        upload_existing_image e staged (uuid4_session e) (uuid4_image e)
          file_ext temp_filename (md5 content) ("uploads/" +:+ f.1)
    | None =>
        upload_new_image e staged (uuid4_session e) (uuid4_image e)
          file_ext temp_filename (md5 content)
    end.
Proof.
  intros Hext Hmd5 Hfresh.
  assert (Hname : filename ≠ "").
  { intros ->. apply (bool_decide_pack _) in Hext. vm_compute in Hext. exact Hext. }
  unfold upload_image.
  rewrite (bool_decide_eq_false_2 (Some filename = Some "")) by congruence.
  cbn [default from_option id].
  rewrite (bool_decide_eq_false_2 (_ ∉ allowed_extensions)) by tauto.
  rewrite (bool_decide_eq_false_2 (filename = "")) by exact Hname.
  cbv zeta. cbn [uploads with_uploads].
  rewrite (dir_save_fresh _ _ _ Hfresh).
  unfold calculate_file_md5. rewrite (dir_read_staged _ _ _ Hfresh).
  cbn [fmap option_fmap option_map].
  rewrite (bool_decide_eq_false_2 (md5 content = "")) by exact Hmd5.
  rewrite (find_existing_staged md5 _ _ _ _ Hfresh).
  destruct (head (filter (λ f, md5 f.2 = md5 content) (uploads w))); reflexivity.
Qed.

End Deduplication.

Section SameBytesTwice.

Context (md5 : bytes → string) (e1 e2 : env) (w0 : world).
Context (filename1 filename2 : string) (content : bytes).

(** C5.  Two accepted uploads of the same bytes, one after the other, each
    drawing a uuid whose file names are still free: the session stored by
    the second upload carries the image uuid of the session stored by the
    first, and the second upload calls no segmentation.  (The digest of a
    file is never the empty text; the staged and final names of the first
    upload are free in the directory it finds, the staged name of the second
    in the directory the first upload leaves.) *)
Theorem same_bytes_same_identity :
  md5 content ≠ "" →
  PyPath.lower (PyPath.suffix filename1) ∈ allowed_extensions →
  PyPath.lower (PyPath.suffix filename2) ∈ allowed_extensions →
  uuid_text (uuid4_image e1) = true →
  "temp_" +:+ uuid4_image e1 +:+ PyPath.lower (PyPath.suffix filename1)
    ∉ dir_names (uploads w0) →
  uuid4_image e1 +:+ PyPath.lower (PyPath.suffix filename1)
    ∉ dir_names (uploads w0) →
  let w1 := (upload_image md5 e1 (Some (Some filename1, content)) w0).1 in
  "temp_" +:+ uuid4_image e2 +:+ PyPath.lower (PyPath.suffix filename2)
    ∉ dir_names (uploads w1) →
  let w2 := (upload_image md5 e2 (Some (Some filename2, content)) w1).1 in
  ∃ s1 s2 calls,
    user_sessions w1 !! uuid4_session e1 = Some s1 ∧
    user_sessions w2 !! uuid4_session e2 = Some s2 ∧
    s_image_uuid s2 = s_image_uuid s1 ∧
    trace w2 = trace w1 ++ calls ∧
    ∀ p, CallSegment p ∉ calls.
Proof.
  intros Hmd5 Hext1 Hext2 Huuid Htemp1 Hfinal1 w1 Htemp2 w2.
  set (ext1 := PyPath.lower (PyPath.suffix filename1)) in *.
  set (ext2 := PyPath.lower (PyPath.suffix filename2)) in *.
  set (temp1 := "temp_" +:+ uuid4_image e1 +:+ ext1) in *.
  set (temp2 := "temp_" +:+ uuid4_image e2 +:+ ext2) in *.
  assert (∃ s1 f,
    user_sessions w1 !! uuid4_session e1 = Some s1 ∧
    head (filter (λ f, md5 f.2 = md5 content) (uploads w1)) = Some f ∧
    PyPath.stem ("uploads/" +:+ f.1) = s_image_uuid s1) as (s1 & f & Hs1 & Hf & Hstem).
  { unfold w1. rewrite (upload_image_accepted md5 e1 w0 _ _ Hext1 Hmd5 Htemp1).
    cbv zeta. fold ext1. fold temp1.
    destruct (head (filter (λ f, md5 f.2 = md5 content) (uploads w0)))
      as [f|] eqn:Hfind.
    - destruct (upload_existing_image_result e1
                  (with_uploads w0 (uploads w0 ++ [(temp1, content)]))
                  (uuid4_session e1) (uuid4_image e1) ext1 temp1 (md5 content)
                  ("uploads/" +:+ f.1) content (uploads w0) eq_refl Htemp1)
        as (s1 & calls1 & r1 & E1 & Hid1 & _).
      rewrite E1. exists s1, f. cbn [fst user_sessions uploads].
      rewrite lookup_insert_eq. auto.
    - destruct (upload_new_image_result e1
                  (with_uploads w0 (uploads w0 ++ [(temp1, content)]))
                  (uuid4_session e1) (uuid4_image e1) ext1 temp1 (md5 content)
                  content (uploads w0) eq_refl Htemp1 Hfinal1)
        as (s1 & r1 & E1 & Hid1).
      rewrite E1. exists s1, (uuid4_image e1 +:+ ext1, content).
      cbn [fst snd user_sessions uploads].
      rewrite lookup_insert_eq. split; [reflexivity|]. split.
      + apply head_None in Hfind. rewrite filter_app, Hfind.
        rewrite filter_cons, decide_True by reflexivity. reflexivity.
      + rewrite Hid1. apply stem_of_upload_path; assumption. }
  exists s1. unfold w2.
  rewrite (upload_image_accepted md5 e2 w1 _ _ Hext2 Hmd5 Htemp2).
  cbv zeta. fold ext2. fold temp2. rewrite Hf.
  destruct (upload_existing_image_result e2
              (with_uploads w1 (uploads w1 ++ [(temp2, content)]))
              (uuid4_session e2) (uuid4_image e2) ext2 temp2 (md5 content)
              ("uploads/" +:+ f.1) content (uploads w1) eq_refl Htemp2)
    as (s2 & calls2 & r2 & E2 & Hid2 & Hcalls2).
  rewrite E2. exists s2, calls2. cbn [fst user_sessions uploads trace with_uploads].
  rewrite lookup_insert_eq. split; [exact Hs1|]. split; [reflexivity|].
  split; [congruence|]. split; [reflexivity | exact Hcalls2].
Qed.

End SameBytesTwice.

(** Uploading the three bytes [abc] as [photo.JPG] and then as [copy.png]
    into the sample state meets every premise. *)
Lemma same_bytes_same_identity_witness :
  let content := [x61%byte; x62%byte; x63%byte] in
  let w1 := (upload_image Samples.sample_md5 Samples.working_env
               (Some (Some "photo.JPG", content)) Samples.ready_world).1 in
  let w2 := (upload_image Samples.sample_md5 Samples.later_env
               (Some (Some "copy.png", content)) w1).1 in
  ∃ s1 s2 calls,
    user_sessions w1 !! uuid4_session Samples.working_env = Some s1 ∧
    user_sessions w2 !! uuid4_session Samples.later_env = Some s2 ∧
    s_image_uuid s2 = s_image_uuid s1 ∧
    trace w2 = trace w1 ++ calls ∧
    ∀ p, CallSegment p ∉ calls.
Proof.
  apply (same_bytes_same_identity Samples.sample_md5 Samples.working_env
           Samples.later_env Samples.ready_world "photo.JPG" "copy.png"
           [x61%byte; x62%byte; x63%byte]).
  - discriminate.
  - apply (bool_decide_unpack _). vm_compute. exact I.
  - apply (bool_decide_unpack _). vm_compute. exact I.
  - reflexivity.
  - apply (bool_decide_unpack _). vm_compute. exact I.
  - apply (bool_decide_unpack _). vm_compute. exact I.
  - apply (bool_decide_unpack _). vm_compute. exact I.
Defined.

(** On that input the shared identity is the uuid drawn by the first
    upload, and the second upload only calls the three later stages. *)
Lemma same_bytes_same_identity_example :
  let content := [x61%byte; x62%byte; x63%byte] in
  let w1 := (upload_image Samples.sample_md5 Samples.working_env
               (Some (Some "photo.JPG", content)) Samples.ready_world).1 in
  let w2 := (upload_image Samples.sample_md5 Samples.later_env
               (Some (Some "copy.png", content)) w1).1 in
  s_image_uuid <$> user_sessions w1 !! uuid4_session Samples.working_env
    = Some "b7a4e2d0-0000-4000-8000-000000000002" ∧
  s_image_uuid <$> user_sessions w2 !! uuid4_session Samples.later_env
    = Some "b7a4e2d0-0000-4000-8000-000000000002" ∧
  s_status <$> user_sessions w2 !! uuid4_session Samples.later_env
    = Some "preparation_completed" ∧
  fst <$> uploads w2
    = ["a.jpg"; "b7a4e2d0-0000-4000-8000-000000000002.jpg"] ∧
  trace w2 =
    [ CallSegment "uploads/b7a4e2d0-0000-4000-8000-000000000002.jpg";
      CallVariations "uploads/b7a4e2d0-0000-4000-8000-000000000002.jpg"
        "b7a4e2d0-0000-4000-8000-000000000002";
      CallExpressions
        "generated/avatars/b7a4e2d0-0000-4000-8000-000000000002_variation_1.png"
        "b7a4e2d0-0000-4000-8000-000000000002";
      CallPersonality
        "generated/avatars/b7a4e2d0-0000-4000-8000-000000000002_variation_1.png"
        "b7a4e2d0-0000-4000-8000-000000000002" ].
Proof. repeat split; vm_compute; reflexivity. Qed.

(** * Further properties *)

(** ** The completeness check, continued *)

(** On a store holding the eight files the check reports nothing, at 100. *)
Lemma check_preparation_completeness_complete (fs : gset string)
    (image_uuid original_image_path : string) :
  (∀ p, p ∈ required_variations image_uuid ++ required_expressions image_uuid
            ++ [required_personality image_uuid] → p ∈ fs) →
  check_preparation_completeness fs image_uuid original_image_path
    = Some (∅, 100%Z).
Proof.
  intros Hall. unfold check_preparation_completeness. cbv zeta.
  rewrite (proj2 (absent_paths_nil fs (required_variations image_uuid)))
    by (intros p Hp; apply Hall; rewrite !elem_of_app; auto).
  rewrite (proj2 (absent_paths_nil fs (required_expressions image_uuid)))
    by (intros p Hp; apply Hall; rewrite !elem_of_app; auto).
  rewrite bool_decide_eq_true_2
    by (apply Hall; rewrite !elem_of_app, list_elem_of_singleton; auto).
  rewrite map_size_empty. rewrite (completion_percentage_of_size 0) by lia.
  reflexivity.
Qed.

Section CompletenessMore.

Context (image_uuid original_image_path : string).

(** The percentage is a function of the number of reported groups. *)
Lemma check_preparation_completeness_pct (fs : gset string) missing pct :
  check_preparation_completeness fs image_uuid original_image_path
    = Some (missing, pct) →
  (size missing ≤ 3)%nat ∧
  pct = match size missing with
        | 0%nat => 100%Z
        | 1%nat => 66%Z
        | 2%nat => 33%Z
        | _ => 0%Z
        end.
Proof.
  unfold check_preparation_completeness. cbv zeta.
  destruct (absent_paths fs (required_variations image_uuid));
    destruct (absent_paths fs (required_expressions image_uuid));
    destruct (bool_decide (required_personality image_uuid ∈ fs));
    rewrite ?map_size_insert_None
      by (rewrite ?lookup_insert_ne by done; apply lookup_empty);
    rewrite map_size_empty;
    rewrite completion_percentage_of_size by lia;
    intros [= <- <-];
    rewrite ?map_size_insert_None
      by (rewrite ?lookup_insert_ne by done; apply lookup_empty);
    rewrite map_size_empty; split; (lia || reflexivity).
Qed.

(** Every key of a report is one of the three group names. *)
Lemma check_preparation_completeness_keys (fs : gset string) missing pct k :
  check_preparation_completeness fs image_uuid original_image_path
    = Some (missing, pct) →
  is_Some (missing !! k) →
  k = "variations" ∨ k = "expressions" ∨ k = "personality".
Proof.
  intros E Hk.
  destruct (check_preparation_completeness_lookup _ _ _ _ _ E) as (_ & _ & _ & Hn).
  destruct (decide (k = "variations")) as [|N1]; [by left|].
  destruct (decide (k = "expressions")) as [|N2]; [by right; left|].
  destruct (decide (k = "personality")) as [|N3]; [by right; right|].
  rewrite Hn in Hk by done. by destruct Hk.
Qed.

Lemma absent_paths_mono (fs fs' : gset string) (paths : list string) :
  fs ⊆ fs' → absent_paths fs' paths ≠ [] → absent_paths fs paths ≠ [].
Proof.
  intros Hsub. rewrite !absent_paths_cons_iff.
  intros (p & Hp & Hn). exists p. split; [exact Hp|]. set_solver.
Qed.

(** X1.  Storing more files never makes the check report more: every group
    reported on the larger store is reported on the smaller one, and the
    percentage does not go down. *)
Theorem completeness_monotone (fs fs' : gset string) missing pct missing' pct' :
  fs ⊆ fs' →
  check_preparation_completeness fs image_uuid original_image_path
    = Some (missing, pct) →
  check_preparation_completeness fs' image_uuid original_image_path
    = Some (missing', pct') →
  (∀ k, is_Some (missing' !! k) → is_Some (missing !! k)) ∧
  (pct ≤ pct')%Z.
Proof.
  intros Hsub E E'.
  assert (Hdom : ∀ k, is_Some (missing' !! k) → is_Some (missing !! k)).
  { intros k Hk.
    destruct (check_preparation_completeness_lookup _ _ _ _ _ E) as (Hv & He & Hp & _).
    destruct (check_preparation_completeness_lookup _ _ _ _ _ E') as (Hv' & He' & Hp' & _).
    destruct (check_preparation_completeness_keys _ _ _ _ E' Hk) as [-> | [-> | ->]].
    - rewrite Hv' in Hk. rewrite Hv.
      pose proof (absent_paths_mono fs fs' (required_variations image_uuid) Hsub) as M.
      destruct (absent_paths fs' (required_variations image_uuid));
        [by destruct Hk|].
      destruct (absent_paths fs (required_variations image_uuid));
        [by exfalso; apply M | by eexists].
    - rewrite He' in Hk. rewrite He.
      pose proof (absent_paths_mono fs fs' (required_expressions image_uuid) Hsub) as M.
      destruct (absent_paths fs' (required_expressions image_uuid));
        [by destruct Hk|].
      destruct (absent_paths fs (required_expressions image_uuid));
        [by exfalso; apply M | by eexists].
    - rewrite Hp' in Hk. rewrite Hp.
      destruct (bool_decide_reflect (required_personality image_uuid ∈ fs'));
        [by destruct Hk|].
      rewrite bool_decide_eq_false_2 by set_solver. by eexists. }
  split; [exact Hdom|].
  assert (Hsize : (size missing' ≤ size missing)%nat).
  { rewrite <- !size_dom. apply subseteq_size.
    intros k. rewrite !elem_of_dom. apply Hdom. }
  destruct (check_preparation_completeness_pct _ _ _ E) as [Hb ->].
  destruct (check_preparation_completeness_pct _ _ _ E') as [Hb' ->].
  destruct (size missing) as [|[|[|[|?]]]], (size missing') as [|[|[|[|?]]]]; lia.
Qed.

(** X2.  The check reports 100 exactly when it reports no group, and that is
    exactly when the four variations, the three expression clips and the
    personality file are all stored. *)
Theorem completeness_full_iff (fs : gset string) missing pct :
  check_preparation_completeness fs image_uuid original_image_path
    = Some (missing, pct) →
  (pct = 100%Z ↔ missing = ∅) ∧
  (missing = ∅ ↔
   ∀ p, p ∈ required_variations image_uuid ++ required_expressions image_uuid
            ++ [required_personality image_uuid] → p ∈ fs).
Proof.
  intros E. destruct (check_preparation_completeness_pct _ _ _ E) as [Hb ->].
  split.
  - rewrite <- map_size_empty_iff.
    destruct (size missing) as [|[|[|[|?]]]]; split; (lia || discriminate).
  - destruct (check_preparation_completeness_lookup _ _ _ _ _ E) as (Hv & He & Hp & Hn).
    pose proof (absent_paths_nil fs (required_variations image_uuid)) as Nv.
    pose proof (absent_paths_nil fs (required_expressions image_uuid)) as Ne.
    split.
    + intros ->. rewrite lookup_empty in Hv, He, Hp.
      intros p Hin. rewrite !elem_of_app, list_elem_of_singleton in Hin.
      destruct Hin as [Hin|[Hin| ->]].
      * apply Nv; [|exact Hin].
        destruct (absent_paths fs (required_variations image_uuid)); congruence.
      * apply Ne; [|exact Hin].
        destruct (absent_paths fs (required_expressions image_uuid)); congruence.
      * destruct (bool_decide_reflect (required_personality image_uuid ∈ fs));
          congruence.
    + intros Hall. apply map_eq. intros k. rewrite lookup_empty.
      destruct (missing !! k) eqn:Hk; [|reflexivity]. exfalso.
      destruct (check_preparation_completeness_keys _ _ _ k E) as [-> | [-> | ->]];
        [by eexists| | |].
      * rewrite Hv, (proj2 Nv) in Hk; [discriminate|].
        intros p Hin. apply Hall. rewrite !elem_of_app. auto.
      * rewrite He, (proj2 Ne) in Hk; [discriminate|].
        intros p Hin. apply Hall. rewrite !elem_of_app. auto.
      * rewrite Hp, bool_decide_eq_true_2 in Hk; [discriminate|].
        apply Hall. rewrite !elem_of_app, list_elem_of_singleton. auto.
Qed.

End CompletenessMore.

(** The empty store against a store holding the eight files of image [a]. *)
Lemma completeness_monotone_witness :
  ∃ missing,
    check_preparation_completeness ∅ "a" "uploads/a.jpg" = Some (missing, 0%Z) ∧
    check_preparation_completeness MoreSamples.complete_storage "a" "uploads/a.jpg"
      = Some (∅, 100%Z) ∧
    (0 ≤ 100)%Z.
Proof.
  eexists. split; [reflexivity|].
  assert (Hfull : check_preparation_completeness MoreSamples.complete_storage
                    "a" "uploads/a.jpg" = Some (∅, 100%Z)).
  { apply check_preparation_completeness_complete.
    intros p Hp. apply elem_of_list_to_set. exact Hp. }
  split; [exact Hfull|].
  eapply (completeness_monotone "a" "uploads/a.jpg" ∅ MoreSamples.complete_storage).
  - apply empty_subseteq.
  - reflexivity.
  - exact Hfull.
Defined.

(** The store that holds the eight files of image [a] is reported
    complete. *)
Lemma completeness_full_iff_witness :
  check_preparation_completeness MoreSamples.complete_storage "a" "uploads/a.jpg"
    = Some (∅, 100%Z) ∧
  ∀ p, p ∈ required_variations "a" ++ required_expressions "a"
           ++ [required_personality "a"] →
       p ∈ MoreSamples.complete_storage.
Proof.
  assert (Hfull : check_preparation_completeness MoreSamples.complete_storage
                    "a" "uploads/a.jpg" = Some (∅, 100%Z)).
  { apply check_preparation_completeness_complete.
    intros p Hp. apply elem_of_list_to_set. exact Hp. }
  split; [exact Hfull|].
  apply (completeness_full_iff "a" "uploads/a.jpg" MoreSamples.complete_storage
           ∅ 100%Z Hfull).
  reflexivity.
Defined.

(** ** The upload handler, continued *)

Section UploadMore.

Context (md5 : bytes → string).

(** A staged file never has the name of the file it is renamed to. *)
Lemma staged_name_differs (file_name : string) :
  "temp_" +:+ file_name ≠ file_name.
Proof.
  intros H. apply (f_equal String.length) in H.
  cbv [String.append] in H. simpl in H. lia.
Qed.

(** X3.  The search finds a file exactly when some file other than the staged
    one has the digest; the path it returns names such a file, under
    [uploads/]. *)
Theorem find_existing_image_by_md5_spec (dir : list (string * bytes))
    (md5_hash original_filename : string) :
  (∀ path,
     find_existing_image_by_md5 md5 dir md5_hash original_filename = Some path →
     ∃ f, f ∈ dir ∧ path = "uploads/" +:+ f.1 ∧ md5 f.2 = md5_hash ∧
          f.1 ≠ original_filename) ∧
  (find_existing_image_by_md5 md5 dir md5_hash original_filename = None ↔
   ∀ f, f ∈ dir → md5 f.2 = md5_hash → f.1 = original_filename).
Proof.
  unfold find_existing_image_by_md5.
  set (P := λ f : string * bytes, md5 f.2 = md5_hash ∧ f.1 ≠ original_filename).
  split.
  - intros path H.
    destruct (head (filter P dir)) as [f|] eqn:Hf; [|discriminate].
    injection H as <-. exists f.
    assert (Hin : f ∈ filter P dir).
    { destruct (filter P dir); [discriminate|]. injection Hf as ->. left. }
    apply list_elem_of_filter in Hin as [[Hm Hn] Hin]. auto.
  - split.
    + intros H f Hin Hm.
      destruct (head (filter P dir)) as [g|] eqn:Hg; [discriminate|].
      apply head_None in Hg.
      destruct (decide (f.1 = original_filename)) as [|Hne]; [done|].
      exfalso. assert (Hf : f ∈ filter P dir).
      { apply list_elem_of_filter. split; [split|]; assumption. }
      rewrite Hg in Hf. by apply elem_of_nil in Hf.
    + intros H. destruct (head (filter P dir)) as [g|] eqn:Hg; [|reflexivity].
      exfalso. assert (Hin : g ∈ filter P dir).
      { destruct (filter P dir); [discriminate|]. injection Hg as ->. left. }
      apply list_elem_of_filter in Hin as [[Hm Hn] Hin]. apply Hn, H; assumption.
Qed.

Context (e : env) (w : world) (filename : string) (content : bytes).

(** X4.  An upload whose bytes match an earlier image that is complete on disk
    calls no generator at all: it removes the staged copy, stores a
    [ready_for_chat] session carrying the earlier image's uuid and canonical
    asset paths, and answers with 100 percent. *)
Theorem upload_known_complete_image (f : string * bytes) :
  PyPath.lower (PyPath.suffix filename) ∈ allowed_extensions →
  md5 content ≠ "" →
  "temp_" +:+ uuid4_image e +:+ PyPath.lower (PyPath.suffix filename)
    ∉ dir_names (uploads w) →
  head (filter (λ f, md5 f.2 = md5 content) (uploads w)) = Some f →
  (∀ p, p ∈ required_variations (PyPath.stem ("uploads/" +:+ f.1))
            ++ required_expressions (PyPath.stem ("uploads/" +:+ f.1))
            ++ [required_personality (PyPath.stem ("uploads/" +:+ f.1))] →
        p ∈ storage e) →
  ∃ s,
    upload_image md5 e (Some (Some filename, content)) w
      = ({| user_sessions := <[uuid4_session e := s]> (user_sessions w);
            uploads := uploads w;
            trace := trace w |},
         UploadReadyForChat (uuid4_session e) 100) ∧
    s_image_uuid s = PyPath.stem ("uploads/" +:+ f.1) ∧
    s_original_image_path s = "uploads/" +:+ f.1 ∧
    s_status s = "ready_for_chat" ∧
    s_variations s
      = Some (required_variations (PyPath.stem ("uploads/" +:+ f.1))).
Proof.
  intros Hext Hmd5 Htemp Hf Hall.
  rewrite (upload_image_accepted md5 e w _ _ Hext Hmd5 Htemp). cbv zeta.
  rewrite Hf. unfold upload_existing_image.
  cbn [uploads with_uploads].
  rewrite (dir_unlink_staged _ _ _ Htemp).
  rewrite (check_preparation_completeness_complete _ _ _ Hall).
  rewrite bool_decide_eq_true_2 by apply map_size_empty.
  eexists. split; [reflexivity|]. repeat split.
Qed.

(** X5.  An upload whose bytes match no stored file becomes a new image: the
    staged file is renamed after the uuid drawn, segmentation is called
    once on it, and the [uploaded] session records what segmentation
    returned, or the stored original itself when segmentation raised. *)
Theorem upload_new_image_session :
  PyPath.lower (PyPath.suffix filename) ∈ allowed_extensions →
  md5 content ≠ "" →
  "temp_" +:+ uuid4_image e +:+ PyPath.lower (PyPath.suffix filename)
    ∉ dir_names (uploads w) →
  uuid4_image e +:+ PyPath.lower (PyPath.suffix filename)
    ∉ dir_names (uploads w) →
  head (filter (λ f, md5 f.2 = md5 content) (uploads w)) = None →
  let final_filename := uuid4_image e +:+ PyPath.lower (PyPath.suffix filename) in
  let upload_path := "uploads/" +:+ final_filename in
  let segmented :=
    match segment_image e upload_path with
    | Ret segmented_path => segmented_path
    | Raise _ => upload_path
    end in
  ∃ s,
    upload_image md5 e (Some (Some filename, content)) w
      = ({| user_sessions := <[uuid4_session e := s]> (user_sessions w);
            uploads := uploads w ++ [(final_filename, content)];
            trace := trace w ++ [CallSegment upload_path] |},
         UploadNew (uuid4_session e) upload_path segmented) ∧
    s_image_uuid s = uuid4_image e ∧
    s_original_image_path s = upload_path ∧
    s_segmented_image s = segmented ∧
    s_status s = "uploaded" ∧
    s_variations s = None ∧
    s_md5 s = md5 content.
Proof.
  intros Hext Hmd5 Htemp Hfinal Hf.
  rewrite (upload_image_accepted md5 e w _ _ Hext Hmd5 Htemp). cbv zeta.
  rewrite Hf. unfold upload_new_image. cbn [uploads with_uploads].
  rewrite (dir_rename_staged _ _ _ _ Htemp Hfinal).
  eexists. split; [reflexivity|]. repeat split.
Qed.

(** X6.  An accepted upload leaves no staged file behind and keeps the uploads
    directory free of duplicate digests: the directory comes back as it
    was, or with the one new image added. *)
Theorem upload_keeps_directory_duplicate_free :
  PyPath.lower (PyPath.suffix filename) ∈ allowed_extensions →
  md5 content ≠ "" →
  "temp_" +:+ uuid4_image e +:+ PyPath.lower (PyPath.suffix filename)
    ∉ dir_names (uploads w) →
  uuid4_image e +:+ PyPath.lower (PyPath.suffix filename)
    ∉ dir_names (uploads w) →
  NoDup ((λ f, md5 f.2) <$> uploads w) →
  let w' := (upload_image md5 e (Some (Some filename, content)) w).1 in
  NoDup ((λ f, md5 f.2) <$> uploads w') ∧
  ("temp_" +:+ uuid4_image e +:+ PyPath.lower (PyPath.suffix filename)
     ∉ dir_names (uploads w')) ∧
  (uploads w' = uploads w ∨
   uploads w' = uploads w
     ++ [(uuid4_image e +:+ PyPath.lower (PyPath.suffix filename), content)]).
Proof.
  intros Hext Hmd5 Htemp Hfinal Hnd w'. unfold w'.
  rewrite (upload_image_accepted md5 e w _ _ Hext Hmd5 Htemp). cbv zeta.
  set (ext := PyPath.lower (PyPath.suffix filename)) in *.
  set (temp := "temp_" +:+ uuid4_image e +:+ ext) in *.
  destruct (head (filter (λ f, md5 f.2 = md5 content) (uploads w)))
    as [f|] eqn:Hf.
  - destruct (upload_existing_image_result e
                (with_uploads w (uploads w ++ [(temp, content)]))
                (uuid4_session e) (uuid4_image e) ext temp (md5 content)
                ("uploads/" +:+ f.1) content (uploads w) eq_refl Htemp)
      as (s & calls & r & E & _).
    rewrite E. cbn [fst uploads]. auto.
  - destruct (upload_new_image_result e
                (with_uploads w (uploads w ++ [(temp, content)]))
                (uuid4_session e) (uuid4_image e) ext temp (md5 content)
                content (uploads w) eq_refl Htemp Hfinal)
      as (s & r & E & _).
    rewrite E. cbn [fst uploads]. split; [|split; [|by right]].
    + rewrite fmap_app. apply NoDup_app. split; [exact Hnd|].
      split; [|apply NoDup_singleton].
      intros h Hin Hin'. apply list_elem_of_singleton in Hin'. simpl in Hin'.
      apply list_elem_of_fmap in Hin as (g & -> & Hg).
      apply head_None in Hf.
      assert (Hg' : g ∈ filter (λ f, md5 f.2 = md5 content) (uploads w)).
      { apply list_elem_of_filter. auto. }
      rewrite Hf in Hg'. by apply elem_of_nil in Hg'.
    + unfold dir_names. rewrite fmap_app. intros Hin.
      apply elem_of_app in Hin as [Hin|Hin]; [by apply Htemp|].
      apply list_elem_of_singleton in Hin. simpl in Hin.
      by apply (staged_name_differs (uuid4_image e +:+ ext)).
Qed.

End UploadMore.

(** The byte [a], already stored as [a.jpg] and complete on disk, uploaded
    again as [photo.JPG]. *)
Lemma upload_known_complete_image_witness :
  ∃ s,
    upload_image Samples.sample_md5 MoreSamples.complete_env
      (Some (Some "photo.JPG", [x61%byte])) Samples.ready_world
    = ({| user_sessions :=
            <[uuid4_session MoreSamples.complete_env := s]>
              (user_sessions Samples.ready_world);
          uploads := uploads Samples.ready_world;
          trace := trace Samples.ready_world |},
       UploadReadyForChat (uuid4_session MoreSamples.complete_env) 100) ∧
    s_image_uuid s = "a".
Proof.
  destruct (upload_known_complete_image Samples.sample_md5 MoreSamples.complete_env
              Samples.ready_world "photo.JPG" [x61%byte] ("a.jpg", [x61%byte]))
    as (s & Hup & Huuid & _).
  - apply (bool_decide_unpack _). vm_compute. exact I.
  - discriminate.
  - apply (bool_decide_unpack _). vm_compute. exact I.
  - reflexivity.
  - intros p Hp. apply elem_of_list_to_set. exact Hp.
  - exists s. split; [exact Hup | exact Huuid].
Defined.

(** The three bytes [abc] uploaded as [photo.JPG] into the sample state. *)
Lemma upload_new_image_session_witness :
  ∃ s,
    (upload_image Samples.sample_md5 Samples.working_env
       (Some (Some "photo.JPG", [x61%byte; x62%byte; x63%byte]))
       Samples.ready_world).2
    = UploadNew (uuid4_session Samples.working_env)
        "uploads/b7a4e2d0-0000-4000-8000-000000000002.jpg"
        "temp/processing/segmented_b7a4e2d0-0000-4000-8000-000000000002.jpg" ∧
    s_status s = "uploaded" ∧
    s_md5 s = "900150983cd24fb0d6963f7d28e17f72".
Proof.
  destruct (upload_new_image_session Samples.sample_md5 Samples.working_env
              Samples.ready_world "photo.JPG" [x61%byte; x62%byte; x63%byte])
    as (s & Hup & _ & _ & _ & Hstatus & _ & Hmd5).
  - apply (bool_decide_unpack _). vm_compute. exact I.
  - discriminate.
  - apply (bool_decide_unpack _). vm_compute. exact I.
  - apply (bool_decide_unpack _). vm_compute. exact I.
  - reflexivity.
  - exists s. split; [|split; [exact Hstatus | exact Hmd5]].
    rewrite Hup. reflexivity.
Defined.

(** The sample directory holds one file; it stays free of duplicates after
    the upload of [abc]. *)
Lemma upload_keeps_directory_duplicate_free_witness :
  NoDup ((λ f, Samples.sample_md5 f.2) <$> uploads Samples.ready_world) ∧
  NoDup ((λ f, Samples.sample_md5 f.2) <$>
           uploads (upload_image Samples.sample_md5 Samples.working_env
                      (Some (Some "photo.JPG", [x61%byte; x62%byte; x63%byte]))
                      Samples.ready_world).1).
Proof.
  assert (Hdir : NoDup ((λ f, Samples.sample_md5 f.2) <$> uploads Samples.ready_world)).
  { apply (bool_decide_unpack _). vm_compute. exact I. }
  split; [exact Hdir|].
  apply (upload_keeps_directory_duplicate_free Samples.sample_md5 Samples.working_env
           Samples.ready_world "photo.JPG" [x61%byte; x62%byte; x63%byte]).
  - apply (bool_decide_unpack _). vm_compute. exact I.
  - discriminate.
  - apply (bool_decide_unpack _). vm_compute. exact I.
  - apply (bool_decide_unpack _). vm_compute. exact I.
  - exact Hdir.
Defined.

(** ** The variations and selection handlers, continued *)

Section HandlersMore.

Context (e : env) (w : world) (session_id : string) (session : session).

(** X7.  What a variations request does to a stored session: the generator is
    called once, on the session's segmented image.  When it returns, the
    session holds the returned list, its length as count, and is
    [variations_ready]; when it raises, the answer is 500 GENERATION_ERROR
    and the session stays at [generating_variations] with whatever
    variations it had. *)
Theorem generate_avatar_variations_outcome :
  session_id ≠ "" →
  user_sessions w !! session_id = Some session →
  ∃ s',
    (generate_avatar_variations e (Some (Some session_id)) w).1
      = {| user_sessions := <[session_id := s']> (user_sessions w);
           uploads := uploads w;
           trace := trace w ++ [CallVariations (s_segmented_image session)
                                  (s_image_uuid session)] |} ∧
    s_image_uuid s' = s_image_uuid session ∧
    s_segmented_image s' = s_segmented_image session ∧
    match generate_cartoon_variations e (s_segmented_image session)
            (s_image_uuid session) with
    | Ret variations =>
        (generate_avatar_variations e (Some (Some session_id)) w).2
          = VariationsGenerated session_id variations ∧
        s_status s' = "variations_ready" ∧
        s_step s' = "variations_generated" ∧
        s_variations s' = Some variations ∧
        s_variations_count s' = Some (length variations)
    | Raise _ =>
        (generate_avatar_variations e (Some (Some session_id)) w).2
          = Error 500 "GENERATION_ERROR" ∧
        s_status s' = "generating_variations" ∧
        s_step s' = "generating_variations" ∧
        s_variations s' = s_variations session ∧
        s_variations_count s' = s_variations_count session
    end.
Proof.
  intros Hid Hs. unfold generate_avatar_variations.
  rewrite (bool_decide_eq_false_2 (session_id = "")) by exact Hid.
  rewrite Hs.
  destruct (generate_cartoon_variations e (s_segmented_image session)
              (s_image_uuid session)) as [variations|msg].
  - eexists. split.
    { unfold with_sessions, with_calls. cbn [fst user_sessions uploads trace].
      rewrite insert_insert_eq. reflexivity. }
    repeat split.
  - eexists. split; [reflexivity|]. repeat split.
Qed.

(** The full effect of a selection with an index in range. *)
Lemma select_avatar_in_range (selected_index : Z) (selected_avatar : string) :
  session_id ≠ "" →
  user_sessions w !! session_id = Some session →
  (0 ≤ selected_index)%Z →
  default [] (s_variations session) !! Z.to_nat selected_index
    = Some selected_avatar →
  select_avatar e (Some (Some session_id, Some selected_index)) w =
    let image_uuid := s_image_uuid session in
    let expressions :=
      match generate_expressions e selected_avatar image_uuid with
      | Ret expressions => expressions
      | Raise _ => placeholder_expressions e image_uuid
      end in
    let personality :=
      match generate_personality e selected_avatar image_uuid with
      | Ret personality_result => personality_of_result personality_result
      | Raise _ => default_personality
      end in
    ({| user_sessions :=
          <[session_id :=
              {| s_session_id := s_session_id session;
                 s_image_uuid := s_image_uuid session;
                 s_original_image_path := s_original_image_path session;
                 s_segmented_image := s_segmented_image session;
                 s_variations := s_variations session;
                 s_expressions := Some expressions;
                 s_personality_file := s_personality_file session;
                 s_personality := Some personality;
                 s_status := "ready";
                 s_created_at := s_created_at session;
                 s_step := "preparation_complete";
                 s_md5 := s_md5 session;
                 s_auto_completed := s_auto_completed session;
                 s_variations_count := s_variations_count session;
                 s_selected_avatar := Some selected_avatar;
                 s_selected_index := Some selected_index;
                 s_completed_at := Some (now e) |}]> (user_sessions w);
        uploads := uploads w;
        trace := trace w ++ [CallExpressions selected_avatar image_uuid;
                             CallPersonality selected_avatar image_uuid] |},
     AvatarSelected session_id selected_index selected_avatar personality
       expressions).
Proof.
  intros Hid Hs Hpos Hl. unfold select_avatar.
  rewrite (bool_decide_eq_false_2 (session_id = "")) by exact Hid.
  rewrite Hs.
  assert (Hlt : (Z.to_nat selected_index < length (default [] (s_variations session)))%nat).
  { eapply lookup_lt_Some, Hl. }
  rewrite bool_decide_eq_false_2 by lia.
  rewrite Hl. cbv zeta. unfold with_sessions, with_calls.
  cbn [fst user_sessions uploads trace].
  rewrite insert_insert_eq. reflexivity.
Qed.

(** X8.  A selection with an index in range always succeeds, whatever the two
    generators do: the session ends [ready] with the chosen variation, the
    clock's time of completion, a personality that is the generator's
    [personality_data] or else the default profile, and expressions that are
    the generator's mapping or else one placeholder per configured emotion. *)
Theorem select_avatar_valid_index (selected_index : Z) (selected_avatar : string) :
  session_id ≠ "" →
  user_sessions w !! session_id = Some session →
  (0 ≤ selected_index)%Z →
  default [] (s_variations session) !! Z.to_nat selected_index
    = Some selected_avatar →
  ∃ s' personality expressions,
    select_avatar e (Some (Some session_id, Some selected_index)) w
      = ({| user_sessions := <[session_id := s']> (user_sessions w);
            uploads := uploads w;
            trace := trace w ++
              [CallExpressions selected_avatar (s_image_uuid session);
               CallPersonality selected_avatar (s_image_uuid session)] |},
         AvatarSelected session_id selected_index selected_avatar personality
           expressions) ∧
    s_status s' = "ready" ∧
    s_step s' = "preparation_complete" ∧
    s_completed_at s' = Some (now e) ∧
    s_selected_avatar s' = Some selected_avatar ∧
    s_selected_index s' = Some selected_index ∧
    s_variations s' = s_variations session ∧
    s_image_uuid s' = s_image_uuid session ∧
    s_personality s' = Some personality ∧
    s_expressions s' = Some expressions ∧
    (personality = default_personality ∨
     generate_personality e selected_avatar (s_image_uuid session)
       = Ret (PersonalityDict None (Some personality))) ∧
    (generate_expressions e selected_avatar (s_image_uuid session)
       = Ret expressions ∨
     (∃ msg, generate_expressions e selected_avatar (s_image_uuid session)
               = Raise msg) ∧
     dom expressions = list_to_set (expression_emotions e)).
Proof.
  intros Hid Hs Hpos Hl.
  rewrite (select_avatar_in_range _ _ Hid Hs Hpos Hl). cbv zeta.
  eexists _, _, _. split; [reflexivity|].
  cbn [s_status s_step s_completed_at s_selected_avatar s_selected_index
       s_variations s_image_uuid s_personality s_expressions].
  repeat (split; [reflexivity|]). split.
  - destruct (generate_personality e selected_avatar (s_image_uuid session))
      as [r|msg]; [|by left].
    destruct (personality_of_result_cases r) as [->|E]; [by left|].
    right. by rewrite <- E.
  - destruct (generate_expressions e selected_avatar (s_image_uuid session))
      as [m|msg]; [by left|].
    right. split; [by eexists|].
    unfold placeholder_expressions. rewrite dom_list_to_map_L.
    rewrite <- list_fmap_compose. f_equal.
    induction (expression_emotions e) as [|x l IH]; [reflexivity|].
    rewrite fmap_cons, IH. reflexivity.
Qed.

End HandlersMore.

(** A variations request for the sample session. *)
Lemma generate_avatar_variations_outcome_witness :
  ∃ s',
    user_sessions
      (generate_avatar_variations Samples.working_env
         (Some (Some "5d1f0c9e-0000-4000-8000-000000000001")) Samples.ready_world).1
      !! "5d1f0c9e-0000-4000-8000-000000000001" = Some s' ∧
    s_image_uuid s' = "a".
Proof.
  destruct (generate_avatar_variations_outcome Samples.working_env Samples.ready_world
              "5d1f0c9e-0000-4000-8000-000000000001" Samples.ready_session)
    as (s' & Hw & Huuid & _).
  - discriminate.
  - reflexivity.
  - exists s'. split; [|exact Huuid].
    rewrite Hw. apply lookup_insert_eq.
Defined.

(** The second variation of the sample session is selected. *)
Lemma select_avatar_valid_index_witness :
  ∃ s',
    user_sessions
      (select_avatar Samples.working_env
         (Some (Some "5d1f0c9e-0000-4000-8000-000000000001", Some 1%Z))
         Samples.ready_world).1
      !! "5d1f0c9e-0000-4000-8000-000000000001" = Some s' ∧
    s_selected_avatar s' = Some "generated/avatars/a_variation_2.png".
Proof.
  destruct (select_avatar_valid_index Samples.working_env Samples.ready_world
              "5d1f0c9e-0000-4000-8000-000000000001" Samples.ready_session
              1%Z "generated/avatars/a_variation_2.png")
    as (s' & personality & expressions & Hsel & _ & _ & _ & Havatar & _).
  - discriminate.
  - reflexivity.
  - lia.
  - reflexivity.
  - exists s'. split; [|exact Havatar].
    rewrite Hsel. apply lookup_insert_eq.
Defined.

(** ** From a new upload to a ready session *)

Section Pipeline.

Context (md5 : bytes → string) (e0 e1 e2 : env) (w : world).
Context (filename : string) (content : bytes).

(** The effect of a variations request whose generator returns. *)
Lemma generate_avatar_variations_returns (w0 : world) (session_id : string)
    (session : session) (variations : list string) :
  session_id ≠ "" →
  user_sessions w0 !! session_id = Some session →
  generate_cartoon_variations e1 (s_segmented_image session)
    (s_image_uuid session) = Ret variations →
  generate_avatar_variations e1 (Some (Some session_id)) w0 =
    ({| user_sessions :=
          <[session_id :=
              {| s_session_id := s_session_id session;
                 s_image_uuid := s_image_uuid session;
                 s_original_image_path := s_original_image_path session;
                 s_segmented_image := s_segmented_image session;
                 s_variations := Some variations;
                 s_expressions := s_expressions session;
                 s_personality_file := s_personality_file session;
                 s_personality := s_personality session;
                 s_status := "variations_ready";
                 s_created_at := s_created_at session;
                 s_step := "variations_generated";
                 s_md5 := s_md5 session;
                 s_auto_completed := s_auto_completed session;
                 s_variations_count := Some (length variations);
                 s_selected_avatar := s_selected_avatar session;
                 s_selected_index := s_selected_index session;
                 s_completed_at := s_completed_at session |}]> (user_sessions w0);
        uploads := uploads w0;
        trace := trace w0 ++ [CallVariations (s_segmented_image session)
                                (s_image_uuid session)] |},
     VariationsGenerated session_id variations).
Proof.
  intros Hid Hs Hgen. unfold generate_avatar_variations.
  rewrite (bool_decide_eq_false_2 (session_id = "")) by exact Hid.
  rewrite Hs, Hgen. unfold with_sessions, with_calls.
  cbn [fst user_sessions uploads trace].
  rewrite insert_insert_eq. reflexivity.
Qed.

(** X9.  A new image uploaded, its variations generated and the first one
    selected: three requests take the session from nothing to [ready].  The
    session keeps the uuid drawn at upload and the stored original; the
    variations generator is asked with what segmentation produced (or the
    original); the four generator calls are made in pipeline order. *)
Theorem new_upload_to_ready (first : string) (others : list string) :
  PyPath.lower (PyPath.suffix filename) ∈ allowed_extensions →
  md5 content ≠ "" →
  "temp_" +:+ uuid4_image e0 +:+ PyPath.lower (PyPath.suffix filename)
    ∉ dir_names (uploads w) →
  uuid4_image e0 +:+ PyPath.lower (PyPath.suffix filename)
    ∉ dir_names (uploads w) →
  head (filter (λ f, md5 f.2 = md5 content) (uploads w)) = None →
  uuid4_session e0 ≠ "" →
  let upload_path :=
    "uploads/" +:+ (uuid4_image e0 +:+ PyPath.lower (PyPath.suffix filename)) in
  let segmented :=
    match segment_image e0 upload_path with
    | Ret segmented_path => segmented_path
    | Raise _ => upload_path
    end in
  generate_cartoon_variations e1 segmented (uuid4_image e0)
    = Ret (first :: others) →
  let w1 := (upload_image md5 e0 (Some (Some filename, content)) w).1 in
  let w2 := (generate_avatar_variations e1 (Some (Some (uuid4_session e0))) w1).1 in
  let w3 := (select_avatar e2 (Some (Some (uuid4_session e0), Some 0%Z)) w2).1 in
  ∃ s,
    user_sessions w3 !! uuid4_session e0 = Some s ∧
    s_status s = "ready" ∧
    s_image_uuid s = uuid4_image e0 ∧
    s_original_image_path s = upload_path ∧
    s_variations s = Some (first :: others) ∧
    s_selected_avatar s = Some first ∧
    s_md5 s = md5 content ∧
    uploads w3 = uploads w
      ++ [(uuid4_image e0 +:+ PyPath.lower (PyPath.suffix filename), content)] ∧
    trace w3 = trace w ++
      [CallSegment upload_path;
       CallVariations segmented (uuid4_image e0);
       CallExpressions first (uuid4_image e0);
       CallPersonality first (uuid4_image e0)].
Proof.
  intros Hext Hmd5 Htemp Hfinal Hf Hsid upload_path segmented Hgen w1 w2 w3.
  assert (E1 : ∃ s1,
    w1 = {| user_sessions := <[uuid4_session e0 := s1]> (user_sessions w);
            uploads := uploads w
              ++ [(uuid4_image e0 +:+ PyPath.lower (PyPath.suffix filename), content)];
            trace := trace w ++ [CallSegment upload_path] |} ∧
    s_image_uuid s1 = uuid4_image e0 ∧ s_segmented_image s1 = segmented ∧
    s_original_image_path s1 = upload_path ∧ s_md5 s1 = md5 content).
  { unfold w1.
    rewrite (upload_image_accepted md5 e0 w _ _ Hext Hmd5 Htemp). cbv zeta.
    rewrite Hf. unfold upload_new_image. cbn [uploads with_uploads].
    rewrite (dir_rename_staged _ _ _ _ Htemp Hfinal).
    eexists. split; [reflexivity|]. repeat split. }
  destruct E1 as (s1 & E1 & Hu1 & Hseg1 & Ho1 & Hm1).
  assert (Hl1 : user_sessions w1 !! uuid4_session e0 = Some s1).
  { rewrite E1. cbn [user_sessions]. apply lookup_insert_eq. }
  assert (Hgen1 : generate_cartoon_variations e1 (s_segmented_image s1)
                    (s_image_uuid s1) = Ret (first :: others)).
  { by rewrite Hseg1, Hu1. }
  pose proof (generate_avatar_variations_returns w1 _ _ _ Hsid Hl1 Hgen1) as E2.
  assert (Hl2 : ∃ s2, user_sessions w2 !! uuid4_session e0 = Some s2 ∧
                 s_variations s2 = Some (first :: others) ∧
                 s_image_uuid s2 = uuid4_image e0 ∧
                 s_original_image_path s2 = upload_path ∧
                 s_md5 s2 = md5 content).
  { unfold w2. rewrite E2. cbn [fst user_sessions].
    rewrite lookup_insert_eq. eexists. split; [reflexivity|].
    cbn [s_variations s_image_uuid s_original_image_path s_md5]. auto. }
  destruct Hl2 as (s2 & Hl2 & Hv2 & Hu2 & Ho2 & Hm2).
  assert (Hidx : default [] (s_variations s2) !! Z.to_nat 0 = Some first).
  { rewrite Hv2. reflexivity. }
  pose proof (select_avatar_in_range e2 w2 _ _ 0%Z first Hsid Hl2
                ltac:(lia) Hidx) as E3.
  unfold w3. rewrite E3. cbv zeta. cbn [fst user_sessions uploads trace].
  rewrite lookup_insert_eq. eexists. split; [reflexivity|].
  cbn [s_status s_image_uuid s_original_image_path s_variations
       s_selected_avatar s_md5].
  split; [reflexivity|]. split; [exact Hu2|]. split; [exact Ho2|].
  split; [exact Hv2|]. split; [reflexivity|]. split; [exact Hm2|].
  unfold w2. rewrite E2. cbn [fst uploads trace]. rewrite E1.
  cbn [uploads trace]. split; [reflexivity|].
  rewrite Hseg1, Hu1, Hu2, <- !app_assoc. reflexivity.
Qed.

End Pipeline.

(** The three bytes [abc] taken through upload, variations and selection. *)
Lemma new_upload_to_ready_witness :
  let w1 := (upload_image Samples.sample_md5 Samples.working_env
               (Some (Some "photo.JPG", [x61%byte; x62%byte; x63%byte]))
               Samples.ready_world).1 in
  let w2 := (generate_avatar_variations Samples.later_env
               (Some (Some (uuid4_session Samples.working_env))) w1).1 in
  let w3 := (select_avatar Samples.later_env
               (Some (Some (uuid4_session Samples.working_env), Some 0%Z)) w2).1 in
  ∃ s,
    user_sessions w3 !! uuid4_session Samples.working_env = Some s ∧
    s_status s = "ready" ∧
    s_image_uuid s = uuid4_image Samples.working_env.
Proof.
  destruct (new_upload_to_ready Samples.sample_md5 Samples.working_env
              Samples.later_env Samples.later_env Samples.ready_world
              "photo.JPG" [x61%byte; x62%byte; x63%byte]
              "generated/avatars/b7a4e2d0-0000-4000-8000-000000000002_variation_1.png"
              (tail (required_variations (uuid4_image Samples.working_env))))
    as (s & Hs & Hstatus & Huuid & _).
  - apply (bool_decide_unpack _). vm_compute. exact I.
  - discriminate.
  - apply (bool_decide_unpack _). vm_compute. exact I.
  - apply (bool_decide_unpack _). vm_compute. exact I.
  - reflexivity.
  - discriminate.
  - reflexivity.
  - exists s. split; [exact Hs|]. split; [exact Hstatus | exact Huuid].
Defined.

(** ** Auto-repair, continued *)

Section AutoRepairMore.

Context (e : env) (image_uuid original_image_path : string).
Context (missing_files : gmap string missing_entry).

(** X10.  The repair makes at most one call per stage, in pipeline order, and
    only for stages in the missing set.  The variations generator is asked
    with the segmented image of this repair or else the original; the
    expressions generator with the first variation of this repair. *)
Theorem repair_calls_in_order :
  ∃ completed calls,
    complete_missing_preparation e image_uuid original_image_path missing_files
      = (Ret completed, calls) ∧
    let source := default original_image_path (cf_segmented_image completed) in
    let first := hd "" (default [] (cf_variations completed)) in
    let avatar := if bool_decide (first = "") then source else first in
    sublist calls
      [CallSegment original_image_path;
       CallVariations source image_uuid;
       CallExpressions first image_uuid;
       CallPersonality avatar image_uuid] ∧
    (CallSegment original_image_path ∈ calls →
       is_Some (missing_files !! "segmented_image")) ∧
    (CallVariations source image_uuid ∈ calls →
       is_Some (missing_files !! "variations")) ∧
    (CallExpressions first image_uuid ∈ calls →
       is_Some (missing_files !! "expressions")) ∧
    (CallPersonality avatar image_uuid ∈ calls →
       is_Some (missing_files !! "personality")).
Proof.
  unfold complete_missing_preparation.
  destruct (has_key "segmented_image" missing_files) eqn:Hs;
    destruct (has_key "variations" missing_files) eqn:Hv;
    destruct (has_key "expressions" missing_files) eqn:He;
    destruct (has_key "personality" missing_files) eqn:Hp.
  all: repeat match goal with
    | H : has_key _ _ = true |- _ => rewrite has_key_true in H
    | H : has_key _ _ = false |- _ => clear H
    end.
  all: repeat (cbn [cf_segmented_image cf_variations cf_expressions cf_personality
                    default repair_avatar_image fst snd];
    match goal with
    | |- context [match ?x with _ => _ end] =>
        lazymatch x with
        | context [match _ with _ => _ end] => fail
        | _ => destruct x eqn:?
        end
    end).
  all: eexists _, _; (split; [reflexivity|]).
  all: cbn [cf_segmented_image cf_variations default from_option id hd app].
  all: repeat match goal with H : bool_decide _ = _ |- _ => rewrite ?H; clear H end.
  all: try rewrite (bool_decide_eq_true_2 ("" = "")) by reflexivity.
  all: split; [repeat constructor|].
  all: repeat split; intros Hin; try assumption; exfalso.
  all: repeat (apply elem_of_cons in Hin as [Hin|Hin]; [discriminate Hin|]).
  all: by apply elem_of_nil in Hin.
Qed.

End AutoRepairMore.

(** ** Chat sessions *)

Section ChatSessions.

Import ChatHistory.

Lemma py_slice_from_last {A : Type} (k : Z) (l : list A) :
  (1 ≤ k)%Z →
  py_slice_from (- k) l = drop (length l - Z.to_nat k) l.
Proof.
  intros Hk. unfold py_slice_from.
  destruct (Z.ltb_spec (- k) 0); [|lia].
  f_equal. lia.
Qed.

Lemma set_history_id (s : chat_session) : set_history s (chat_history s) = s.
Proof. by destruct s. Qed.

Lemma with_session_id (sv : service) sid s :
  user_sessions sv !! sid = Some s → with_session sv sid s = sv.
Proof.
  intros H. destruct sv as [m pd]. unfold with_session. simpl in *.
  by rewrite insert_id.
Qed.

(** The history a trim to [max_messages] leaves. *)
Lemma trim_chat_history_lookup sid (max_messages : Z) sv s :
  (2 ≤ max_messages)%Z →
  user_sessions sv !! sid = Some s →
  ∃ history,
    _trim_chat_history sid max_messages sv
      = with_session sv sid (set_history s history) ∧
    (history = chat_history s ∧
       (Z.of_nat (length (chat_history s)) ≤ max_messages)%Z
     ∨ (max_messages < Z.of_nat (length (chat_history s)))%Z ∧
       ((∃ first rest, chat_history s = first :: rest ∧ role first = "system" ∧
           history = first :: drop (length (chat_history s)
                                    - Z.to_nat (max_messages - 1)) (chat_history s))
        ∨ (∀ first, head (chat_history s) = Some first → role first ≠ "system") ∧
          history = drop (length (chat_history s) - Z.to_nat (max_messages - 1))
                         (chat_history s))).
Proof.
  intros Hmax Hs. unfold _trim_chat_history. rewrite Hs. cbv zeta.
  destruct (Z.ltb_spec max_messages (Z.of_nat (length (chat_history s)))) as [Hlt|Hle].
  - rewrite py_slice_from_last by lia.
    destruct (chat_history s) as [|first rest] eqn:Hh.
    + simpl in Hlt. lia.
    + case_bool_decide as Hrole.
      * eexists. split; [reflexivity|]. right. split; [done|]. left. eauto.
      * eexists. split; [reflexivity|]. right. split; [done|]. right.
        split; [|done]. intros first' [= <-]. done.
  - exists (chat_history s). split.
    + by rewrite set_history_id, with_session_id.
    + by left.
Qed.


(** X11.  Trimming keeps at most [max_messages] messages: the system message that
    opens the history, if there is one, and the most recent of the others;
    the other sessions and the personality are untouched. *)
Theorem trim_chat_history_bounded sid (max_messages : Z) sv s :
  (2 ≤ max_messages)%Z →
  user_sessions sv !! sid = Some s →
  ∃ history,
    _trim_chat_history sid max_messages sv
      = with_session sv sid (set_history s history) ∧
    (Z.of_nat (length history) ≤ max_messages)%Z ∧
    (∀ first, head (chat_history s) = Some first → role first = "system" →
       head history = Some first) ∧
    last history = last (chat_history s) ∧
    tail history `suffix_of` chat_history s.
Proof.
  intros Hmax Hs.
  destruct (trim_chat_history_lookup sid max_messages sv s Hmax Hs)
    as (history & Heq & Hcases).
  exists history. split; [exact Heq|].
  destruct Hcases as [[-> Hle] | [Hlt [(first & rest & Hh & Hrole & ->) | [Hno ->]]]].
  - repeat match goal with |- _ ∧ _ => split end; try done.
    destruct (chat_history s); [done|]. simpl. by apply suffix_cons_r.
  - set (k := (length (chat_history s) - Z.to_nat (max_messages - 1))%nat).
    assert (Hk : (k < length (chat_history s))%nat) by (unfold k; lia).
    repeat match goal with |- _ ∧ _ => split end.
    + simpl. rewrite length_drop. unfold k. lia.
    + rewrite Hh. by intros ? [= <-] _.
    + rewrite last_cons.
      destruct (last (drop k (chat_history s))) eqn:Hl.
      * rewrite <- Hl. rewrite !last_lookup, lookup_drop, length_drop.
        f_equal. lia.
      * apply last_None in Hl. apply (f_equal length) in Hl.
        rewrite length_drop in Hl. simpl in Hl. lia.
    + simpl. apply suffix_drop.
  - set (k := (length (chat_history s) - Z.to_nat (max_messages - 1))%nat).
    assert (Hk : (k < length (chat_history s))%nat) by (unfold k; lia).
    repeat match goal with |- _ ∧ _ => split end.
    + rewrite length_drop. unfold k. lia.
    + intros first Hf Hr. by destruct (Hno first Hf).
    + rewrite !last_lookup, lookup_drop, length_drop. f_equal. lia.
    + replace (tail (drop k (chat_history s)))
        with (drop 1 (drop k (chat_history s))) by (by destruct (drop k _)).
      rewrite drop_drop. apply suffix_drop.
Qed.



Lemma system_first_app history msg :
  system_first history → role msg ≠ "system" → system_first (history ++ [msg]).
Proof.
  destruct history as [|first rest]; [done|].
  intros [Hfirst Hrest] Hmsg. split; [done|].
  apply Forall_app. split; [done|]. by apply Forall_singleton.
Qed.

Lemma with_session_system_first sv sid session :
  sessions_system_first sv → system_first (chat_history session) →
  sessions_system_first (with_session sv sid session).
Proof. intros Hsv Hs. by apply map_Forall_insert_2. Qed.

Lemma sessions_system_first_lookup sv sid s :
  sessions_system_first sv → user_sessions sv !! sid = Some s →
  system_first (chat_history s).
Proof. intros Hsv Hs. exact (Hsv sid s Hs). Qed.

Lemma get_or_create_session_system_first e session_id sv :
  sessions_system_first sv →
  sessions_system_first (get_or_create_session e session_id sv).2.
Proof.
  intros Hsv. unfold get_or_create_session. cbv zeta.
  destruct (_ && _); [done|].
  destruct (_setup_system_prompt e _); [|done].
  apply with_session_system_first; [done|]. by split.
Qed.

Lemma get_or_create_session_returns e session_id sv sid sv' :
  get_or_create_session e session_id sv = (Ret sid, sv') →
  is_Some (user_sessions sv' !! sid).
Proof.
  unfold get_or_create_session. cbv zeta.
  destruct (_ && _) eqn:Hb.
  - intros [= <- <-]. apply andb_prop in Hb as [_ Hb].
    by apply bool_decide_eq_true_1 in Hb.
  - destruct (_setup_system_prompt e _); [|done].
    intros [= <- <-]. simpl. rewrite lookup_insert_eq. eauto.
Qed.

Lemma trim_chat_history_system_first sid sv :
  sessions_system_first sv → sessions_system_first (_trim_chat_history sid 20 sv).
Proof.
  intros Hsv.
  destruct (user_sessions sv !! sid) as [s|] eqn:Hs;
    [|by unfold _trim_chat_history; rewrite Hs].
  destruct (trim_chat_history_lookup sid 20 sv s ltac:(lia) Hs)
    as (history & -> & Hcases).
  pose proof (sessions_system_first_lookup _ _ _ Hsv Hs) as Hinv.
  apply with_session_system_first; [done|]. simpl.
  destruct Hcases as [[-> _] | [Hlt [(first & rest & Hh & Hrole & ->) | [Hno ->]]]].
  - done.
  - split; [done|]. rewrite Hh in Hinv, Hlt |- *. destruct Hinv as [_ Hrest].
    destruct (length (first :: rest) - Z.to_nat (20 - 1))%nat as [|k] eqn:Hk.
    + lia.
    + simpl. by apply Forall_drop.
  - destruct (chat_history s) as [|first rest]; [done|].
    destruct Hinv as [Hrole _]. by destruct (Hno first eq_refl).
Qed.


Lemma record_reply_system_first e sid session ai_reply sv :
  sessions_system_first sv → system_first (chat_history session) →
  sessions_system_first (record_reply e sid session ai_reply sv).
Proof.
  intros Hsv Hs. unfold record_reply.
  apply trim_chat_history_system_first, with_session_system_first; [done|].
  simpl. by apply system_first_app.
Qed.

Lemma process_normal_response_system_first e messages sid sv :
  sessions_system_first sv →
  sessions_system_first (_process_normal_response e messages sid sv).2.
Proof.
  intros Hsv. unfold _process_normal_response.
  destruct (generation_call e messages); [|done].
  destruct (user_sessions sv !! sid) as [session|] eqn:Hs; [|done].
  simpl. apply record_reply_system_first; [done|].
  by eapply sessions_system_first_lookup.
Qed.

Lemma process_message_system_first e message session_id enable_stream sv :
  sessions_system_first sv →
  sessions_system_first (process_message e message session_id enable_stream sv).2.
Proof.
  intros Hsv. unfold process_message.
  destruct (is_blank e message); [done|].
  pose proof (get_or_create_session_system_first e session_id sv Hsv) as Hsv1.
  destruct (get_or_create_session e session_id sv) as [[sid|msg] sv1]; [|done].
  simpl in Hsv1.
  destruct (user_sessions sv1 !! sid) as [session_data|] eqn:Hs; [|done].
  cbv zeta.
  set (sv2 := with_session sv1 sid _).
  assert (Hsv2 : sessions_system_first sv2).
  { apply with_session_system_first; [done|]. simpl.
    apply system_first_app; [|done].
    by eapply sessions_system_first_lookup. }
  set (messages := chat_history session_data ++ _).
  assert (Hout : sessions_system_first
            (if enable_stream
             then _process_stream_response e messages sid sv2
             else _process_normal_response e messages sid sv2).2).
  { destruct enable_stream.
    - unfold _process_stream_response. destruct (stream_call e messages).
      + done.
      + by apply process_normal_response_system_first.
    - by apply process_normal_response_system_first. }
  destruct (if enable_stream then _ else _) as [[reply|msg] sv3]; done.
Qed.

Lemma stream_generator_system_first e sid responses sv sv' :
  sessions_system_first sv →
  (stream_generator e sid responses sv).2 = Ret sv' →
  sessions_system_first sv'.
Proof.
  intros Hsv. unfold stream_generator. cbv zeta.
  case_bool_decide as Hfull; [by intros [= <-]|].
  destruct (user_sessions sv !! sid) as [session|] eqn:Hs; [|done].
  intros [= <-]. apply record_reply_system_first; [done|].
  by eapply sessions_system_first_lookup.
Qed.

Lemma update_personality_for_session_system_first e sid personality sv :
  sessions_system_first sv →
  sessions_system_first (update_personality_for_session e sid personality sv).
Proof.
  intros Hsv. unfold update_personality_for_session.
  assert (Htarget : sessions_system_first
            (match user_sessions sv !! sid with
             | Some _ => (Ret sid, sv)
             | None => get_or_create_session e (Some sid) sv
             end).2).
  { destruct (user_sessions sv !! sid); [done|].
    by apply get_or_create_session_system_first. }
  destruct (match user_sessions sv !! sid with Some _ => _ | None => _ end)
    as [[target|msg] sv1]; [|done].
  simpl in Htarget.
  destruct (_setup_system_prompt e personality) as [prompt|]; [|done].
  destruct (user_sessions sv1 !! target) as [session|] eqn:Hs; [|done].
  pose proof (sessions_system_first_lookup _ _ _ Htarget Hs) as Hinv.
  destruct (chat_history session) as [|first rest]; [done|].
  destruct Hinv as [Hrole Hrest]. rewrite bool_decide_eq_true_2 by done.
  apply with_session_system_first; [done|]. by split.
Qed.

Lemma clear_chat_history_system_first e session_id sv :
  sessions_system_first sv →
  sessions_system_first (clear_chat_history e session_id sv).
Proof.
  intros Hsv. unfold clear_chat_history.
  destruct session_id as [sid|]; [|apply map_Forall_empty].
  case_bool_decide; [done|].
  destruct (user_sessions sv !! sid) as [session|] eqn:Hs; [|done].
  pose proof (sessions_system_first_lookup _ _ _ Hsv Hs) as Hinv.
  destruct (chat_history session) as [|first rest]; [done|].
  destruct Hinv as [Hrole Hrest]. rewrite bool_decide_eq_true_2 by done.
  apply with_session_system_first; [done|]. simpl. by split.
Qed.

Lemma perform_system_first sv op :
  sessions_system_first sv → sessions_system_first (perform sv op).
Proof.
  intros Hsv. destruct op; simpl.
  - by apply get_or_create_session_system_first.
  - by apply process_message_system_first.
  - destruct (stream_generator e session_id responses sv).2 eqn:Hgen; [|done].
    by eapply stream_generator_system_first.
  - by apply update_personality_for_session_system_first.
  - done.
  - by apply clear_chat_history_system_first.
Qed.

(** X12.  Whatever calls are made on a new service, every stored history opens
    with the system message and holds no other system message. *)
Theorem history_opens_with_system_message personality_data ops :
  sessions_system_first (foldl perform (initial personality_data) ops).
Proof.
  assert (Hinit : sessions_system_first (initial personality_data))
    by apply map_Forall_empty.
  revert Hinit. generalize (initial personality_data).
  induction ops as [|op ops IH]; intros sv Hsv; [done|].
  simpl. by apply IH, perform_system_first.
Qed.


Lemma with_session_twice sv sid s1 s2 :
  with_session (with_session sv sid s1) sid s2 = with_session sv sid s2.
Proof. unfold with_session. simpl. by rewrite insert_insert_eq. Qed.

(** What storing a reply leaves under the session's id. *)
Lemma record_reply_spec e sid session ai_reply sv :
  ∃ history pre k,
    record_reply e sid session ai_reply sv
      = with_session sv sid
          {| chat_history := history;
             created_at := created_at session;
             last_activity := time_now e 2 |} ∧
    (length history ≤ 20)%nat ∧
    history = pre ++ drop k (chat_history session)
                ++ [{| role := "assistant"; content := ai_reply |}] ∧
    (k = 0 ∨ 18 ≤ length (chat_history session) - k)%nat.
Proof.
  unfold record_reply.
  set (stored := {| chat_history := _ |}).
  destruct (trim_chat_history_lookup sid 20 (with_session sv sid stored) stored
              ltac:(lia)) as (history & Heq & Hcases).
  { simpl. by rewrite lookup_insert_eq. }
  rewrite Heq, with_session_twice. simpl in Hcases.
  rewrite length_app in Hcases. simpl in Hcases.
  destruct Hcases as [[-> Hle] | [Hlt [(first & rest & Hh & Hrole & ->) | [Hno ->]]]].
  - exists (chat_history session ++ [{| role := "assistant"; content := ai_reply |}]),
      [], 0%nat.
    repeat match goal with |- _ ∧ _ => split end; try done.
    + rewrite length_app. simpl. lia.
    + by left.
  - eexists _, [first], _.
    split; [reflexivity|].
    rewrite drop_app_le by lia.
    repeat match goal with |- _ ∧ _ => split end; try done.
    + simpl. rewrite length_app, length_drop. simpl. lia.
    + right. lia.
  - eexists _, [], _.
    split; [reflexivity|].
    rewrite drop_app_le by lia.
    repeat match goal with |- _ ∧ _ => split end; try done.
    + rewrite length_app, length_drop. simpl. lia.
    + right. lia.
Qed.

(** X13.  A reply, streamed or not, is stored with the message it answers: the
    session's history ends with the user's message and the full reply, and
    holds at most twenty messages; the answer carries the cleaned reply and
    the emotion read from the full one. *)
Theorem process_message_replied e message session_id enable_stream sv
    reply emotion sid full_reply sv' :
  process_message e message session_id enable_stream sv
    = (Replied reply emotion sid full_reply, sv') →
  ∃ session earlier,
    user_sessions sv' !! sid = Some session ∧
    chat_history session
      = earlier ++ [{| role := "user"; content := message |};
                    {| role := "assistant"; content := full_reply |}] ∧
    (length (chat_history session) ≤ 20)%nat ∧
    reply = _clean_reply_text e full_reply ∧
    emotion = _extract_emotion e full_reply.
Proof.
  unfold process_message.
  destruct (is_blank e message); [done|].
  destruct (get_or_create_session e session_id sv) as [[sid0|msg] sv1]; [|done].
  destruct (user_sessions sv1 !! sid0) as [session_data|] eqn:Hs; [|done].
  cbv zeta.
  set (user_message := {| role := "user"; content := message |}).
  set (sv2 := with_session sv1 sid0 _).
  set (messages := chat_history session_data ++ _).
  assert (Hnormal : ∀ out sv3,
            _process_normal_response e messages sid0 sv2 = (out, sv3) →
            match out with
            | Ret r => (r, sv3)
            | Raise msg => (Failed (Some sid0) msg, sv3)
            end = (Replied reply emotion sid full_reply, sv') →
            ∃ session earlier,
              user_sessions sv' !! sid = Some session ∧
              chat_history session
                = earlier ++ [user_message;
                              {| role := "assistant"; content := full_reply |}] ∧
              (length (chat_history session) ≤ 20)%nat ∧
              reply = _clean_reply_text e full_reply ∧
              emotion = _extract_emotion e full_reply).
  { intros out sv3. unfold _process_normal_response.
    destruct (generation_call e messages) as [response|]; [|by intros [= <- <-]].
    unfold sv2 at 1. simpl. rewrite lookup_insert_eq.
    intros [= <- <-]. intros [= <- <- <- <- <-].
    match goal with |- context [record_reply e sid0 ?s ?a sv2] =>
      destruct (record_reply_spec e sid0 s a sv2)
        as (history & pre & k & -> & Hlen & -> & Hk)
    end.
    simpl. rewrite lookup_insert_eq. eexists _, (pre ++ drop k (chat_history session_data)).
    split; [reflexivity|]. simpl. simpl in Hk, Hlen.
    rewrite length_app in Hk. simpl in Hk.
    rewrite drop_app_le by lia.
    repeat match goal with |- _ ∧ _ => split end; try done.
    - by rewrite <- !app_assoc.
    - by rewrite drop_app_le in Hlen by lia. }
  destruct enable_stream.
  - unfold _process_stream_response.
    destruct (stream_call e messages).
    + done.
    + destruct (_process_normal_response e messages sid0 sv2) as [out sv3] eqn:Hout.
      by apply Hnormal.
  - destruct (_process_normal_response e messages sid0 sv2) as [out sv3] eqn:Hout.
    by apply Hnormal.
Qed.


Lemma get_or_create_session_present e sid sv session :
  sid ≠ "" → user_sessions sv !! sid = Some session →
  get_or_create_session e (Some sid) sv = (Ret sid, sv).
Proof.
  intros Hsid Hs. unfold get_or_create_session. cbv zeta.
  change (default "" (Some sid)) with sid.
  rewrite (bool_decide_eq_false_2 _ Hsid), Hs.
  by rewrite bool_decide_eq_true_2 by eauto.
Qed.

(** X14.  When the model call fails, the user's message stays in the history
    without a reply and the history is not trimmed: a failed call answers
    with the exception's text, and whenever [process_message] answers with a
    failure for a stored session, the only change is that message. *)
Theorem process_message_failure_keeps_user_message e message sid sv session :
  sid ≠ "" →
  is_blank e message = false →
  user_sessions sv !! sid = Some session →
  let user_message := {| role := "user"; content := message |} in
  let stored := with_session sv sid (append_message session user_message) in
  (∀ err,
     generation_call e (chat_history session ++ [user_message]) = Raise err →
     process_message e message (Some sid) false sv = (Failed (Some sid) err, stored)) ∧
  (∀ enable_stream sid' err sv',
     process_message e message (Some sid) enable_stream sv = (Failed sid' err, sv') →
     sid' = Some sid ∧ sv' = stored).
Proof.
  intros Hsid Hblank Hs user_message stored.
  unfold process_message.
  rewrite Hblank, (get_or_create_session_present e sid sv session Hsid Hs), Hs.
  cbv zeta. fold user_message. fold stored.
  split.
  - intros err Herr. unfold _process_normal_response. by rewrite Herr.
  - intros enable_stream sid' err sv'.
    assert (Hnormal : ∀ out sv3,
              _process_normal_response e (chat_history session ++ [user_message])
                sid stored = (out, sv3) →
              match out with
              | Ret r => (r, sv3)
              | Raise msg => (Failed (Some sid) msg, sv3)
              end = (Failed sid' err, sv') →
              sid' = Some sid ∧ sv' = stored).
    { intros out sv3. unfold _process_normal_response.
      destruct (generation_call e _) as [response|].
      - unfold stored at 1. simpl. rewrite lookup_insert_eq.
        by intros [= <- <-].
      - by intros [= <- <-] [= <- <- <-]. }
    destruct enable_stream.
    + unfold _process_stream_response. destruct (stream_call e _).
      * done.
      * destruct (_process_normal_response e _ sid stored) as [out sv3] eqn:Hout.
        by apply Hnormal.
    + destruct (_process_normal_response e _ sid stored) as [out sv3] eqn:Hout.
      by apply Hnormal.
Qed.

Lemma get_chat_history_with_session sv sid session sid' include_system :
  get_chat_history (Some sid') include_system (with_session sv sid session)
  = if bool_decide (sid' = sid ∧ sid' ≠ "")
    then (if include_system then chat_history session
          else filter (λ msg, role msg ≠ "system") (chat_history session))
    else get_chat_history (Some sid') include_system sv.
Proof.
  unfold get_chat_history, with_session. cbn [user_sessions].
  destruct (decide (sid' = "")) as [->|Hne].
  - rewrite !(bool_decide_eq_true_2 ("" = "")) by done.
    by rewrite bool_decide_eq_false_2 by (by intros [_ ?]).
  - rewrite !(bool_decide_eq_false_2 _ Hne).
    destruct (decide (sid' = sid)) as [->|Hne'].
    + rewrite lookup_insert_eq. by rewrite bool_decide_eq_true_2.
    + rewrite lookup_insert_ne by done.
      by rewrite bool_decide_eq_false_2 by (by intros [? _]).
Qed.

Lemma get_chat_history_absent sv sid include_system :
  user_sessions sv !! sid = None →
  get_chat_history (Some sid) include_system sv = [].
Proof.
  intros Hs. unfold get_chat_history. case_bool_decide; [done|]. by rewrite Hs.
Qed.

Lemma get_chat_history_present sv sid session include_system :
  sid ≠ "" → user_sessions sv !! sid = Some session →
  get_chat_history (Some sid) include_system sv
  = if include_system then chat_history session
    else filter (λ msg, role msg ≠ "system") (chat_history session).
Proof.
  intros Hsid Hs. unfold get_chat_history.
  by rewrite (bool_decide_eq_false_2 _ Hsid), Hs.
Qed.

(** X15.  Giving a session a new personality changes no conversation: what
    [get_chat_history] returns without the system message is the same
    for every session as before, provided the uuid drawn for an unnamed
    session is not in use.  When the new prompt can be built, and the session
    exists or can be created, its history then opens with that prompt. *)
Theorem update_personality_for_session_keeps_messages e sid personality sv :
  (sid = "" → user_sessions sv !! uuid4 e = None) →
  let sv' := update_personality_for_session e sid personality sv in
  (∀ sid', get_chat_history (Some sid') false sv'
           = get_chat_history (Some sid') false sv) ∧
  (∀ prompt,
     sid ≠ "" →
     _setup_system_prompt e personality = Ret prompt →
     is_Some (user_sessions sv !! sid)
       ∨ (∃ old, _setup_system_prompt e (personality_data sv) = Ret old) →
     head (get_chat_history (Some sid) true sv')
     = Some {| role := "system"; content := prompt |}).
Proof.
  intros Hfresh sv'. unfold sv', update_personality_for_session.
  (* the session the prompt is written to, and the state it is written in *)
  assert (Htarget : ∃ target sv1,
            match user_sessions sv !! sid with
            | Some _ => (Ret sid, sv)
            | None => get_or_create_session e (Some sid) sv
            end = (target, sv1) ∧
            (∀ sid', get_chat_history (Some sid') false sv1
                     = get_chat_history (Some sid') false sv) ∧
            (∀ t, target = Ret t → is_Some (user_sessions sv1 !! t)) ∧
            (sid ≠ "" → ∀ t, target = Ret t → t = sid) ∧
            (is_Some (user_sessions sv !! sid)
               ∨ (∃ old, _setup_system_prompt e (personality_data sv) = Ret old) →
             ∃ t, target = Ret t)).
  { destruct (user_sessions sv !! sid) as [session|] eqn:Hs.
    - eexists _, _. split; [reflexivity|].
      repeat match goal with |- _ ∧ _ => split end; try done.
      + intros t [= <-]. eauto.
      + by intros _ t [= <-].
      + eauto.
    - destruct (get_or_create_session e (Some sid) sv) as [target sv1] eqn:Hgoc.
      eexists _, _. split; [reflexivity|].
      pose proof Hgoc as Hgoc'.
      unfold get_or_create_session in Hgoc. cbv zeta in Hgoc.
      change (default "" (Some sid)) with sid in Hgoc.
      rewrite Hs in Hgoc.
      rewrite (bool_decide_eq_false_2 (is_Some None)) in Hgoc
        by (by intros [? ?]).
      rewrite andb_false_r in Hgoc.
      set (new_id := if bool_decide (sid = "") then uuid4 e else sid) in Hgoc.
      assert (Hnew : user_sessions sv !! new_id = None).
      { unfold new_id. case_bool_decide as Hd; [by apply Hfresh|done]. }
      assert (Hnamed : sid ≠ "" → new_id = sid).
      { intros Hne. unfold new_id. by rewrite bool_decide_eq_false_2. }
      clearbody new_id.
      destruct (_setup_system_prompt e (personality_data sv)) as [old|] eqn:Hold.
      + injection Hgoc as <- <-.
        repeat match goal with |- _ ∧ _ => split end.
        * intros sid'. rewrite get_chat_history_with_session; cbn [chat_history set_history].
          case_bool_decide as Hd; [|done].
          destruct Hd as [-> Hne].
          rewrite filter_cons_False, filter_nil by (simpl; tauto).
          symmetry. by apply get_chat_history_absent.
        * intros t [= <-]. simpl. rewrite lookup_insert_eq. eauto.
        * intros Hne t [= <-]. by apply Hnamed.
        * eauto.
      + injection Hgoc as <- <-.
        repeat match goal with |- _ ∧ _ => split end; try done.
        intros [[? [=]] | [old [=]]]. }
  destruct Htarget as (target & sv1 & -> & Hsame & Hpresent & Hnamed & Hsome).
  split.
  - intros sid'. destruct target as [t|]; [|done].
    destruct (_setup_system_prompt e personality) as [prompt|]; [|done].
    destruct (Hpresent t eq_refl) as [session Hs]. rewrite Hs.
    rewrite <- Hsame.
    destruct (chat_history session) as [|first rest] eqn:Hh.
    + rewrite get_chat_history_with_session; cbn [chat_history set_history].
      case_bool_decide as Hd; [|done]. destruct Hd as [-> Hne].
      rewrite (get_chat_history_present _ _ _ _ Hne Hs), Hh.
      by rewrite filter_cons_False by (simpl; tauto).
    + case_bool_decide as Hrole.
      * rewrite get_chat_history_with_session; cbn [chat_history set_history].
        case_bool_decide as Hd; [|done]. destruct Hd as [-> Hne].
        rewrite (get_chat_history_present _ _ _ _ Hne Hs), Hh.
        rewrite !filter_cons_False; simpl; tauto.
      * rewrite get_chat_history_with_session; cbn [chat_history set_history].
        case_bool_decide as Hd; [|done]. destruct Hd as [-> Hne].
        rewrite (get_chat_history_present _ _ _ _ Hne Hs), Hh.
        by rewrite filter_cons_False by (simpl; tauto).
  - intros prompt Hne Hprompt Hcan.
    destruct (Hsome Hcan) as [t ->].
    rewrite (Hnamed Hne t eq_refl) in *. rewrite Hprompt.
    destruct (Hpresent sid eq_refl) as [session Hs]. rewrite Hs.
    destruct (chat_history session) as [|first rest] eqn:Hh.
    + rewrite get_chat_history_with_session; cbn [chat_history set_history].
      by rewrite bool_decide_eq_true_2.
    + case_bool_decide as Hrole.
      * rewrite get_chat_history_with_session; cbn [chat_history set_history].
        rewrite bool_decide_eq_true_2 by done. simpl. by rewrite Hrole.
      * rewrite get_chat_history_with_session; cbn [chat_history set_history].
        by rewrite bool_decide_eq_true_2.
Qed.


Lemma message_count_lookup e sid sv :
  message_count e sid sv
  = (λ session, Z.of_nat (length (chat_history session)) - 1)%Z
      <$> user_sessions sv !! sid.
Proof.
  unfold message_count, get_session_info.
  by destruct (user_sessions sv !! sid).
Qed.

Lemma filter_system_first history :
  system_first history →
  filter (λ msg, role msg ≠ "system") history = tail history.
Proof.
  destruct history as [|first rest]; [done|]. intros [Hrole Hrest].
  rewrite filter_cons_False by (simpl; tauto). simpl.
  induction Hrest as [|msg rest Hmsg Hrest IH]; [done|].
  rewrite filter_cons_True by done. by rewrite IH.
Qed.

(** X16.  On a service driven through its methods, the [message_count] that
    [get_session_info] reports for a session is the number of messages
    [get_chat_history] returns for it without the system message, and that
    history is the stored one less its first message. *)
Theorem message_count_matches_history e personality_data ops sid session :
  sid ≠ "" →
  let sv := foldl perform (initial personality_data) ops in
  user_sessions sv !! sid = Some session →
  message_count e sid sv
    = Some (Z.of_nat (length (get_chat_history (Some sid) false sv))) ∧
  get_chat_history (Some sid) false sv = tail (get_chat_history (Some sid) true sv).
Proof.
  intros Hsid sv Hs.
  assert (Hsv : sessions_system_first sv).
  { unfold sv.
    assert (Hinit : sessions_system_first (initial personality_data))
      by apply map_Forall_empty.
    clear Hs sv. revert Hinit. generalize (initial personality_data).
    induction ops as [|op ops IH]; intros sv Hsv; [done|].
    simpl. by apply IH, perform_system_first. }
  pose proof (sessions_system_first_lookup _ _ _ Hsv Hs) as Hinv.
  rewrite message_count_lookup, Hs.
  rewrite !(get_chat_history_present _ _ _ _ Hsid Hs).
  rewrite (filter_system_first _ Hinv).
  split; [|done]. simpl. f_equal.
  destruct (chat_history session); [done|]. simpl. lia.
Qed.

(** X17.  Clearing a session whose history opens with the system message keeps
    that message alone: the session then has no message to show and a
    message count of zero, and nothing else in the service changes. *)
Theorem clear_chat_history_keeps_system_message e sid sv session :
  sid ≠ "" →
  user_sessions sv !! sid = Some session →
  system_first (chat_history session) →
  let sv' := clear_chat_history e (Some sid) sv in
  get_chat_history (Some sid) true sv' = take 1 (chat_history session) ∧
  get_chat_history (Some sid) false sv' = [] ∧
  message_count e sid sv' = Some 0%Z ∧
  (∀ sid', sid' ≠ sid → user_sessions sv' !! sid' = user_sessions sv !! sid') ∧
  personality_data sv' = personality_data sv.
Proof.
  intros Hsid Hs Hinv sv'. unfold sv', clear_chat_history.
  rewrite (bool_decide_eq_false_2 _ Hsid), Hs.
  destruct (chat_history session) as [|first rest] eqn:Hh; [done|].
  destruct Hinv as [Hrole Hrest]. rewrite (bool_decide_eq_true_2 _ Hrole).
  rewrite !get_chat_history_with_session, message_count_lookup.
  rewrite bool_decide_eq_true_2 by done. cbn [chat_history set_history].
  repeat match goal with |- _ ∧ _ => split end.
  - done.
  - by rewrite filter_cons_False by (simpl; tauto).
  - simpl. by rewrite lookup_insert_eq.
  - intros sid' Hne. simpl. by rewrite lookup_insert_ne.
  - done.
Qed.



End ChatSessions.

(** The sample conversation of three messages trimmed to two. *)
Lemma trim_chat_history_bounded_witness :
  ∃ history,
    ChatHistory._trim_chat_history "s1" 2 ChatSamples.greeted_service
      = ChatHistory.with_session ChatSamples.greeted_service "s1"
          (ChatHistory.set_history ChatSamples.greeted_session history) ∧
    (Z.of_nat (length history) ≤ 2)%Z.
Proof.
  destruct (trim_chat_history_bounded "s1" 2 ChatSamples.greeted_service
              ChatSamples.greeted_session)
    as (history & Heq & Hlen & _).
  - lia.
  - reflexivity.
  - exists history. split; [exact Heq | exact Hlen].
Defined.

(** A first message in a new session [s2] of the sample service. *)
Lemma process_message_replied_witness :
  ∃ session earlier,
    ChatHistory.user_sessions
      (ChatHistory.process_message ChatSamples.talking_env "hi" (Some "s2") false
         ChatSamples.greeted_service).2 !! "s2" = Some session ∧
    ChatHistory.chat_history session
      = earlier ++ [ {| ChatHistory.role := "user"; ChatHistory.content := "hi" |};
                     {| ChatHistory.role := "assistant";
                        ChatHistory.content := "Hello! [EMOTION: happy]" |} ].
Proof.
  destruct (process_message_replied ChatSamples.talking_env "hi" (Some "s2") false
              ChatSamples.greeted_service "Hello!" "happy" "s2"
              "Hello! [EMOTION: happy]"
              (ChatHistory.process_message ChatSamples.talking_env "hi" (Some "s2")
                 false ChatSamples.greeted_service).2)
    as (session & earlier & Hs & Hh & _).
  - vm_compute. reflexivity.
  - exists session, earlier. split; [exact Hs | exact Hh].
Defined.

(** A message sent to the sample session while the model call raises. *)
Lemma process_message_failure_keeps_user_message_witness :
  ChatHistory.process_message ChatSamples.silent_env "again" (Some "s1") false
    ChatSamples.greeted_service
  = (ChatHistory.Failed (Some "s1") "connection reset",
     ChatHistory.with_session ChatSamples.greeted_service "s1"
       (ChatHistory.append_message ChatSamples.greeted_session
          {| ChatHistory.role := "user"; ChatHistory.content := "again" |})).
Proof.
  destruct (process_message_failure_keeps_user_message ChatSamples.silent_env
              "again" "s1" ChatSamples.greeted_service ChatSamples.greeted_session)
    as [Hfail _].
  - apply (bool_decide_unpack _). vm_compute. exact I.
  - reflexivity.
  - reflexivity.
  - apply Hfail. reflexivity.
Defined.

(** A new personality for an unnamed session, the drawn uuid being unused. *)
Lemma update_personality_for_session_keeps_messages_witness :
  ChatHistory.user_sessions ChatSamples.greeted_service
    !! ChatHistory.uuid4 ChatSamples.talking_env = None ∧
  ∀ sid',
    ChatHistory.get_chat_history (Some sid') false
      (ChatHistory.update_personality_for_session ChatSamples.talking_env ""
         (JStr "shy") ChatSamples.greeted_service)
    = ChatHistory.get_chat_history (Some sid') false ChatSamples.greeted_service.
Proof.
  split; [reflexivity|].
  destruct (update_personality_for_session_keeps_messages ChatSamples.talking_env
              "" (JStr "shy") ChatSamples.greeted_service)
    as [Hsame _].
  - intros _. reflexivity.
  - exact Hsame.
Defined.

(** One exchange on a new service: two messages counted. *)
Lemma message_count_matches_history_witness :
  ChatHistory.message_count ChatSamples.talking_env "s1"
    (foldl ChatHistory.perform (ChatHistory.initial JNull)
       [ChatHistory.ProcessMessage ChatSamples.talking_env "hi" (Some "s1") false])
  = Some 2%Z.
Proof.
  destruct (message_count_matches_history ChatSamples.talking_env JNull
              [ChatHistory.ProcessMessage ChatSamples.talking_env "hi" (Some "s1") false]
              "s1" ChatSamples.greeted_session)
    as [Hcount _].
  - apply (bool_decide_unpack _). vm_compute. exact I.
  - vm_compute. reflexivity.
  - rewrite Hcount. vm_compute. reflexivity.
Defined.

(** The sample conversation cleared. *)
Lemma clear_chat_history_keeps_system_message_witness :
  ChatHistory.get_chat_history (Some "s1") false
    (ChatHistory.clear_chat_history ChatSamples.talking_env (Some "s1")
       ChatSamples.greeted_service) = [] ∧
  ChatHistory.message_count ChatSamples.talking_env "s1"
    (ChatHistory.clear_chat_history ChatSamples.talking_env (Some "s1")
       ChatSamples.greeted_service) = Some 0%Z.
Proof.
  destruct (clear_chat_history_keeps_system_message ChatSamples.talking_env "s1"
              ChatSamples.greeted_service ChatSamples.greeted_session)
    as (_ & Hnone & Hcount & _).
  - apply (bool_decide_unpack _). vm_compute. exact I.
  - reflexivity.
  - split; [reflexivity|]. repeat constructor; apply (bool_decide_unpack _); vm_compute; exact I.
  - split; [exact Hnone | exact Hcount].
Defined.


(** ** Splitting a text for synthesis *)

Section TextSplitting.

Import VoiceService.

Lemma lstrip_spec text :
  ∃ spaces, text = spaces ++ lstrip text ∧ Forall (λ c, isspace c = true) spaces.
Proof.
  induction text as [|c rest (spaces & Hrest & Hspaces)]; [by exists []|].
  simpl. destruct (isspace c) eqn:Hc.
  - exists (c :: spaces). split; [by rewrite Hrest at 1|]. by constructor.
  - by exists [].
Qed.

(** Stripping removes a run of spaces at each end, nothing else. *)
Lemma strip_spec text :
  ∃ before after,
    text = before ++ strip text ++ after ∧
    Forall (λ c, isspace c = true) before ∧ Forall (λ c, isspace c = true) after.
Proof.
  destruct (lstrip_spec text) as (before & Htext & Hbefore).
  destruct (lstrip_spec (reverse (lstrip text))) as (after & Hrev & Hafter).
  exists before, (reverse after). repeat split.
  - rewrite Htext at 1. f_equal. unfold strip.
    rewrite <- reverse_app, <- Hrev. by rewrite reverse_involutive.
  - done.
  - by apply Forall_reverse.
Qed.

Lemma filter_spaces spaces :
  Forall (λ c, isspace c = true) spaces →
  filter (λ c, isspace c = false) spaces = [].
Proof.
  induction 1 as [|c spaces Hc _ IH]; [done|].
  rewrite filter_cons_False by (by rewrite Hc). done.
Qed.

Lemma strip_filter text :
  filter (λ c, isspace c = false) (strip text)
  = filter (λ c, isspace c = false) text.
Proof.
  destruct (strip_spec text) as (before & after & Htext & Hbefore & Hafter).
  rewrite Htext at 2. rewrite !filter_app.
  by rewrite (filter_spaces before), (filter_spaces after), app_nil_r.
Qed.

Lemma strip_sublist text : strip text `sublist_of` text.
Proof.
  destruct (strip_spec text) as (before & after & Htext & _).
  rewrite Htext at 2. apply sublist_inserts_l, sublist_inserts_r. done.
Qed.

Lemma split_nonempty sep text : split sep text ≠ [].
Proof.
  destruct text as [|c rest]; [done|]. simpl.
  destruct (c =? sep)%N; [done|]. by destruct (split sep rest).
Qed.

(** Joining the pieces of a split gives the text without the separator. *)
Lemma concat_split sep text :
  concat (split sep text) = filter (λ c, c ≠ sep) text.
Proof.
  induction text as [|c rest IH]; [done|]. simpl.
  destruct (N.eqb_spec c sep) as [->|Hne].
  - rewrite filter_cons_False by tauto. done.
  - rewrite filter_cons_True by done. rewrite <- IH.
    pose proof (split_nonempty sep rest).
    by destruct (split sep rest).
Qed.

Lemma replace_filter old text :
  old ≠ newline →
  filter (λ c, c ≠ newline) (replace old [old; newline] text)
  = filter (λ c, c ≠ newline) text.
Proof.
  intros Hold. unfold replace.
  induction text as [|c rest IH]; [done|].
  rewrite bind_cons, filter_app, IH.
  destruct (N.eqb_spec c old) as [->|Hne].
  - rewrite filter_cons_True by done.
    rewrite (filter_cons_True _ old rest) by done.
    rewrite filter_cons_False by tauto. done.
  - destruct (decide (c = newline)) as [->|Hc].
    + rewrite !filter_cons_False by tauto. done.
    + rewrite !filter_cons_True by done. done.
Qed.

(** The sentences of a text, joined, are the text without its line
    breaks. *)
Lemma concat_sentences text :
  concat (split newline
            (replace question_mark [question_mark; newline]
               (replace exclamation_mark [exclamation_mark; newline]
                  (replace full_stop [full_stop; newline] text))))
  = filter (λ c, c ≠ newline) text.
Proof.
  rewrite concat_split.
  by rewrite !replace_filter by done.
Qed.


Lemma range_by_bound stop step :
  (0 < step)%nat → (stop ≤ (stop + step - 1) / step * step)%nat.
Proof.
  intros Hstep.
  pose proof (Nat.div_mod_eq (stop + step - 1) step) as Hdiv.
  pose proof (Nat.mod_upper_bound (stop + step - 1) step ltac:(lia)) as Hmod.
  nia.
Qed.

Lemma range_by_lt stop step j :
  (0 < step)%nat → (j < (stop + step - 1) / step)%nat → (j * step < stop)%nat.
Proof.
  intros Hstep Hj.
  pose proof (Nat.div_mod_eq (stop + step - 1) step) as Hdiv.
  nia.
Qed.

Lemma concat_pieces (size count : nat) (sentence : list N) :
  (length sentence ≤ count * size)%nat →
  concat ((λ j, take size (drop (j * size) sentence)) <$> seq 0 count) = sentence.
Proof.
  revert sentence. induction count as [|count IH]; intros sentence Hlen.
  - simpl in *. by destruct sentence; [|simpl in Hlen; lia].
  - change (seq 0 (S count)) with (0%nat :: seq 1 count).
    rewrite <- fmap_S_seq, fmap_cons, <- list_fmap_compose.
    cbn [concat]. rewrite Nat.mul_0_l, drop_0.
    trans (take size sentence ++ drop size sentence); [|apply take_drop].
    f_equal.
    etrans; [|apply (IH (drop size sentence)); rewrite length_drop; lia].
    apply (f_equal (@concat N)), list_fmap_ext. intros _ j _. simpl.
    by rewrite drop_drop.
Qed.

Lemma slices_spec (size : nat) (sentence : list N) :
  (0 < size)%nat →
  let slices := (λ i, take size (drop i sentence))
                  <$> range_by (length sentence) size in
  concat slices = sentence ∧
  Forall (λ chunk, chunk ≠ [] ∧ (length chunk ≤ size)%nat) slices.
Proof.
  intros Hsize slices. unfold slices, range_by.
  rewrite <- list_fmap_compose. split.
  - apply concat_pieces. by apply range_by_bound.
  - apply Forall_fmap, Forall_forall. intros j Hj. simpl.
    apply elem_of_seq in Hj as [_ Hj]. simpl in Hj.
    pose proof (range_by_lt (length sentence) size j Hsize Hj) as Hlt.
    split.
    + intros Hnil. apply (f_equal length) in Hnil.
      rewrite length_take, length_drop in Hnil. simpl in Hnil. lia.
    + rewrite length_take. lia.
Qed.

(** The loop over the sentences, for a positive limit: it does not raise,
    every chunk it saves is non-empty and within the limit, the current
    chunk is within the limit, and the chunks with the current one hold the
    stripped sentences in order. *)
Lemma split_fold_spec (max_chunk_size : Z) sentences chunks current_chunk :
  (1 ≤ max_chunk_size)%Z →
  Forall (λ chunk, chunk ≠ [] ∧ (Z.of_nat (length chunk) ≤ max_chunk_size)%Z) chunks →
  (Z.of_nat (length current_chunk) ≤ max_chunk_size)%Z →
  ∃ chunks' current_chunk',
    foldl (split_step max_chunk_size) (Ret (chunks, current_chunk)) sentences
      = Ret (chunks', current_chunk') ∧
    Forall (λ chunk, chunk ≠ [] ∧ (Z.of_nat (length chunk) ≤ max_chunk_size)%Z)
      chunks' ∧
    (Z.of_nat (length current_chunk') ≤ max_chunk_size)%Z ∧
    concat chunks' ++ current_chunk'
      = concat chunks ++ current_chunk ++ concat (strip <$> sentences).
Proof.
  intros Hmax. revert chunks current_chunk.
  induction sentences as [|sentence sentences IH]; intros chunks current_chunk Hchunks Hcur.
  - exists chunks, current_chunk. simpl. by rewrite !app_nil_r.
  - cbn [foldl]. unfold split_step at 2. cbv zeta.
    assert (Hsaved : Forall (λ chunk, chunk ≠ [] ∧
                        (Z.of_nat (length chunk) ≤ max_chunk_size)%Z)
                       (if bool_decide (current_chunk = []) then chunks
                        else chunks ++ [current_chunk])).
    { case_bool_decide; [done|]. apply Forall_app. split; [done|].
      by apply Forall_singleton. }
    assert (Hconcat : concat (if bool_decide (current_chunk = []) then chunks
                              else chunks ++ [current_chunk])
                      = concat chunks ++ current_chunk).
    { case_bool_decide as Hd; [by rewrite Hd, app_nil_r|].
      rewrite concat_app. simpl. by rewrite app_nil_r. }
    set (saved := if bool_decide (current_chunk = []) then chunks
                  else chunks ++ [current_chunk]) in *.
    clearbody saved.
    rewrite fmap_cons. cbn [concat].
    destruct (decide (strip sentence = [])) as [Hempty|Hempty];
      [rewrite (bool_decide_eq_true_2 _ Hempty)
      |rewrite (bool_decide_eq_false_2 _ Hempty)].
    { destruct (IH chunks current_chunk Hchunks Hcur)
        as (chunks' & current' & -> & ? & ? & Hjoin).
      exists chunks', current'. repeat split; try done.
      by rewrite Hjoin, Hempty. }
    destruct (Z.leb_spec (Z.of_nat (length current_chunk)
                          + Z.of_nat (length (strip sentence))) max_chunk_size)
      as [Hfits|Hover].
    { destruct (IH chunks (current_chunk ++ strip sentence) Hchunks)
        as (chunks' & current' & -> & ? & ? & Hjoin).
      { rewrite length_app. lia. }
      exists chunks', current'. repeat split; try done.
      by rewrite Hjoin, <- !app_assoc. }
    destruct (Z.ltb_spec max_chunk_size (Z.of_nat (length (strip sentence))))
      as [Hlong|Hshort].
    + destruct (Z.eqb_spec max_chunk_size 0); [lia|].
      destruct (Z.ltb_spec max_chunk_size 0); [lia|].
      destruct (slices_spec (Z.to_nat max_chunk_size) (strip sentence)
                  ltac:(lia)) as [Hjoin Hslices].
      match goal with |- context [Ret (?c, [])] =>
        destruct (IH c []) as (chunks' & current' & -> & ? & ? & Hjoin')
      end.
      * apply Forall_app. split; [done|].
        eapply Forall_impl; [exact Hslices|]. simpl. intros chunk [? ?].
        split; [done|lia].
      * simpl. lia.
      * exists chunks', current'. repeat split; try done.
        rewrite Hjoin', concat_app, Hjoin, Hconcat. simpl. by rewrite <- !app_assoc.
    + match goal with |- context [Ret (?c, strip sentence)] =>
        destruct (IH c (strip sentence)) as (chunks' & current' & -> & ? & ? & Hjoin)
      end; [done|lia|].
      exists chunks', current'. repeat split; try done.
      rewrite Hjoin, Hconcat. by rewrite <- !app_assoc.
Qed.

(** X19.  For a positive limit the splitter returns chunks that are each within
    the limit, and none is empty unless the text itself is. *)
Theorem split_text_chunks_bounded (text : list N) (max_chunk_size : Z) :
  (1 ≤ max_chunk_size)%Z →
  ∃ chunks,
    _split_text_for_synthesis text max_chunk_size = Ret chunks ∧
    Forall (λ chunk, (Z.of_nat (length chunk) ≤ max_chunk_size)%Z) chunks ∧
    (text ≠ [] → Forall (λ chunk, chunk ≠ []) chunks).
Proof.
  intros Hmax. unfold _split_text_for_synthesis.
  destruct (Z.leb_spec (Z.of_nat (length text)) max_chunk_size) as [Hshort|Hlong].
  - exists [text]. split; [done|]. split.
    + by apply Forall_singleton.
    + intros Hne. by apply Forall_singleton.
  - cbv zeta.
    match goal with |- context [foldl _ _ ?sentences] =>
      destruct (split_fold_spec max_chunk_size sentences [] [] Hmax)
        as (chunks & current_chunk & -> & Hchunks & Hcur & _)
    end; [done|simpl; lia|].
    eexists. split; [reflexivity|].
    assert (Hall : Forall (λ chunk, chunk ≠ [] ∧
                     (Z.of_nat (length chunk) ≤ max_chunk_size)%Z)
                    (if bool_decide (current_chunk = []) then chunks
                     else chunks ++ [current_chunk])).
    { case_bool_decide; [done|]. apply Forall_app. split; [done|].
      by apply Forall_singleton. }
    split.
    + eapply Forall_impl; [exact Hall|]. by intros chunk [_ ?].
    + intros _. eapply Forall_impl; [exact Hall|]. by intros chunk [? _].
Qed.

(** X20.  For a positive limit the splitter only drops white space: the chunks,
    joined, are a subsequence of the text with the same characters that are
    not white space. *)
Theorem split_text_keeps_characters (text : list N) (max_chunk_size : Z) :
  (1 ≤ max_chunk_size)%Z →
  ∃ chunks,
    _split_text_for_synthesis text max_chunk_size = Ret chunks ∧
    concat chunks `sublist_of` text ∧
    filter (λ c, isspace c = false) (concat chunks)
      = filter (λ c, isspace c = false) text.
Proof.
  intros Hmax. unfold _split_text_for_synthesis.
  destruct (Z.leb_spec (Z.of_nat (length text)) max_chunk_size) as [Hshort|Hlong].
  - exists [text]. simpl. by rewrite app_nil_r.
  - cbv zeta.
    pose proof (concat_sentences text) as Hsentences.
    revert Hsentences.
    match goal with |- context [foldl _ _ ?s] => generalize s end.
    intros sentences Hsentences.
    destruct (split_fold_spec max_chunk_size sentences [] [] Hmax)
      as (chunks & current_chunk & -> & _ & _ & Hjoin); [done|simpl; lia|].
    simpl in Hjoin.
    eexists. split; [reflexivity|].
    assert (Hall : concat (if bool_decide (current_chunk = []) then chunks
                           else chunks ++ [current_chunk])
                   = concat (strip <$> sentences)).
    { rewrite <- Hjoin. case_bool_decide as Hd; [by rewrite Hd, app_nil_r|].
      rewrite concat_app. simpl. by rewrite app_nil_r. }
    rewrite Hall. clear Hall Hjoin. split.
    + trans (concat sentences).
      * clear Hsentences. induction sentences as [|sentence sentences IH]; [done|].
        rewrite fmap_cons. cbn [concat].
        apply sublist_app; [apply strip_sublist | exact IH].
      * rewrite Hsentences. apply sublist_filter.
    + trans (filter (λ c, isspace c = false) (concat sentences)).
      * clear Hsentences. induction sentences as [|sentence sentences IH]; [done|].
        rewrite fmap_cons. cbn [concat]. by rewrite !filter_app, strip_filter, IH.
      * rewrite Hsentences.
        rewrite list_filter_filter. apply list_filter_iff.
        intros c. split; [by intros [? _]|]. intros Hc. split; [done|].
        intros ->. done.
Qed.

Lemma lstrip_spaces text :
  Forall (λ c, isspace c = true) text → lstrip text = [].
Proof. induction 1 as [|c rest Hc _ IH]; [done|]. simpl. by rewrite Hc. Qed.

Lemma strip_nil_iff text :
  strip text = [] ↔ Forall (λ c, isspace c = true) text.
Proof.
  split.
  - intros Hnil. destruct (strip_spec text) as (before & after & Htext & ? & ?).
    rewrite Htext, Hnil. by apply Forall_app.
  - intros Hall. unfold strip. by rewrite (lstrip_spaces text Hall).
Qed.

(** Every sentence of a text is blank exactly when the text is white
    space. *)
Lemma sentences_blank_iff text :
  Forall (λ sentence, strip sentence = [])
    (split newline
       (replace question_mark [question_mark; newline]
          (replace exclamation_mark [exclamation_mark; newline]
             (replace full_stop [full_stop; newline] text))))
  ↔ Forall (λ c, isspace c = true) text.
Proof.
  pose proof (concat_sentences text) as Hsentences. revert Hsentences.
  match goal with |- context [split ?c ?t] => generalize (split c t) end.
  intros sentences Hsentences.
  trans (Forall (λ c, isspace c = true) (concat sentences)).
  - clear Hsentences. induction sentences as [|sentence sentences IH].
    + split; constructor.
    + cbn [concat]. rewrite Forall_cons, Forall_app, strip_nil_iff, IH. done.
  - rewrite Hsentences, !Forall_forall. split.
    + intros Hall c Hc. destruct (decide (c = newline)) as [->|Hne]; [done|].
      apply Hall, list_elem_of_filter. done.
    + intros Hall c Hc. apply list_elem_of_filter in Hc as [_ Hc]. by apply Hall.
Qed.

Lemma split_fold_raise (max_chunk_size : Z) sentences msg :
  foldl (split_step max_chunk_size) (Raise msg) sentences = Raise msg.
Proof. induction sentences as [|sentence sentences IH]; [done|]. exact IH. Qed.

(** X21.  A limit of zero makes the splitter raise on every text with a character
    that is not white space, and return no chunk for a non-empty text of
    white space; a negative limit makes it return no chunk at all. *)
Theorem split_text_without_positive_limit (text : list N) (max_chunk_size : Z) :
  text ≠ [] →
  ((max_chunk_size < 0)%Z →
   _split_text_for_synthesis text max_chunk_size = Ret []) ∧
  (max_chunk_size = 0%Z → Forall (λ c, isspace c = true) text →
   _split_text_for_synthesis text max_chunk_size = Ret []) ∧
  (max_chunk_size = 0%Z → ¬ Forall (λ c, isspace c = true) text →
   ∃ msg, _split_text_for_synthesis text max_chunk_size = Raise msg).
Proof.
  intros Htext.
  assert (Hlen : (0 < Z.of_nat (length text))%Z).
  { destruct text; [done|]. simpl. lia. }
  unfold _split_text_for_synthesis. cbv zeta.
  rewrite <- sentences_blank_iff.
  match goal with |- context [split ?c ?t] => generalize (split c t) end.
  intros sentences.
  destruct (Z.leb_spec (Z.of_nat (length text)) max_chunk_size) as [Hshort|Hlong].
  { repeat split; intros; lia. }
  clear Hlong. repeat split.
  - intros Hneg.
    assert (Hfold : foldl (split_step max_chunk_size) (Ret ([], [])) sentences
                    = Ret ([], [])).
    { induction sentences as [|sentence sentences IH]; [done|].
      cbn [foldl]. unfold split_step at 2. cbv zeta.
      case_bool_decide as Hempty; [exact IH|].
      destruct (Z.leb_spec (Z.of_nat (length (@nil N))
                            + Z.of_nat (length (strip sentence))) max_chunk_size);
        [simpl in *; lia|].
      rewrite bool_decide_eq_true_2 by done.
      destruct (Z.ltb_spec max_chunk_size (Z.of_nat (length (strip sentence))));
        [|lia].
      destruct (Z.eqb_spec max_chunk_size 0); [lia|].
      destruct (Z.ltb_spec max_chunk_size 0); [|lia].
      exact IH. }
    by rewrite Hfold.
  - intros -> Hblank.
    assert (Hfold : foldl (split_step 0) (Ret ([], [])) sentences = Ret ([], [])).
    { induction Hblank as [|sentence sentences Hsentence _ IH]; [done|].
      cbn [foldl]. unfold split_step at 2. cbv zeta.
      by rewrite (bool_decide_eq_true_2 _ Hsentence). }
    by rewrite Hfold.
  - intros -> Hblank.
    assert (Hfold : ∃ msg, foldl (split_step 0) (Ret ([], [])) sentences = Raise msg).
    { induction sentences as [|sentence sentences IH].
      - destruct Hblank. constructor.
      - cbn [foldl]. unfold split_step at 2. cbv zeta.
        destruct (decide (strip sentence = [])) as [Hempty|Hempty].
        + rewrite (bool_decide_eq_true_2 _ Hempty). apply IH.
          intros Hrest. apply Hblank. by constructor.
        + rewrite (bool_decide_eq_false_2 _ Hempty).
          assert (0 < Z.of_nat (length (strip sentence)))%Z
            by (destruct (strip sentence); [done|simpl; lia]).
          destruct (Z.leb_spec (Z.of_nat (length (@nil N))
                                + Z.of_nat (length (strip sentence))) 0);
            [simpl in *; lia|].
          destruct (Z.ltb_spec 0 (Z.of_nat (length (strip sentence)))); [|lia].
          simpl. rewrite split_fold_raise. eauto. }
    destruct Hfold as [msg ->]. eauto.
Qed.

End TextSplitting.

(** The sample text split with a limit of three. *)
Lemma split_text_chunks_bounded_witness :
  ∃ chunks,
    VoiceService._split_text_for_synthesis VoiceSamples.sample_text 3 = Ret chunks ∧
    Forall (λ chunk, (Z.of_nat (length chunk) ≤ 3)%Z) chunks.
Proof.
  destruct (split_text_chunks_bounded VoiceSamples.sample_text 3)
    as (chunks & Hsplit & Hbound & _).
  - lia.
  - exists chunks. split; [exact Hsplit | exact Hbound].
Defined.

(** The sample text split with a limit of four. *)
Lemma split_text_keeps_characters_witness :
  ∃ chunks,
    VoiceService._split_text_for_synthesis VoiceSamples.sample_text 4 = Ret chunks ∧
    concat chunks `sublist_of` VoiceSamples.sample_text.
Proof.
  destruct (split_text_keeps_characters VoiceSamples.sample_text 4)
    as (chunks & Hsplit & Hsub & _).
  - lia.
  - exists chunks. split; [exact Hsplit | exact Hsub].
Defined.

(** The sample text split with a limit of zero. *)
Lemma split_text_without_positive_limit_witness :
  ∃ msg,
    VoiceService._split_text_for_synthesis VoiceSamples.sample_text 0 = Raise msg.
Proof.
  destruct (split_text_without_positive_limit VoiceSamples.sample_text 0)
    as (_ & _ & Hraise).
  - discriminate.
  - apply Hraise; [reflexivity|].
    apply (bool_decide_unpack _). vm_compute. exact I.
Defined.

(** ** The configuration loader *)

Section Configuration.

Import ConfigLoader.

Context (type_error : string → json → string).

Lemma py_in_dict (m : gmap string json) key :
  py_in type_error key (JDict m)
  = Ret (match m !! key with Some _ => true | None => false end).
Proof.
  simpl. f_equal. destruct (m !! key) eqn:E.
  - by rewrite bool_decide_eq_true_2 by eauto.
  - by rewrite bool_decide_eq_false_2 by (by intros [? ?]).
Qed.

Lemma py_getitem_ret container key value :
  py_getitem type_error container key = Ret value ↔
  ∃ m, container = JDict m ∧ m !! key = Some value.
Proof.
  split.
  - destruct container as [| | | | |l|m]; simpl; try discriminate.
    destruct (m !! key) eqn:E; [|discriminate]. intros [= <-]. eauto.
  - intros (m & -> & Hm). simpl. by rewrite Hm.
Qed.

(** The check of one entry that must be present and true. *)
Lemma entry_check container key msg :
  (present ← py_in type_error key container;
   if negb present then Raise msg
   else value ← py_getitem type_error container key;
        if py_truthy value then Ret () else Raise msg) = Ret ()
  ↔ ∃ m value, container = JDict m ∧ m !! key = Some value ∧ py_truthy value = true.
Proof.
  split.
  - destruct container as [| | | | s |l|m]; try discriminate.
    + simpl. by case_bool_decide.
    + simpl. by destruct (existsb _ l).
    + rewrite py_in_dict. simpl.
      destruct (m !! key) as [value|] eqn:E; [|discriminate]. simpl.
      destruct (py_truthy value) eqn:Hv; [|discriminate]. eauto.
  - intros (m & value & -> & Hm & Hv). rewrite py_in_dict. simpl.
    by rewrite Hm; simpl; rewrite Hv.
Qed.

Lemma bind_ret {A B : Type} (r : result A) (f : A → result B) (b : B) :
  r ≫= f = Ret b ↔ ∃ a, r = Ret a ∧ f a = Ret b.
Proof.
  split.
  - destruct r as [a|msg]; [|discriminate]. simpl. eauto.
  - by intros (a & -> & Hf).
Qed.

(** The prompts validation accepts exactly the documents of the shape
    [valid_prompts]. *)
Lemma validate_prompts_config_shape (config : json) :
  _validate_prompts_config type_error config = Ret () ↔ valid_prompts config.
Proof.
  split.
  - unfold _validate_prompts_config.
    destruct config as [| | | | s |l|m]; try discriminate.
    + simpl. repeat case_bool_decide; discriminate.
    + simpl. repeat (destruct (existsb _ l)); discriminate.
    + cbn [for_each]. rewrite !py_in_dict. cbn [mbind result_bind].
      destruct (m !! "cartoon_generation") as [cartoon|] eqn:Hcartoon;
        [|discriminate].
      destruct (m !! "expressions") as [expressions|] eqn:Hexpressions;
        [|discriminate].
      destruct (m !! "personality_generation") as [pg|] eqn:Hpg; [|discriminate].
      destruct (m !! "chat_system") as [cs|] eqn:Hcs; [|discriminate].
      cbn [py_getitem mbind result_bind].
      rewrite Hcartoon, Hexpressions, Hpg, Hcs. cbn [mbind result_bind].
      destruct cartoon as [| | | | |prompts|]; try discriminate.
      case_bool_decide as Hlen; [discriminate|]. cbn [mbind result_bind].
      intros Hrest.
      apply bind_ret in Hrest as ([] & Hchecks & Hrest).
      apply bind_ret in Hchecks as ([] & Hhappy & Hchecks).
      apply bind_ret in Hchecks as ([] & Hsad & Hchecks).
      apply bind_ret in Hchecks as ([] & Hsurprised & _).
      apply entry_check in Hhappy as (ex & happy & -> & Hhappy & Hhappy').
      apply entry_check in Hsad as (ex' & sad & [= <-] & Hsad & Hsad').
      apply entry_check in Hsurprised
        as (ex' & surprised & [= <-] & Hsurprised & Hsurprised').
      destruct (py_truthy pg) eqn:Hpg'; [|discriminate].
      destruct (py_truthy cs) eqn:Hcs'; [|discriminate].
      exists m, ex, prompts, pg, cs.
      repeat match goal with |- _ ∧ _ => split end; try done.
      * lia.
      * intros expression Hin.
        rewrite !elem_of_cons, elem_of_nil in Hin.
        destruct Hin as [-> | [-> | [-> | []]]]; eauto.
  - intros (m & ex & prompts & pg & cs & -> & Hcartoon & Hlen & Hex & Hall
            & Hpg & Hpg' & Hcs & Hcs').
    unfold _validate_prompts_config.
    cbn [for_each]. rewrite !py_in_dict.
    rewrite Hcartoon, Hex, Hpg, Hcs. cbn [mbind result_bind py_getitem].
    rewrite Hcartoon, Hex, Hpg, Hcs. cbn [mbind result_bind].
    rewrite bool_decide_eq_false_2 by lia. cbn [mbind result_bind].
    destruct (Hall "happy") as (happy & Hhappy & Hhappy'); [set_solver|].
    destruct (Hall "sad") as (sad & Hsad & Hsad'); [set_solver|].
    destruct (Hall "surprised") as (surprised & Hsurprised & Hsurprised');
      [set_solver|].
    rewrite !py_in_dict, Hhappy, Hsad, Hsurprised.
    cbn [mbind result_bind negb py_getitem].
    rewrite Hhappy, Hsad, Hsurprised. cbn [mbind result_bind].
    rewrite Hhappy', Hsad', Hsurprised'. cbn [mbind result_bind].
    by rewrite Hpg', Hcs'.
Qed.


(** X22.  With an empty prompts cache, [load_prompts] succeeds exactly on a
    decoded document of the valid shape, which it then caches: every later
    call returns that document whatever the file has become.  A failed call
    leaves the loader as it was, and no call touches the keys cache. *)
Theorem load_prompts_caches_valid_config prompts_file read ld :
  _prompts_config ld = None →
  match load_prompts type_error prompts_file read ld with
  | (Ret config, ld') =>
      read = Decoded config ∧ valid_prompts config ∧
      _keys_config ld' = _keys_config ld ∧
      ∀ prompts_file' read',
        load_prompts type_error prompts_file' read' ld' = (Ret config, ld')
  | (Raise _, ld') =>
      ld' = ld ∧ ∀ config, read = Decoded config → ¬ valid_prompts config
  end.
Proof.
  intros Hempty. unfold load_prompts at 1. rewrite Hempty.
  destruct read as [|msg|msg|config]; try (split; [done|]; intros ? [=]).
  destruct (_validate_prompts_config type_error config) as [[]|msg] eqn:Hvalid.
  - apply validate_prompts_config_shape in Hvalid.
    repeat match goal with |- _ ∧ _ => split end; try done.
  - split; [done|]. intros config' [= <-] Hshape.
    apply validate_prompts_config_shape in Hshape. congruence.
Qed.

(** X23.  After a successful [load_prompts] on an empty cache, the four getters
    of the prompts return without reading the file again: at least four
    cartoon prompts, the dictionary of expression prompts, and the two
    non-empty system prompts. *)
Theorem prompts_getters_after_load prompts_file read ld config ld' :
  _prompts_config ld = None →
  load_prompts type_error prompts_file read ld = (Ret config, ld') →
  ∀ prompts_file' read',
    ∃ (prompts : list json) (expressions : gmap string json)
      (personality_generation chat_system : json),
      get_cartoon_prompts type_error prompts_file' read' ld'
        = (Ret (JList prompts), ld') ∧
      (4 ≤ length prompts)%nat ∧
      get_expression_prompts type_error prompts_file' read' ld'
        = (Ret (JDict expressions), ld') ∧
      get_personality_prompt type_error prompts_file' read' ld'
        = (Ret personality_generation, ld') ∧
      py_truthy personality_generation = true ∧
      get_chat_system_prompt type_error prompts_file' read' ld'
        = (Ret chat_system, ld') ∧
      py_truthy chat_system = true.
Proof.
  intros Hempty Hload prompts_file' read'.
  unfold load_prompts in Hload. rewrite Hempty in Hload.
  destruct read as [|msg|msg|config0]; try discriminate.
  destruct (_validate_prompts_config type_error config0) as [[]|msg] eqn:Hvalid;
    [|discriminate].
  injection Hload as <- <-.
  apply validate_prompts_config_shape in Hvalid
    as (m & ex & prompts & pg & cs & -> & Hcartoon & Hlen & Hex & _
        & Hpg & Hpg' & Hcs & Hcs').
  exists prompts, ex, pg, cs.
  unfold get_cartoon_prompts, get_expression_prompts, get_personality_prompt,
    get_chat_system_prompt, get, load_prompts. simpl.
  by rewrite Hcartoon, Hex, Hpg, Hcs.
Qed.

(** X24.  After a successful [load_keys] on an empty cache, the getters of the
    keys return without reading the file again: the Alibaba Cloud section
    with its three entries present and true, and a DashScope key that is
    true. *)
Theorem keys_getters_after_load keys_file read ld config ld' :
  _keys_config ld = None →
  load_keys type_error keys_file read ld = (Ret config, ld') →
  read = Decoded config ∧
  _prompts_config ld' = _prompts_config ld ∧
  ∀ keys_file' read',
    ∃ (alibaba : gmap string json) (api_key : json),
      load_keys type_error keys_file' read' ld' = (Ret config, ld') ∧
      get_alibaba_config type_error keys_file' read' ld'
        = (Ret (JDict alibaba), ld') ∧
      (∀ key, key ∈ ["access_key_id"; "access_key_secret"; "region"] →
         ∃ value, alibaba !! key = Some value ∧ py_truthy value = true) ∧
      get_dashscope_key type_error keys_file' read' ld' = (Ret api_key, ld') ∧
      py_truthy api_key = true.
Proof.
  intros Hempty Hload.
  unfold load_keys in Hload. rewrite Hempty in Hload.
  destruct read as [|msg|msg|config0]; try discriminate.
  destruct (_validate_keys_config type_error config0) as [[]|msg] eqn:Hvalid;
    [|discriminate].
  injection Hload as <- <-.
  split; [done|]. split; [done|]. intros keys_file' read'.
  unfold _validate_keys_config in Hvalid.
  destruct config0 as [| | | | s |l|m]; try discriminate.
  - simpl in Hvalid. repeat case_bool_decide; discriminate.
  - simpl in Hvalid. repeat (destruct (existsb _ l)); discriminate.
  - cbn [for_each] in Hvalid. rewrite !py_in_dict in Hvalid.
    cbn [mbind result_bind] in Hvalid.
    destruct (m !! "alibaba_cloud") as [alibaba|] eqn:Halibaba; [|discriminate].
    destruct (m !! "dashscope") as [dashscope|] eqn:Hdashscope; [|discriminate].
    cbn [py_getitem mbind result_bind] in Hvalid.
    rewrite Halibaba, Hdashscope in Hvalid. cbn [mbind result_bind] in Hvalid.
    apply bind_ret in Hvalid as ([] & Hchecks & Hrest).
    apply bind_ret in Hchecks as ([] & Hid & Hchecks).
    apply bind_ret in Hchecks as ([] & Hsecret & Hchecks).
    apply bind_ret in Hchecks as ([] & Hregion & _).
    apply entry_check in Hid as (a & id & -> & Hid & Hid').
    apply entry_check in Hsecret as (a' & secret & [= <-] & Hsecret & Hsecret').
    apply entry_check in Hregion as (a' & region & [= <-] & Hregion & Hregion').
    apply entry_check in Hrest as (d & api_key & -> & Hkey & Hkey').
    exists a, api_key.
    unfold get_alibaba_config, get_dashscope_key, get, load_keys. simpl.
    rewrite Halibaba, Hdashscope. simpl. rewrite Hkey.
    repeat match goal with |- _ ∧ _ => split end; try done.
    intros key Hin. rewrite !elem_of_cons, elem_of_nil in Hin.
    destruct Hin as [-> | [-> | [-> | []]]]; eauto.
Qed.

End Configuration.

(** The sample prompts loaded into a new loader. *)
Lemma load_prompts_caches_valid_config_witness :
  (ConfigLoader.load_prompts ConfigSamples.type_error "config/prompt.json"
     (ConfigLoader.Decoded ConfigSamples.sample_prompts) ConfigLoader.initial).1
  = Ret ConfigSamples.sample_prompts.
Proof.
  pose proof (load_prompts_caches_valid_config ConfigSamples.type_error
                "config/prompt.json"
                (ConfigLoader.Decoded ConfigSamples.sample_prompts)
                ConfigLoader.initial eq_refl) as Hload.
  destruct (ConfigLoader.load_prompts ConfigSamples.type_error "config/prompt.json"
              (ConfigLoader.Decoded ConfigSamples.sample_prompts)
              ConfigLoader.initial) as [[config|msg] ld'].
  - destruct Hload as [Hread _]. injection Hread as <-. reflexivity.
  - destruct Hload as [_ Hinvalid].
    destruct (Hinvalid ConfigSamples.sample_prompts eq_refl).
    eexists _, _, _, _, _. split; [reflexivity|].
    split; [reflexivity|]. split; [simpl; lia|]. split; [reflexivity|].
    split; [|split; [reflexivity|]; split; [reflexivity|];
             split; [reflexivity|reflexivity]].
    intros expression Hin. rewrite !elem_of_cons, elem_of_nil in Hin.
    destruct Hin as [-> | [-> | [-> | []]]]; eexists; split; reflexivity.
Defined.

(** The cartoon prompts read after the sample prompts were loaded, the
    file being gone. *)
Lemma prompts_getters_after_load_witness :
  ∃ prompts,
    ConfigLoader.get_cartoon_prompts ConfigSamples.type_error "config/prompt.json"
      ConfigLoader.FileMissing
      {| ConfigLoader._keys_config := None;
         ConfigLoader._prompts_config := Some ConfigSamples.sample_prompts |}
    = (Ret (JList prompts),
       {| ConfigLoader._keys_config := None;
          ConfigLoader._prompts_config := Some ConfigSamples.sample_prompts |}) ∧
    (4 ≤ length prompts)%nat.
Proof.
  destruct (prompts_getters_after_load ConfigSamples.type_error "config/prompt.json"
              (ConfigLoader.Decoded ConfigSamples.sample_prompts)
              ConfigLoader.initial ConfigSamples.sample_prompts
              {| ConfigLoader._keys_config := None;
                 ConfigLoader._prompts_config := Some ConfigSamples.sample_prompts |}
              eq_refl eq_refl "config/prompt.json" ConfigLoader.FileMissing)
    as (prompts & expressions & pg & cs & Hcartoon & Hlen & _).
  exists prompts. split; [exact Hcartoon | exact Hlen].
Defined.

(** The DashScope key read after the sample keys were loaded, the file
    being gone. *)
Lemma keys_getters_after_load_witness :
  ∃ api_key,
    ConfigLoader.get_dashscope_key ConfigSamples.type_error "config/key.json"
      ConfigLoader.FileMissing
      {| ConfigLoader._keys_config := Some ConfigSamples.sample_keys;
         ConfigLoader._prompts_config := None |}
    = (Ret api_key,
       {| ConfigLoader._keys_config := Some ConfigSamples.sample_keys;
          ConfigLoader._prompts_config := None |}) ∧
    py_truthy api_key = true.
Proof.
  destruct (keys_getters_after_load ConfigSamples.type_error "config/key.json"
              (ConfigLoader.Decoded ConfigSamples.sample_keys)
              ConfigLoader.initial ConfigSamples.sample_keys
              {| ConfigLoader._keys_config := Some ConfigSamples.sample_keys;
                 ConfigLoader._prompts_config := None |}
              eq_refl eq_refl) as (_ & _ & Hget).
  destruct (Hget "config/key.json" ConfigLoader.FileMissing)
    as (alibaba & api_key & _ & _ & _ & Hkey & Htrue).
  exists api_key. split; [exact Hkey | exact Htrue].
Defined.

(** ** Readiness of a session and its cleanup *)

Section Readiness.

Context (type_error : string → json → string) (e : env).

(** The check reports no missing group exactly on a store that holds the
    eight files, and then reports 100. *)
Lemma check_preparation_completeness_none_missing (fs : gset string)
    image_uuid original_image_path missing pct :
  check_preparation_completeness fs image_uuid original_image_path
    = Some (missing, pct) →
  (size missing = 0%nat ↔
   ∀ p, p ∈ required_variations image_uuid ++ required_expressions image_uuid
            ++ [required_personality image_uuid] → p ∈ fs) ∧
  (size missing = 0%nat → pct = 100%Z ∧ missing = ∅).
Proof.
  intros E.
  destruct (check_preparation_completeness_lookup _ _ _ _ _ E) as (Hv & He & Hp & _).
  split; [split|].
  - intros Hsize. apply map_size_empty_iff in Hsize. subst missing.
    rewrite lookup_empty in Hv, He, Hp.
    intros p Hin. rewrite !elem_of_app, list_elem_of_singleton in Hin.
    destruct Hin as [Hin|[Hin| ->]].
    + apply (absent_paths_nil fs (required_variations image_uuid)); [|exact Hin].
      destruct (absent_paths fs (required_variations image_uuid)); congruence.
    + apply (absent_paths_nil fs (required_expressions image_uuid)); [|exact Hin].
      destruct (absent_paths fs (required_expressions image_uuid)); congruence.
    + destruct (bool_decide_reflect (required_personality image_uuid ∈ fs));
        congruence.
  - intros Hall.
    rewrite (check_preparation_completeness_complete fs image_uuid
               original_image_path Hall) in E.
    injection E as <- <-. apply map_size_empty.
  - intros Hsize. apply map_size_empty_iff in Hsize. subst missing.
    split; [|done].
    by destruct (check_preparation_completeness_pct _ _ _ _ _ E) as [_ ->].
Qed.

(** The stored personality keeps a session ready exactly when it is a
    dictionary without an [error] key that holds the three fields. *)
Lemma personality_ready_true (session : session) :
  personality_ready type_error session = Ret true ↔
  ∃ m, s_personality session = Some (JDict m) ∧ m !! "error" = None ∧
       ∀ field, field ∈ ["personality"; "habits"; "voice_tone"] →
                is_Some (m !! field).
Proof.
  unfold personality_ready. cbv zeta. split.
  - destruct (s_personality session) as [personality|];
      [|intros Hnone; vm_compute in Hnone; discriminate Hnone].
    change (default (JDict ∅) (Some personality)) with personality.
    destruct (py_truthy personality) eqn:Htrue; cbn [negb]; [|discriminate].
    destruct personality as [| | | | s |l|m]; try discriminate.
    + simpl. by case_bool_decide.
    + simpl. by destruct (existsb _ l).
    + cbn [py_in mbind result_bind].
      case_bool_decide as Herror; [discriminate|].
      intros Hret.
      assert (Hall : forallb (λ field, bool_decide (is_Some (m !! field)))
                       ["personality"; "habits"; "voice_tone"] = true)
        by congruence.
      exists m. split; [done|]. split.
      * destruct (m !! "error") eqn:E; [|done]. destruct Herror. eauto.
      * intros field Hin. rewrite forallb_forall in Hall.
        apply list_elem_of_In, Hall in Hin.
        by apply bool_decide_eq_true_1 in Hin.
  - intros (m & -> & Herror & Hall).
    change (default (JDict ∅) (Some (JDict m))) with (JDict m).
    assert (Hne : py_truthy (JDict m) = true).
    { simpl. rewrite bool_decide_eq_false_2; [done|].
      intros Hsize. apply map_size_empty_iff in Hsize. subst m.
      destruct (Hall "habits") as [? Hl]; [set_solver|].
      by rewrite lookup_empty in Hl. }
    rewrite Hne. cbn [negb py_in mbind result_bind].
    rewrite bool_decide_eq_false_2 by (rewrite Herror; by intros [? ?]).
    f_equal. apply forallb_forall. intros field Hin.
    apply bool_decide_eq_true_2, Hall, list_elem_of_In, Hin.
Qed.


(** X25.  Asked about a stored session by its id, the handler reports it ready
    exactly when the session names its image, the eight files of that image
    exist, and the stored personality is a dictionary without an [error] key
    that holds the three fields; it then reports 100 percent and nothing
    missing, and only then redirects to the chat. *)
Theorem status_general_ready_iff keys session_id (w : world) (session : session) :
  session_id ≠ "" →
  user_sessions w !! session_id = Some session →
  let response :=
    get_preparation_status_general type_error e keys (Some session_id) w in
  ((∃ r, response = Readiness r ∧ r_is_ready r = true) ↔
   s_image_uuid session ≠ "" ∧ s_original_image_path session ≠ "" ∧
   (∀ p, p ∈ required_variations (s_image_uuid session)
             ++ required_expressions (s_image_uuid session)
             ++ [required_personality (s_image_uuid session)] →
         p ∈ storage e) ∧
   ∃ m, s_personality session = Some (JDict m) ∧ m !! "error" = None ∧
        ∀ field, field ∈ ["personality"; "habits"; "voice_tone"] →
                 is_Some (m !! field)) ∧
  (redirect_to response = "/chat" ↔
   ∃ r, response = Readiness r ∧ r_is_ready r = true) ∧
  (∀ r, response = Readiness r → r_is_ready r = true →
        r_session_id r = session_id ∧
        r_completion_percentage r = 100%Z ∧ r_missing_files r = [] ∧
        r_files_ready r = true ∧ r_personality_ready r = true).
Proof.
  intros Hsid Hs response. unfold response, get_preparation_status_general.
  cbv zeta. change (default "" (Some session_id)) with session_id.
  rewrite (bool_decide_eq_false_2 _ Hsid), Hs.
  unfold examine_session. cbv zeta.
  destruct (decide (s_image_uuid session = "")) as [Huuid|Huuid].
  { rewrite (bool_decide_eq_true_2 _ Huuid). cbn [orb].
    split; [|split].
    - split; [by intros (r & [=] & _)|]. by intros (? & _).
    - split; [done|]. by intros (r & [=] & _).
    - by intros r [=]. }
  rewrite (bool_decide_eq_false_2 _ Huuid). cbn [orb].
  destruct (decide (s_original_image_path session = "")) as [Hpath|Hpath].
  { rewrite (bool_decide_eq_true_2 _ Hpath).
    split; [|split].
    - split; [by intros (r & [=] & _)|]. by intros (_ & ? & _).
    - split; [done|]. by intros (r & [=] & _).
    - by intros r [=]. }
  rewrite (bool_decide_eq_false_2 _ Hpath).
  destruct (check_preparation_completeness (storage e) (s_image_uuid session)
              (s_original_image_path session)) as [[missing pct]|] eqn:E.
  2: { destruct (check_preparation_completeness_unfold (storage e)
                   (s_image_uuid session) (s_original_image_path session))
         as [pct' E'].
       congruence. }
  destruct (check_preparation_completeness_none_missing _ _ _ _ _ E)
    as [Hfiles Hfull].
  pose proof (personality_ready_true session) as Hpers.
  case_bool_decide as Hsize.
  - destruct (Hfull Hsize) as [-> ->].
    destruct (personality_ready type_error session) as [[|]|msg] eqn:Hp.
    + cbn [andb redirect_to r_is_ready]. split; [|split].
      * split; [|eauto]. intros _.
        repeat match goal with |- _ ∧ _ => split end; try done.
        -- by apply Hfiles.
        -- by apply Hpers.
      * split; eauto.
      * intros r [= <-] _. simpl. done.
    + cbn [andb redirect_to r_is_ready]. split; [|split].
      * split; [by intros (r & [= <-] & ?)|].
        intros (_ & _ & _ & Hm). apply Hpers in Hm. discriminate.
      * split; [done|]. by intros (r & [= <-] & ?).
      * by intros r [= <-].
    + split; [|split].
      * split; [by intros (r & [=] & _)|].
        intros (_ & _ & _ & Hm). apply Hpers in Hm. discriminate.
      * split; [done|]. by intros (r & [=] & _).
      * by intros r [=].
  - cbn [andb redirect_to r_is_ready]. split; [|split].
    + split; [by intros (r & [= <-] & ?)|].
      intros (_ & _ & Hall & _). by apply Hfiles in Hall.
    + split; [done|]. by intros (r & [= <-] & ?).
    + by intros r [= <-].
Qed.




(** X27.  Cleaning a stored session up removes that session and nothing else:
    the other sessions, the uploaded files and the calls made stay.  The
    handlers then treat its id as unknown, and a second cleanup finds
    nothing. *)
Theorem cleanup_session_forgets session_id (w : world) (session : session) keys :
  session_id ≠ "" →
  user_sessions w !! session_id = Some session →
  let w' := (cleanup_session session_id w).1 in
  (cleanup_session session_id w).2 = SessionCleaned session_id ∧
  user_sessions w' = delete session_id (user_sessions w) ∧
  uploads w' = uploads w ∧ trace w' = trace w ∧
  cleanup_session session_id w' = (w', SessionNotFound) ∧
  generate_avatar_variations e (Some (Some session_id)) w'
    = (w', Error 400 "INVALID_SESSION") ∧
  (∀ selected_index,
     select_avatar e (Some (Some session_id, Some selected_index)) w'
     = (w', Error 400 "INVALID_SESSION")) ∧
  get_preparation_status_general type_error e keys (Some session_id) w'
    = NotReady "会话不存在".
Proof.
  intros Hsid Hs w'. unfold w', cleanup_session. rewrite Hs.
  cbn [fst snd].
  assert (Hgone : user_sessions (with_sessions w (delete session_id (user_sessions w)))
                    !! session_id = None)
    by apply lookup_delete_eq.
  repeat match goal with |- _ ∧ _ => split end; try done.
  - by rewrite Hgone.
  - unfold generate_avatar_variations.
    by rewrite (bool_decide_eq_false_2 _ Hsid), Hgone.
  - intros selected_index. unfold select_avatar.
    by rewrite (bool_decide_eq_false_2 _ Hsid), Hgone.
  - unfold get_preparation_status_general. cbv zeta.
    change (default "" (Some session_id)) with session_id.
    by rewrite (bool_decide_eq_false_2 _ Hsid), Hgone.
Qed.

End Readiness.

(** The sample session, on a store that holds the eight files of its
    image, is sent to the chat. *)
Lemma status_general_ready_iff_witness :
  redirect_to
    (get_preparation_status_general ConfigSamples.type_error
       MoreSamples.complete_env [] (Some "5d1f0c9e-0000-4000-8000-000000000001")
       Samples.ready_world)
  = "/chat".
Proof.
  destruct (status_general_ready_iff ConfigSamples.type_error
              MoreSamples.complete_env []
              "5d1f0c9e-0000-4000-8000-000000000001" Samples.ready_world
              Samples.ready_session)
    as (Hready & Hredirect & _).
  - discriminate.
  - reflexivity.
  - apply Hredirect, Hready. split; [discriminate|]. split; [discriminate|].
    split.
    + intros p Hp. apply elem_of_list_to_set. exact Hp.
    + eexists. split; [reflexivity|]. split; [reflexivity|].
      intros field Hin. rewrite !elem_of_cons, elem_of_nil in Hin.
      destruct Hin as [-> | [-> | [-> | []]]]; eexists; reflexivity.
Defined.


(** The sample session cleaned up, then asked for variations. *)
Lemma cleanup_session_forgets_witness :
  generate_avatar_variations Samples.working_env
    (Some (Some "5d1f0c9e-0000-4000-8000-000000000001"))
    (cleanup_session "5d1f0c9e-0000-4000-8000-000000000001" Samples.ready_world).1
  = ((cleanup_session "5d1f0c9e-0000-4000-8000-000000000001" Samples.ready_world).1,
     Error 400 "INVALID_SESSION").
Proof.
  destruct (cleanup_session_forgets ConfigSamples.type_error Samples.working_env
              "5d1f0c9e-0000-4000-8000-000000000001" Samples.ready_world
              Samples.ready_session [])
    as (_ & _ & _ & _ & _ & Hvariations & _).
  - discriminate.
  - reflexivity.
  - exact Hvariations.
Defined.

(** ** The vendor tasks behind the generators *)

Section VendorTasks.

Import ImageGeneration.

Lemma poll_step (fetch : nat → fetched) (waited_time : Z) (fetches : nat) :
  poll fetch waited_time fetches
  = if decide (waited_time < 300)%Z then
      match fetch fetches with
      | FetchRaises msg => (Raise msg, S fetches)
      | FetchRejected msg => (Raise msg, S fetches)
      | FetchStatus task_status result_url =>
          if decide (task_status = "SUCCEEDED")
          then (Ret (waited_time, result_url), S fetches)
          else if decide (task_status = "FAILED")
          then (Raise "任务执行失败", S fetches)
          else if decide (task_status ∈ ["PENDING"; "RUNNING"])
          then poll fetch (waited_time + 10) (S fetches)
          else (Raise ("未知任务状态: " +:+ task_status), S fetches)
      end
    else (Ret (waited_time, None), fetches).
Proof.
  rewrite poll_equation_1.
  destruct (decide (waited_time < 300)%Z); [|reflexivity].
  cbn [poll_unfold_clause_1].
  destruct (fetch fetches) as [msg|msg|task_status result_url];
    cbn [poll_unfold_clause_1_clause_2]; [reflexivity|reflexivity|].
  destruct (decide (task_status = "SUCCEEDED"));
    cbn [poll_unfold_clause_1_clause_2_clause_3]; [reflexivity|].
  destruct (decide (task_status = "FAILED"));
    cbn [poll_unfold_clause_1_clause_2_clause_3_clause_2]; [reflexivity|].
  destruct (decide (task_status ∈ ["PENDING"; "RUNNING"]));
    cbn [poll_unfold_clause_1_clause_2_clause_3_clause_2_clause_2]; reflexivity.
Qed.


Lemma not_pending response :
  (∀ task_status result_url,
     response = FetchStatus task_status result_url →
     task_status ∉ ["PENDING"; "RUNNING"]) →
  ¬ pending response.
Proof.
  intros Hstatus (task_status & result_url & Hfetch & Hin). by eapply Hstatus.
Qed.

(** The loop entered after [k] waits, with [r] waits left: it ends on the
    first query that is not pending, or after [r] pending queries with the
    maximal wait reached. *)
Lemma poll_spec (fetch : nat → fetched) (r k fetches : nat) :
  (k + r = 30)%nat →
  (∃ j result_url,
     (j < r)%nat ∧
     poll fetch (10 * Z.of_nat k) fetches
       = (Ret (10 * Z.of_nat (k + j), result_url)%Z, S (fetches + j)) ∧
     fetch (fetches + j)%nat = FetchStatus "SUCCEEDED" result_url ∧
     ∀ i, (i < j)%nat → pending (fetch (fetches + i)%nat))
  ∨ (∃ j msg,
       (j < r)%nat ∧
       poll fetch (10 * Z.of_nat k) fetches = (Raise msg, S (fetches + j)) ∧
       ¬ pending (fetch (fetches + j)%nat) ∧
       (∀ i, (i < j)%nat → pending (fetch (fetches + i)%nat)))
  ∨ (poll fetch (10 * Z.of_nat k) fetches = (Ret (300%Z, None), (fetches + r)%nat) ∧
     ∀ i, (i < r)%nat → pending (fetch (fetches + i)%nat)).
Proof.
  revert k fetches. induction r as [|r IH]; intros k fetches Hk.
  - right. right. rewrite poll_step.
    destruct (decide (10 * Z.of_nat k < 300)%Z); [lia|].
    split; [|intros i Hi; lia].
    do 2 f_equal; [f_equal; lia | lia].
  - rewrite poll_step.
    destruct (decide (10 * Z.of_nat k < 300)%Z); [|lia].
    destruct (fetch fetches) as [msg|msg|task_status result_url] eqn:Hfetch.
    + right. left. exists 0%nat, msg. rewrite Nat.add_0_r, Hfetch.
      split_and!; [lia|done| |intros i Hi; lia].
      by apply not_pending.
    + right. left. exists 0%nat, msg. rewrite Nat.add_0_r, Hfetch.
      split_and!; [lia|done| |intros i Hi; lia].
      by apply not_pending.
    + destruct (decide (task_status = "SUCCEEDED")) as [->|Hsucceeded].
      { left. exists 0%nat, result_url. rewrite !Nat.add_0_r.
        split_and!; [lia|done|done|intros i Hi; lia]. }
      destruct (decide (task_status = "FAILED")) as [->|Hfailed].
      { right. left. exists 0%nat, "任务执行失败". rewrite Nat.add_0_r, Hfetch.
        split_and!; [lia|done| |intros i Hi; lia].
        apply not_pending. intros status url Hstatus.
        injection Hstatus as <- <-.
        apply (bool_decide_unpack _). vm_compute. exact I. }
      destruct (decide (task_status ∈ ["PENDING"; "RUNNING"])) as [Hpending|Hunknown].
      2: { right. left. exists 0%nat, ("未知任务状态: " +:+ task_status).
           rewrite Nat.add_0_r, Hfetch.
           split_and!; [lia|done| |intros i Hi; lia].
           apply not_pending. intros status url Hstatus.
           by injection Hstatus as <- <-. }
      assert (Hfirst : ∀ j i, (i < S j)%nat →
                (∀ i', (i' < j)%nat → pending (fetch (S fetches + i')%nat)) →
                pending (fetch (fetches + i)%nat)).
      { intros j i Hi Hrest. destruct i as [|i].
        - rewrite Nat.add_0_r, Hfetch. by eexists _, _.
        - replace (fetches + S i)%nat with (S fetches + i)%nat by lia.
          apply Hrest. lia. }
      replace (10 * Z.of_nat k + 10)%Z with (10 * Z.of_nat (S k))%Z by lia.
      destruct (IH (S k) (S fetches)) as
        [(j & url & Hj & -> & Hlast & Hbefore)
        |[(j & msg & Hj & -> & Hlast & Hbefore)
         |[-> Hall]]]; [lia| | |].
      * left. exists (S j), url.
        replace (fetches + S j)%nat with (S fetches + j)%nat by lia.
        replace (k + S j)%nat with (S k + j)%nat by lia.
        split_and!; [lia|done|done|by intros i Hi; eapply Hfirst].
      * right. left. exists (S j), msg.
        replace (fetches + S j)%nat with (S fetches + j)%nat by lia.
        split_and!; [lia|done|done|by intros i Hi; eapply Hfirst].
      * right. right.
        replace (fetches + S r)%nat with (S fetches + r)%nat by lia.
        split; [done|]. by intros i Hi; eapply Hfirst.
Qed.


Lemma fetch_result_path download save failure url directory static_directory
    filename path :
  fetch_result download save failure url directory static_directory filename
    = Ret path →
  path = directory +:+ "/" +:+ filename.
Proof.
  unfold fetch_result. destruct (download url) as [msg|status_code content];
    [discriminate|].
  case_bool_decide; [discriminate|]. cbv zeta.
  destruct (save (directory +:+ "/" +:+ filename)); [discriminate|].
  destruct (save (static_directory +:+ "/" +:+ filename)); [discriminate|].
  by intros [= <-].
Qed.

(** The path [_call_wanx_image_edit_async] returns, when it returns. *)
Lemma wanx_edit_path v image_path prompt image_uuid variation_name path :
  (_call_wanx_image_edit_async v image_path prompt image_uuid variation_name).1
    = Ret path →
  path = "generated/avatars/" +:+ image_uuid +:+ "_" +:+ variation_name +:+ ".png".
Proof.
  unfold _call_wanx_image_edit_async.
  destruct (submit v image_path prompt); try discriminate.
  destruct (poll (fetch v) 0 0) as [[[waited_time result_url]|msg] fetches];
    [|discriminate].
  case_bool_decide; [discriminate|].
  destruct result_url as [image_url|]; [|discriminate]. cbn [fst].
  intros Hpath. by apply fetch_result_path in Hpath.
Qed.

(** X28.  An editing task makes at most thirty status queries.  When it returns
    a path, the task was accepted, a query found it succeeded after pending
    answers only, and the path is that of the variation under
    [generated/avatars]; thirty pending answers make it raise the timeout. *)
Theorem wanx_edit_outcome v image_path prompt image_uuid variation_name :
  let run :=
    _call_wanx_image_edit_async v image_path prompt image_uuid variation_name in
  (run.2 ≤ 30)%nat ∧
  (∀ path, run.1 = Ret path →
     path = "generated/avatars/" +:+ image_uuid +:+ "_" +:+ variation_name
              +:+ ".png" ∧
     submit v image_path prompt = SubmitAccepted ∧
     ∃ j image_url,
       run.2 = S j ∧ fetch v j = FetchStatus "SUCCEEDED" (Some image_url) ∧
       ∀ i, (i < j)%nat → pending (fetch v i)) ∧
  (submit v image_path prompt = SubmitAccepted →
   (∀ i, (i < 30)%nat → pending (fetch v i)) →
   run = (Raise "任务超时", 30%nat)).
Proof.
  intros run.
  pose proof (wanx_edit_path v image_path prompt image_uuid variation_name)
    as Hpath.
  fold run in Hpath. revert Hpath. unfold run, _call_wanx_image_edit_async.
  destruct (submit v image_path prompt) as [msg|msg|].
  { cbn [fst snd]. intros _. split_and!; [lia|discriminate|discriminate]. }
  { cbn [fst snd]. intros _. split_and!; [lia|discriminate|discriminate]. }
  destruct (poll_spec (fetch v) 30 0 0 eq_refl) as
    [(j & url & Hj & Hpoll & Hlast & Hbefore)
    |[(j & msg & Hj & Hpoll & Hlast & Hbefore)
     |[Hpoll Hall]]];
    change (10 * Z.of_nat 0)%Z with 0%Z in Hpoll; rewrite Hpoll;
    cbn [Nat.add] in *.
  - rewrite bool_decide_eq_false_2 by lia.
    destruct url as [image_url|]; cbn [fst snd]; intros Hpath.
    + split_and!; [lia| |].
      * intros path Hret. split_and!; [by apply Hpath|done|]. eauto.
      * intros _ Hall. destruct (Hall j Hj) as (status & u & Hfetch & Hin).
        rewrite Hlast in Hfetch. injection Hfetch as <- <-.
        exfalso. revert Hin. apply (bool_decide_unpack _). vm_compute. exact I.
    + split_and!; [lia|discriminate|].
      intros _ Hall. destruct (Hall j Hj) as (status & u & Hfetch & Hin).
      rewrite Hlast in Hfetch. injection Hfetch as <- <-.
      exfalso. revert Hin. apply (bool_decide_unpack _). vm_compute. exact I.
  - cbn [fst snd]. intros _. split_and!; [lia|discriminate|].
    intros _ Hall. destruct Hlast. by apply Hall.
  - rewrite bool_decide_eq_true_2 by lia. cbn [fst snd]. intros _.
    split_and!; [lia|discriminate|done].
Qed.


Lemma string_app_assoc (a b c : string) : (a +:+ b) +:+ c = a +:+ (b +:+ c).
Proof.
  induction a as [|x a IH]; [done|].
  change (String x ((a +:+ b) +:+ c) = String x (a +:+ (b +:+ c))).
  by rewrite IH.
Qed.

(** One entry of the variations: the required path when the task returned,
    else the placeholder's path or the empty string, neither of which is the
    required path. *)
Lemma wanx_variation_entry prompts vendors placeholder_saved image_path image_uuid
    (number prompt : string) :
  let sv := service_of prompts vendors placeholder_saved in
  let required :=
    "generated/avatars/" +:+ image_uuid +:+ "_variation_" +:+ number +:+ ".png" in
  let entry :=
    match (_call_wanx_image_edit_async (vendors ("variation_" +:+ number))
             image_path prompt image_uuid ("variation_" +:+ number)).1 with
    | Ret result_path => result_path
    | Raise _ =>
        ImageService._create_placeholder_image sv image_uuid
          ("variation_" +:+ number +:+ "_placeholder")
    end in
  ((∃ path, (_call_wanx_image_edit_async (vendors ("variation_" +:+ number))
               image_path prompt image_uuid ("variation_" +:+ number)).1
            = Ret path) ∧ entry = required)
  ∨ ((∃ msg, (_call_wanx_image_edit_async (vendors ("variation_" +:+ number))
                image_path prompt image_uuid ("variation_" +:+ number)).1
             = Raise msg) ∧ entry ≠ required ∧
     (entry = "generated/avatars/" +:+ image_uuid +:+ "_variation_" +:+ number
                +:+ "_placeholder.png" ∨ entry = "")).
Proof.
  intros sv required entry. unfold entry, required.
  destruct (_call_wanx_image_edit_async _ _ _ _ _).1 as [path|msg] eqn:Htask.
  - left. split; [eauto|]. by apply wanx_edit_path in Htask.
  - right. split; [eauto|].
    unfold ImageService._create_placeholder_image.
    destruct (ImageService.placeholder_saved sv _).
    + assert (Hplace :
        "generated/avatars/" +:+ image_uuid +:+ "_" +:+
          ("variation_" +:+ number +:+ "_placeholder") +:+ ".png"
        = "generated/avatars/" +:+ image_uuid +:+ "_variation_" +:+ number
            +:+ "_placeholder.png").
      { by rewrite !string_app_assoc. }
      rewrite Hplace. split; [|by left].
      intros Heq.
      apply (String.app_inj "generated/avatars/"), (String.app_inj image_uuid),
        (String.app_inj "_variation_"), (String.app_inj number) in Heq.
      discriminate.
    + split; [|by right]. discriminate.
Qed.

(** X29.  With the editing tasks run against the vendor, each of the four
    entries the variations generator returns is the path the completeness
    check requires at that place, or the variation's placeholder, or the
    empty string; the four entries are the required paths exactly when each
    of the four tasks returned. *)
Theorem wanx_variations_paths (prompts : list string) (vendors : string → vendor)
    (placeholder_saved : string → bool) (image_path image_uuid : string) :
  (4 ≤ length prompts)%nat →
  let sv := service_of prompts vendors placeholder_saved in
  let task (i : nat) (prompt : string) :=
    (_call_wanx_image_edit_async (vendors ("variation_" +:+ pretty (i + 1)%nat))
       image_path prompt image_uuid ("variation_" +:+ pretty (i + 1)%nat)).1 in
  ∃ paths,
    ImageService.generate_cartoon_variations sv image_path image_uuid = Ret paths ∧
    (∀ i path, paths !! i = Some path →
       required_variations image_uuid !! i = Some path ∨
       path = "generated/avatars/" +:+ image_uuid +:+ "_variation_"
                +:+ pretty (i + 1)%nat +:+ "_placeholder.png" ∨
       path = "") ∧
    (paths = required_variations image_uuid ↔
     ∀ i prompt, (i < 4)%nat → prompts !! i = Some prompt →
                 ∃ path, task i prompt = Ret path).
Proof.
  intros Hlen sv task.
  destruct prompts as [|p0 [|p1 [|p2 [|p3 rest]]]]; try (simpl in Hlen; lia).
  set (prompts := p0 :: p1 :: p2 :: p3 :: rest) in *.
  pose proof (wanx_variation_entry prompts vendors placeholder_saved image_path
                image_uuid "1" p0) as H1.
  pose proof (wanx_variation_entry prompts vendors placeholder_saved image_path
                image_uuid "2" p1) as H2.
  pose proof (wanx_variation_entry prompts vendors placeholder_saved image_path
                image_uuid "3" p2) as H3.
  pose proof (wanx_variation_entry prompts vendors placeholder_saved image_path
                image_uuid "4" p3) as H4.
  cbv zeta in H1, H2, H3, H4. fold sv in H1, H2, H3, H4.
  revert H1 H2 H3 H4.
  set (entry1 := match _ with Ret p => p | Raise _ => _ end).
  set (required1 := "generated/avatars/" +:+ image_uuid +:+ "_variation_" +:+ "1" +:+ ".png").
  intros H1.
  set (entry2 := match _ with Ret p => p | Raise _ => _ end).
  set (required2 := "generated/avatars/" +:+ image_uuid +:+ "_variation_" +:+ "2" +:+ ".png").
  intros H2.
  set (entry3 := match _ with Ret p => p | Raise _ => _ end).
  set (required3 := "generated/avatars/" +:+ image_uuid +:+ "_variation_" +:+ "3" +:+ ".png").
  intros H3.
  set (entry4 := match _ with Ret p => p | Raise _ => _ end).
  set (required4 := "generated/avatars/" +:+ image_uuid +:+ "_variation_" +:+ "4" +:+ ".png").
  intros H4.
  exists [entry1; entry2; entry3; entry4].
  split.
  { unfold ImageService.generate_cartoon_variations.
    rewrite bool_decide_eq_false_2 by (simpl; lia). reflexivity. }
  change (required_variations image_uuid)
    with [required1; required2; required3; required4].
  unfold task.
  split.
  - intros i path Hpath.
    destruct i as [|[|[|[|i]]]]; cbn [lookup list_lookup] in Hpath;
      [injection Hpath as <- ..|discriminate].
    + change (pretty (0 + 1)%nat) with "1".
      destruct H1 as [[_ ->]|(_ & _ & [->| ->])]; auto.
    + change (pretty (1 + 1)%nat) with "2".
      destruct H2 as [[_ ->]|(_ & _ & [->| ->])]; auto.
    + change (pretty (2 + 1)%nat) with "3".
      destruct H3 as [[_ ->]|(_ & _ & [->| ->])]; auto.
    + change (pretty (3 + 1)%nat) with "4".
      destruct H4 as [[_ ->]|(_ & _ & [->| ->])]; auto.
  - split.
    + intros Hpaths. injection Hpaths as E1 E2 E3 E4.
      intros i prompt Hi Hprompt.
      destruct i as [|[|[|[|i]]]]; [| | | |lia];
        cbn [lookup list_lookup prompts] in Hprompt; injection Hprompt as <-.
      * change (pretty (0 + 1)%nat) with "1".
        destruct H1 as [[Hret _]|(_ & Hne & _)]; [done|]. by destruct Hne.
      * change (pretty (1 + 1)%nat) with "2".
        destruct H2 as [[Hret _]|(_ & Hne & _)]; [done|]. by destruct Hne.
      * change (pretty (2 + 1)%nat) with "3".
        destruct H3 as [[Hret _]|(_ & Hne & _)]; [done|]. by destruct Hne.
      * change (pretty (3 + 1)%nat) with "4".
        destruct H4 as [[Hret _]|(_ & Hne & _)]; [done|]. by destruct Hne.
    + intros Hall.
      destruct H1 as [[_ ->]|((msg & Hmsg) & _)];
        [|destruct (Hall 0%nat p0) as [path Hpath]; [lia|done|];
          change (pretty (0 + 1)%nat) with "1" in Hpath; congruence].
      destruct H2 as [[_ ->]|((msg & Hmsg) & _)];
        [|destruct (Hall 1%nat p1) as [path Hpath]; [lia|done|];
          change (pretty (1 + 1)%nat) with "2" in Hpath; congruence].
      destruct H3 as [[_ ->]|((msg & Hmsg) & _)];
        [|destruct (Hall 2%nat p2) as [path Hpath]; [lia|done|];
          change (pretty (2 + 1)%nat) with "3" in Hpath; congruence].
      destruct H4 as [[_ ->]|((msg & Hmsg) & _)];
        [|destruct (Hall 3%nat p3) as [path Hpath]; [lia|done|];
          change (pretty (3 + 1)%nat) with "4" in Hpath; congruence].
      reflexivity.
Qed.


Lemma generate_expressions_lookup (expression_prompts : gmap string string)
    (vendors : string → video_vendor) avatar_path image_uuid emotion :
  generate_expressions expression_prompts vendors avatar_path image_uuid !! emotion
  = (λ prompt,
       match _call_image_to_video (vendors emotion) avatar_path prompt
               image_uuid emotion with
       | Ret video_path => video_path
       | Raise _ => _create_placeholder_video image_uuid emotion
       end) <$> expression_prompts !! emotion.
Proof.
  unfold generate_expressions. rewrite map_lookup_imap.
  by destruct (expression_prompts !! emotion).
Qed.

Lemma string_length_app (a b : string) :
  String.length (a +:+ b) = (String.length a + String.length b)%nat.
Proof.
  induction a as [|x a IH]; [done|].
  change (S (String.length (a +:+ b)) = S (String.length a + String.length b)).
  by rewrite IH.
Qed.

Lemma string_app_inj_r (a b s : string) : a +:+ s = b +:+ s → a = b.
Proof.
  revert b. induction a as [|x a IH]; intros [|y b] Heq.
  - done.
  - apply (f_equal String.length) in Heq.
    rewrite !string_length_app in Heq. cbn [String.length] in Heq. lia.
  - apply (f_equal String.length) in Heq.
    rewrite !string_length_app in Heq. cbn [String.length] in Heq. lia.
  - change (String x (a +:+ s) = String y (b +:+ s)) in Heq.
    injection Heq as -> Heq. f_equal. by apply IH.
Qed.

(** The only request for an image that is answered with the placeholder
    path of one of its emotions is a request for a configured emotion that
    bears the placeholder's own name. *)
Lemma select_expression_video_placeholder (available_emotions : list string)
    (fs : gset string) (image_uuid emotion requested : string) :
  select_expression_video available_emotions fs requested image_uuid
    = Some (_create_placeholder_video image_uuid emotion) →
  requested = emotion +:+ "_placeholder" ∧ requested ∈ available_emotions.
Proof.
  unfold select_expression_video, _create_placeholder_video. cbv zeta.
  set (effective := if bool_decide (requested ∈ available_emotions)
                    then requested else "happy").
  assert (Heffective : effective = emotion +:+ "_placeholder" →
            requested = emotion +:+ "_placeholder" ∧ requested ∈ available_emotions).
  { unfold effective. case_bool_decide as Hin; [done|].
    intros Heq. apply (f_equal String.length) in Heq.
    rewrite string_length_app in Heq. simpl in Heq. lia. }
  clearbody effective.
  repeat case_bool_decide; try discriminate.
  intros [= Heq]. apply Heffective.
  apply (String.app_inj ""), (String.app_inj image_uuid),
    (String.app_inj "_") in Heq.
  apply (string_app_inj_r _ _ ".mp4").
  by rewrite string_app_assoc.
Qed.

(** X30.  The expressions generator returns one entry per configured emotion.
    For an emotion whose video task returned, the entry is the video's path
    under [generated/expressions], and that is the video
    [select_expression_video] picks for the emotion once the file exists.  For
    an emotion whose task raised, the entry is a placeholder path;
    [select_expression_video] does not return it when asked for that emotion
    of the image, and returns it for the image at all only when asked for a
    configured emotion that is itself named after the placeholder. *)
Theorem generated_expression_is_selected (expression_prompts : gmap string string)
    (vendors : string → video_vendor) (avatar_path image_uuid : string)
    (available_emotions : list string) (fs : gset string)
    (emotion prompt : string) :
  expression_prompts !! emotion = Some prompt →
  emotion ∈ available_emotions →
  let expressions :=
    generate_expressions expression_prompts vendors avatar_path image_uuid in
  dom expressions = dom expression_prompts ∧
  match _call_image_to_video (vendors emotion) avatar_path prompt image_uuid
          emotion with
  | Ret video_path =>
      expressions !! emotion = Some video_path ∧
      video_path
        = "generated/expressions/" +:+ image_uuid +:+ "_" +:+ emotion +:+ ".mp4" ∧
      (video_path ∈ fs →
       select_expression_video available_emotions fs emotion image_uuid
       = Some video_path)
  | Raise _ =>
      expressions !! emotion = Some (_create_placeholder_video image_uuid emotion) ∧
      select_expression_video available_emotions fs emotion image_uuid
      ≠ Some (_create_placeholder_video image_uuid emotion) ∧
      (∀ requested,
         select_expression_video available_emotions fs requested image_uuid
         = Some (_create_placeholder_video image_uuid emotion) →
         requested = emotion +:+ "_placeholder" ∧ requested ∈ available_emotions)
  end.
Proof.
  intros Hprompt Havailable expressions. split.
  - apply set_eq. intros k. unfold expressions.
    rewrite !elem_of_dom, generate_expressions_lookup.
    by destruct (expression_prompts !! k).
  - unfold expressions. rewrite generate_expressions_lookup, Hprompt.
    cbn [fmap option_fmap option_map].
    destruct (_call_image_to_video (vendors emotion) avatar_path prompt
                image_uuid emotion) as [video_path|msg] eqn:Hvideo.
    + unfold _call_image_to_video in Hvideo.
      destruct (synthesize (vendors emotion) avatar_path prompt);
        try discriminate.
      apply fetch_result_path in Hvideo. subst video_path.
      split_and!; [done|done|].
      intros Hexists. unfold select_expression_video. cbv zeta.
      rewrite (bool_decide_eq_true_2 _ Havailable).
      by rewrite (bool_decide_eq_true_2 _ Hexists).
    + split_and!; [done| |].
      * intros Hselect.
        apply select_expression_video_placeholder in Hselect as [Hname _].
        apply (f_equal String.length) in Hname.
        rewrite string_length_app in Hname. simpl in Hname. lia.
      * intros requested. apply select_expression_video_placeholder.
Qed.

End VendorTasks.

(** Four editing tasks that succeed at their third query. *)
Lemma wanx_variations_paths_witness :
  ImageService.generate_cartoon_variations
    (ImageGeneration.service_of ["anime"; "pixar"; "sketch"; "chibi"]
       (λ _, ImageSamples.quick_vendor) (λ _, true))
    "temp/processing/segmented_a.jpg" "a"
  = Ret (required_variations "a").
Proof.
  destruct (wanx_variations_paths ["anime"; "pixar"; "sketch"; "chibi"]
              (λ _, ImageSamples.quick_vendor) (λ _, true)
              "temp/processing/segmented_a.jpg" "a")
    as (paths & Hpaths & _ & Hrequired).
  - simpl. lia.
  - rewrite Hpaths. f_equal. apply Hrequired.
    intros i prompt Hi Hprompt. eexists. reflexivity.
Defined.

(** The video generated for [happy] is the one selected once it is on
    disk. *)
Lemma generated_expression_is_selected_witness :
  ImageGeneration.select_expression_video ["happy"; "sad"; "surprised"]
    {[ "generated/expressions/a_happy.mp4" ]} "happy" "a"
  = Some "generated/expressions/a_happy.mp4".
Proof.
  destruct (generated_expression_is_selected
              {[ "happy" := "smiles" ]} (λ _, ImageSamples.smiling_vendor)
              "generated/avatars/a_variation_1.png" "a"
              ["happy"; "sad"; "surprised"]
              {[ "generated/expressions/a_happy.mp4" ]} "happy" "smiles")
    as (_ & _ & _ & Hselect).
  - reflexivity.
  - apply (bool_decide_unpack _). vm_compute. exact I.
  - apply Hselect. apply (bool_decide_unpack _). vm_compute. exact I.
Defined.

(** The exception is real: with an emotion named [happy_placeholder]
    configured and its video generated, a request for it is answered with
    the very path of the placeholder of [happy]. *)
Example placeholder_name_shared_with_an_emotion :
  ImageGeneration.select_expression_video ["happy"; "happy_placeholder"]
    {[ "generated/expressions/a_happy_placeholder.mp4" ]} "happy_placeholder" "a"
  = Some (ImageGeneration._create_placeholder_video "a" "happy").
Proof. vm_compute. reflexivity. Qed.
